(** * Quran Khuwani Tracker: a shallow embedding of the server core

    The development follows the repository file by file:

    - [shared/schema.ts]   the three tables and the zod request schemas;
    - [server/storage.ts]  [DatabaseStorage], one definition per method;
    - [server/routes.ts]   [generateSlug], [requireAuth] and the handlers
                           of register, login, logout, session, create,
                           delete, reset, add-quran, view, claim and
                           unclaim;
    - [client/src/pages]   the progress computations of the two views.

    JavaScript strings are sequences of UTF-16 code units, JavaScript
    numbers holding integers are [Z], and the two places where the code
    really computes with doubles (the progress percentages) use the
    binary64 operations of [SpecFloat].  The PostgreSQL tables are lists of
    rows; each SQL statement is one atomic function on the database.  A
    statement first binds its parameters: a number that is no 32-bit
    integer for an [integer] column, or a string with U+0000 for a [text]
    column, makes it fail before it runs.  The [serial] ids come from
    32-bit sequences, which run out. *)

From Stdlib Require Import ZArith NArith List Bool String Ascii Lia.
From Stdlib Require Import SpecFloat.
Import ListNotations.

Local Open Scope Z_scope.

(* ===================================================================== *)
(** * JavaScript strings                                                  *)
(* ===================================================================== *)

Module Js.

(** A string is its list of UTF-16 code units; [length] is the JavaScript
    [.length]. *)
Definition str := list N.

(** An ASCII literal of the source, as code units. *)
Definition lit (s : string) : str :=
  map N_of_ascii (list_ascii_of_string s).

Fixpoint eqb (a b : str) : bool :=
  match a, b with
  | [], [] => true
  | x :: a', y :: b' => N.eqb x y && eqb a' b'
  | _, _ => false
  end.

(** [WhiteSpace] and [LineTerminator] of ECMAScript: the characters matched
    by the regular expression class [\s] and removed by
    [String.prototype.trim]. *)
Definition is_space (c : N) : bool :=
  ((9 <=? c) && (c <=? 13) || (c =? 32) || (c =? 160) || (c =? 5760)
   || (8192 <=? c) && (c <=? 8202) || (c =? 8232) || (c =? 8233)
   || (c =? 8239) || (c =? 8287) || (c =? 12288) || (c =? 65279))%N.

Fixpoint trimStart (s : str) : str :=
  match s with
  | c :: s' => if is_space c then trimStart s' else s
  | [] => []
  end.

Definition trimEnd (s : str) : str := rev (trimStart (rev s)).

(** [s.trim()] *)
Definition trim (s : str) : str := trimEnd (trimStart s).

(** [s.substring(a, b)] for [0 <= a <= b]. *)
Definition substring (a b : nat) (s : str) : str :=
  firstn (b - a) (skipn a s).

(** The two halves of a surrogate pair. *)
Definition is_high_surrogate (c : N) : bool :=
  ((55296 <=? c) && (c <=? 56319))%N.

Definition is_low_surrogate (c : N) : bool :=
  ((56320 <=? c) && (c <=? 57343))%N.

(** U+FFFD, the replacement character. *)
Definition replacement : N := 65533.

(** [s.toWellFormed()]: a surrogate that is not half of a pair becomes
    U+FFFD.  This is what is left of a string once it has been written as
    UTF-8, which has no encoding for a lone surrogate, and read back. *)
Fixpoint toWellFormed (s : str) : str :=
  match s with
  | [] => []
  | c :: s' =>
      if is_high_surrogate c
      then match s' with
           | c' :: s'' =>
               if is_low_surrogate c' then c :: c' :: toWellFormed s''
               else replacement :: toWellFormed s'
           | [] => [replacement]
           end
      else if is_low_surrogate c then replacement :: toWellFormed s'
      else c :: toWellFormed s'
  end.

End Js.

(** A JavaScript number, as far as the server tells numbers apart: an
    integer, or a number that is none (a fraction, NaN, an infinity). *)
Inductive JsNumber :=
| JInt (z : Z)
| JNotInt.

(** An integer is read as that number wherever a JavaScript number is
    expected. *)
Coercion JInt : Z >-> JsNumber.

(* ===================================================================== *)
(** * shared/schema.ts: the tables                                        *)
(* ===================================================================== *)

(** The [integer] columns are PostgreSQL [int4]: a statement that would
    store a number outside the range, or that compares a column with a
    parameter outside the range, fails.  [serial] is an [int4] column fed
    by a sequence that stops at the largest [int4]. *)
Definition int4_max : Z := 2147483647.
Definition int4_min : Z := -2147483648.
Definition in_int4 (z : Z) : bool := (int4_min <=? z) && (z <=? int4_max).

(** The timestamp columns [createdAt] and [claimedAt] are filled by the
    engine's clock and read by no server code; the rows below carry the
    other columns. *)

Module Organizer.
Record t := mk { id : Z; email : Js.str; passwordHash : Js.str }.
End Organizer.

Module Khuwani.
Record t := mk {
  id : Z;
  organizerId : Z;
  slug : Js.str;
  marhoomName : Js.str;
  numQurans : Z
}.
End Khuwani.

Module Claim.
Record t := mk {
  id : Z;
  khuwaniId : Z;
  quranNumber : Z;
  siparaNumber : Z;
  participantName : Js.str
}.
End Claim.

(** [InsertOrganizer], [InsertKhuwani], [InsertClaim]: the rows without the
    columns the engine fills in. *)
Record InsertOrganizer := { io_email : Js.str; io_passwordHash : Js.str }.

Record InsertKhuwani := {
  ik_organizerId : Z;
  ik_slug : Js.str;
  ik_marhoomName : Js.str;
  ik_numQurans : Z
}.

Record InsertClaim := {
  ic_khuwaniId : Z;
  ic_quranNumber : Z;
  ic_siparaNumber : Z;
  ic_participantName : Js.str
}.

(** The database: three tables and the sequences behind the [serial]
    columns.  A sequence holds the next value it hands out; once that is
    above [int4_max] the sequence is exhausted. *)
Record DB := {
  organizers : list Organizer.t;
  khuwanies : list Khuwani.t;
  claims : list Claim.t;
  organizers_id_seq : Z;
  khuwanies_id_seq : Z;
  claims_id_seq : Z
}.

Definition empty_db : DB :=
  {| organizers := []; khuwanies := []; claims := [];
     organizers_id_seq := 1; khuwanies_id_seq := 1; claims_id_seq := 1 |}.

(** Field updates of the database record. *)
Definition set_organizers (os : list Organizer.t) (d : DB) : DB :=
  {| organizers := os; khuwanies := khuwanies d; claims := claims d;
     organizers_id_seq := organizers_id_seq d;
     khuwanies_id_seq := khuwanies_id_seq d;
     claims_id_seq := claims_id_seq d |}.

Definition set_khuwanies (ks : list Khuwani.t) (d : DB) : DB :=
  {| organizers := organizers d; khuwanies := ks; claims := claims d;
     organizers_id_seq := organizers_id_seq d;
     khuwanies_id_seq := khuwanies_id_seq d;
     claims_id_seq := claims_id_seq d |}.

Definition set_claims (cs : list Claim.t) (d : DB) : DB :=
  {| organizers := organizers d; khuwanies := khuwanies d; claims := cs;
     organizers_id_seq := organizers_id_seq d;
     khuwanies_id_seq := khuwanies_id_seq d;
     claims_id_seq := claims_id_seq d |}.

(** [nextval] of each sequence. *)
Definition nextval_organizers (d : DB) : DB :=
  {| organizers := organizers d; khuwanies := khuwanies d; claims := claims d;
     organizers_id_seq := organizers_id_seq d + 1;
     khuwanies_id_seq := khuwanies_id_seq d;
     claims_id_seq := claims_id_seq d |}.

Definition nextval_khuwanies (d : DB) : DB :=
  {| organizers := organizers d; khuwanies := khuwanies d; claims := claims d;
     organizers_id_seq := organizers_id_seq d;
     khuwanies_id_seq := khuwanies_id_seq d + 1;
     claims_id_seq := claims_id_seq d |}.

Definition nextval_claims (d : DB) : DB :=
  {| organizers := organizers d; khuwanies := khuwanies d; claims := claims d;
     organizers_id_seq := organizers_id_seq d;
     khuwanies_id_seq := khuwanies_id_seq d;
     claims_id_seq := claims_id_seq d + 1 |}.

(** [unique("unique_claim").on(khuwaniId, quranNumber, siparaNumber)]:
    the key of a claim under the constraint. *)
Definition slot : Type := (Z * Z * Z)%type.

Definition slot_of (c : Claim.t) : slot :=
  (Claim.khuwaniId c, Claim.quranNumber c, Claim.siparaNumber c).

Definition slot_eqb (a b : slot) : bool :=
  let '(k1, q1, s1) := a in
  let '(k2, q2, s2) := b in
  (k1 =? k2) && (q1 =? q2) && (s1 =? s2).

(* ===================================================================== *)
(** * The SQL statements issued by server/storage.ts                      *)
(* ===================================================================== *)

(** What a statement hands back to the driver: rows, or an error whose
    [code] is the SQLSTATE. *)
Inductive PgError := Pg (code : string).

Inductive Result (A : Type) :=
| Ok (a : A)
| Throw (e : PgError).
Arguments Ok {A} a.
Arguments Throw {A} e.

Definition unique_violation : PgError := Pg "23505".
Definition foreign_key_violation : PgError := Pg "23503".
Definition numeric_value_out_of_range : PgError := Pg "22003".
Definition invalid_text_representation : PgError := Pg "22P02".
Definition character_not_in_repertoire : PgError := Pg "22021".
Definition sequence_generator_limit_exceeded : PgError := Pg "2200H".

(** Binding the parameters of a statement.  The driver sends every
    parameter as text and the engine converts it to the type of the column
    it is compared with or stored in; a failed conversion fails the
    statement before it runs. *)
Module Pg.

(** A number for an [integer] column.  The driver writes it with
    [toString]: the digits of an integer below 10^21 in magnitude, which
    the engine reads and refuses with SQLSTATE 22003 when it is outside the
    32 bits; anything else ([1e+21], [NaN], [Infinity], a fraction) is no
    integer syntax, SQLSTATE 22P02. *)
Definition int4 (n : JsNumber) : Z + PgError :=
  match n with
  | JInt z =>
      if in_int4 z then inl z
      else if Z.abs z <? 10 ^ 21 then inr numeric_value_out_of_range
      else inr invalid_text_representation
  | JNotInt => inr invalid_text_representation
  end.

(** A string for a [text] column.  The driver writes it as UTF-8, a lone
    surrogate as U+FFFD; the engine refuses U+0000 with SQLSTATE 22021 and
    takes every other character. *)
Definition text (s : Js.str) : Js.str + PgError :=
  if existsb (N.eqb 0) s then inr character_not_in_repertoire
  else inl (Js.toWellFormed s).

(** The statement [k] with one more parameter bound. *)
Definition bound {A B : Type} (p : A + PgError) (d : DB)
    (k : A -> Result B * DB) : Result B * DB :=
  match p with
  | inl a => k a
  | inr e => (Throw e, d)
  end.

End Pg.

Module Sql.

(** [insert into organizers ... returning *]; [email] is [unique].  The
    default of the [serial] column is drawn before the constraints are
    tested, so a rejected row still consumes a sequence value; an exhausted
    sequence fails the statement.  The two strings are an address that
    passed zod's e-mail test and the output of [bcrypt.hash], ASCII text
    that is stored as it is. *)
Definition insert_organizer (data : InsertOrganizer) (d : DB)
  : Result Organizer.t * DB :=
  if int4_max <? organizers_id_seq d
  then (Throw sequence_generator_limit_exceeded, d)
  else
    let row := Organizer.mk (organizers_id_seq d) (io_email data)
                 (io_passwordHash data) in
    let d1 := nextval_organizers d in
    if existsb (fun o => Js.eqb (Organizer.email o) (io_email data))
         (organizers d)
    then (Throw unique_violation, d1)
    else (Ok row, set_organizers (organizers d ++ [row]) d1).

(** [insert into khuwanies ... returning *]; [slug] is [unique],
    [organizer_id] references [organizers.id].  The parameters are bound in
    the order of the columns; then the id is drawn; the unique index is
    tested when the row is inserted and the foreign key at the end of the
    statement. *)
Definition insert_khuwani (data : InsertKhuwani) (d : DB)
  : Result Khuwani.t * DB :=
  Pg.bound (Pg.int4 (ik_organizerId data)) d (fun organizerId =>
  Pg.bound (Pg.text (ik_slug data)) d (fun slug =>
  Pg.bound (Pg.text (ik_marhoomName data)) d (fun marhoomName =>
  Pg.bound (Pg.int4 (ik_numQurans data)) d (fun numQurans =>
    if int4_max <? khuwanies_id_seq d
    then (Throw sequence_generator_limit_exceeded, d)
    else
      let row := Khuwani.mk (khuwanies_id_seq d) organizerId slug
                   marhoomName numQurans in
      let d1 := nextval_khuwanies d in
      if existsb (fun k => Js.eqb (Khuwani.slug k) slug) (khuwanies d)
      then (Throw unique_violation, d1)
      else if negb (existsb (fun o => Organizer.id o =? organizerId)
                      (organizers d))
      then (Throw foreign_key_violation, d1)
      else (Ok row, set_khuwanies (khuwanies d ++ [row]) d1))))).

(** [insert into claims ... returning *].  The row is rejected with
    SQLSTATE 23505 when a row with the same
    (khuwani_id, quran_number, sipara_number) is already stored; the test
    and the insertion are one statement. *)
Definition insert_claim (data : InsertClaim) (d : DB)
  : Result Claim.t * DB :=
  Pg.bound (Pg.int4 (ic_khuwaniId data)) d (fun khuwaniId =>
  Pg.bound (Pg.int4 (ic_quranNumber data)) d (fun quranNumber =>
  Pg.bound (Pg.int4 (ic_siparaNumber data)) d (fun siparaNumber =>
  Pg.bound (Pg.text (ic_participantName data)) d (fun participantName =>
    if int4_max <? claims_id_seq d
    then (Throw sequence_generator_limit_exceeded, d)
    else
      let row := Claim.mk (claims_id_seq d) khuwaniId quranNumber
                   siparaNumber participantName in
      let d1 := nextval_claims d in
      if existsb (fun c => slot_eqb (slot_of c) (slot_of row)) (claims d)
      then (Throw unique_violation, d1)
      else if negb (existsb (fun k => Khuwani.id k =? khuwaniId)
                      (khuwanies d))
      then (Throw foreign_key_violation, d1)
      else (Ok row, set_claims (claims d ++ [row]) d1))))).

(** [delete from claims where p returning *] *)
Definition delete_claims (p : Claim.t -> bool) (d : DB)
  : list Claim.t * DB :=
  (filter p (claims d),
   set_claims (filter (fun c => negb (p c)) (claims d)) d).

(** [delete from khuwanies where id = i]; the claims that reference the
    row go with it ([onDelete: "cascade"]). *)
Definition delete_khuwani_row (i : Z) (d : DB) : DB :=
  set_khuwanies
    (filter (fun k => negb (Khuwani.id k =? i)) (khuwanies d))
    (set_claims
       (filter (fun c => negb (Claim.khuwaniId c =? i)) (claims d)) d).

Definition bump (i : Z) (k : Khuwani.t) : Khuwani.t :=
  if Khuwani.id k =? i
  then Khuwani.mk (Khuwani.id k) (Khuwani.organizerId k) (Khuwani.slug k)
         (Khuwani.marhoomName k) (Khuwani.numQurans k + 1)
  else k.

(** [update khuwanies set num_qurans = num_qurans + 1 where id = i].
    The column is an [int4]: when the sum leaves its range the statement
    fails with SQLSTATE 22003 and changes nothing. *)
Definition increment_num_qurans (i : Z) (d : DB) : Result unit * DB :=
  if forallb
       (fun k => negb (Khuwani.id k =? i)
                 || in_int4 (Khuwani.numQurans k + 1))
       (khuwanies d)
  then (Ok tt, set_khuwanies (map (bump i) (khuwanies d)) d)
  else (Throw numeric_value_out_of_range, d).

End Sql.

(* ===================================================================== *)
(** * server/storage.ts: DatabaseStorage                                  *)
(* ===================================================================== *)

(** Each method is the query it builds with drizzle.  A parameter of type
    [number] is a [JsNumber] and one of type [string] a [Js.str]; they are
    bound before the query runs, and a [where] clause then compares a
    column with its parameter as integers, or as strings code unit by code
    unit.  The e-mail addresses are compared as they are sent: they have
    passed zod's e-mail test. *)

(** The calls a handler makes on [storage], in the order it makes them. *)
Inductive StorageCall :=
| GetOrganizerByEmail (email : Js.str)
| GetOrganizerById (id : JsNumber)
| CreateOrganizer (data : InsertOrganizer)
| GetKhuwaniById (id : JsNumber)
| GetKhuwaniBySlug (slug : Js.str)
| CreateKhuwani (data : InsertKhuwani)
| DeleteKhuwani (id : JsNumber)
| GetClaimsForKhuwani (khuwaniId : JsNumber)
| CreateClaim (data : InsertClaim)
| DeleteClaim (khuwaniId quranNumber siparaNumber : JsNumber)
              (participantName : Js.str)
| DeleteAllClaimsForKhuwani (khuwaniId : JsNumber)
| SlugExists (slug : Js.str)
| IncrementQurans (khuwaniId : JsNumber).

(** A handler runs against the database and leaves the list of storage
    calls it made. *)
Record World := { db : DB; trace : list StorageCall }.

(** Computations that read and write the world and may throw: an awaited
    promise either yields a value or rejects, and what was written before
    the rejection stays written. *)
Definition M (A : Type) : Type := World -> Result A * World.

Definition ret {A} (a : A) : M A := fun w => (Ok a, w).

Definition bind {A B} (m : M A) (f : A -> M B) : M B :=
  fun w =>
    match m w with
    | (Ok a, w') => f a w'
    | (Throw e, w') => (Throw e, w')
    end.

Definition throw {A} (e : PgError) : M A := fun w => (Throw e, w).

(** [try { m } catch (err) { h err }] *)
Definition try_catch {A} (m : M A) (h : PgError -> M A) : M A :=
  fun w =>
    match m w with
    | (Ok a, w') => (Ok a, w')
    | (Throw e, w') => h e w'
    end.

Declare Scope js_scope.
Delimit Scope js_scope with js.
Notation "x <- m ;; k" := (bind m (fun x => k))
  (at level 61, m at next level, right associativity) : js_scope.
Notation "m ;;; k" := (bind m (fun _ => k))
  (at level 61, right associativity) : js_scope.
Local Open Scope js_scope.

(** One storage call: it is recorded, then its statements run. *)
Definition call {A} (c : StorageCall) (stmt : DB -> Result A * DB) : M A :=
  fun w =>
    let (r, d') := stmt (db w) in
    (r, {| db := d'; trace := trace w ++ [c] |}).

Module Storage.

Definition getOrganizerByEmail (email : Js.str) : M (option Organizer.t) :=
  call (GetOrganizerByEmail email)
    (fun d => (Ok (find (fun o => Js.eqb (Organizer.email o) email)
                     (organizers d)), d)).

Definition getOrganizerById (id : JsNumber) : M (option Organizer.t) :=
  call (GetOrganizerById id)
    (fun d =>
       Pg.bound (Pg.int4 id) d (fun i =>
         (Ok (find (fun o => Organizer.id o =? i) (organizers d)), d))).

Definition createOrganizer (data : InsertOrganizer) : M Organizer.t :=
  call (CreateOrganizer data) (Sql.insert_organizer data).

Definition getKhuwaniById (id : JsNumber) : M (option Khuwani.t) :=
  call (GetKhuwaniById id)
    (fun d =>
       Pg.bound (Pg.int4 id) d (fun i =>
         (Ok (find (fun k => Khuwani.id k =? i) (khuwanies d)), d))).

Definition getKhuwaniBySlug (slug : Js.str) : M (option Khuwani.t) :=
  call (GetKhuwaniBySlug slug)
    (fun d =>
       Pg.bound (Pg.text slug) d (fun t =>
         (Ok (find (fun k => Js.eqb (Khuwani.slug k) t) (khuwanies d)), d))).

Definition createKhuwani (data : InsertKhuwani) : M Khuwani.t :=
  call (CreateKhuwani data) (Sql.insert_khuwani data).

(** Two statements, one after the other. *)
Definition deleteKhuwani (id : JsNumber) : M unit :=
  call (DeleteKhuwani id)
    (fun d =>
       Pg.bound (Pg.int4 id) d (fun i =>
         let d1 := snd (Sql.delete_claims
                          (fun c => Claim.khuwaniId c =? i) d) in
         (Ok tt, Sql.delete_khuwani_row i d1))).

Definition getClaimsForKhuwani (khuwaniId : JsNumber) : M (list Claim.t) :=
  call (GetClaimsForKhuwani khuwaniId)
    (fun d =>
       Pg.bound (Pg.int4 khuwaniId) d (fun i =>
         (Ok (filter (fun c => Claim.khuwaniId c =? i) (claims d)), d))).

Definition createClaim (data : InsertClaim) : M Claim.t :=
  call (CreateClaim data) (Sql.insert_claim data).

(** The [where] clause of [deleteClaim], on the bound parameters: all four
    columns are compared, the name code unit by code unit. *)
Definition deleteClaim_where (khuwaniId quranNumber siparaNumber : Z)
    (participantName : Js.str) (c : Claim.t) : bool :=
  (Claim.khuwaniId c =? khuwaniId)
  && (Claim.quranNumber c =? quranNumber)
  && (Claim.siparaNumber c =? siparaNumber)
  && Js.eqb (Claim.participantName c) participantName.

(** [return result.length > 0] *)
Definition deleteClaim (khuwaniId quranNumber siparaNumber : JsNumber)
    (participantName : Js.str) : M bool :=
  call (DeleteClaim khuwaniId quranNumber siparaNumber participantName)
    (fun d =>
       Pg.bound (Pg.int4 khuwaniId) d (fun k =>
       Pg.bound (Pg.int4 quranNumber) d (fun q =>
       Pg.bound (Pg.int4 siparaNumber) d (fun s =>
       Pg.bound (Pg.text participantName) d (fun name =>
         let (result, d') :=
           Sql.delete_claims (deleteClaim_where k q s name) d in
         (Ok (0 <? Z.of_nat (List.length result)), d')))))).

Definition deleteAllClaimsForKhuwani (khuwaniId : JsNumber) : M unit :=
  call (DeleteAllClaimsForKhuwani khuwaniId)
    (fun d =>
       Pg.bound (Pg.int4 khuwaniId) d (fun i =>
         (Ok tt, snd (Sql.delete_claims
                        (fun c => Claim.khuwaniId c =? i) d)))).

Definition slugExists (slug : Js.str) : M bool :=
  call (SlugExists slug)
    (fun d =>
       Pg.bound (Pg.text slug) d (fun t =>
         (Ok (existsb (fun k => Js.eqb (Khuwani.slug k) t) (khuwanies d)),
          d))).

Definition incrementQurans (khuwaniId : JsNumber) : M unit :=
  call (IncrementQurans khuwaniId)
    (fun d =>
       Pg.bound (Pg.int4 khuwaniId) d (fun i =>
         Sql.increment_num_qurans i d)).

End Storage.

(* ===================================================================== *)
(** * Request bodies and the zod schemas                                  *)
(* ===================================================================== *)

(** A JSON number is a double, a [JsNumber]; the schemas only ask whether
    it is an integer ([Number.isInteger]) and, if so, which. *)

(** The value found under a key of [req.body]. *)
Inductive Json :=
| JUndefined
| JNull
| JBool (b : bool)
| JNumber (n : JsNumber)
| JString (s : Js.str)
| JObject.

Inductive ZodIssueCode := invalid_type | too_small | too_big | invalid_string.

Record ZodIssue := { path : string; code : ZodIssueCode }.

(** [safeParse]: the parsed data, or the first issue
    ([parsed.error.errors[0]]). *)
Definition Parsed (A : Type) : Type := (A + ZodIssue)%type.

Module Zod.

(** [z.number().int().min(lo)] and, with [hi], [.max(hi)].  The checks
    run in the order they were chained; the first failing one gives the
    first issue. *)
Definition number_int_min_max (key : string) (lo : Z) (hi : option Z)
    (v : Json) : Parsed Z :=
  match v with
  | JNumber (JInt z) =>
      if z <? lo then inr {| path := key; code := too_small |}
      else match hi with
           | Some h =>
               if h <? z then inr {| path := key; code := too_big |}
               else inl z
           | None => inl z
           end
  | _ => inr {| path := key; code := invalid_type |}
  end.

(** [z.string().min(lo).max(hi).trim()]: the two length checks see the
    string as it was sent, and [trim] then rewrites the data. *)
Definition string_min_max_trim (key : string) (lo hi : Z) (v : Json)
  : Parsed Js.str :=
  match v with
  | JString s =>
      if Z.of_nat (List.length s) <? lo
      then inr {| path := key; code := too_small |}
      else if hi <? Z.of_nat (List.length s)
      then inr {| path := key; code := too_big |}
      else inl (Js.trim s)
  | _ => inr {| path := key; code := invalid_type |}
  end.

(** [z.string().min(lo, message)] *)
Definition string_min (key : string) (lo : Z) (v : Json) : Parsed Js.str :=
  match v with
  | JString s =>
      if Z.of_nat (List.length s) <? lo
      then inr {| path := key; code := too_small |}
      else inl s
  | _ => inr {| path := key; code := invalid_type |}
  end.

(** [z.string().email(message)], over zod's own test of the format. *)
Definition string_email (is_email : Js.str -> bool) (key : string)
    (v : Json) : Parsed Js.str :=
  match v with
  | JString s =>
      if is_email s then inl s
      else inr {| path := key; code := invalid_string |}
  | _ => inr {| path := key; code := invalid_type |}
  end.

End Zod.

(** The keys [claimBodySchema] reads from [req.body]; a body that is not an
    object has none of them. *)
Record ClaimBody := {
  body_quranNumber : Json;
  body_siparaNumber : Json;
  body_participantName : Json
}.

Record ClaimData := {
  quranNumber : Z;
  siparaNumber : Z;
  participantName : Js.str
}.

(** [claimBodySchema.safeParse(req.body)]: the keys are parsed in the order
    of the schema. *)
Definition claimBodySchema (body : ClaimBody) : Parsed ClaimData :=
  match Zod.number_int_min_max "quranNumber" 1 None (body_quranNumber body),
        Zod.number_int_min_max "siparaNumber" 1 (Some 30)
          (body_siparaNumber body),
        Zod.string_min_max_trim "participantName" 1 100
          (body_participantName body)
  with
  | inl q, inl s, inl n =>
      inl {| quranNumber := q; siparaNumber := s; participantName := n |}
  | inr i, _, _ => inr i
  | inl _, inr i, _ => inr i
  | inl _, inl _, inr i => inr i
  end.

Record LoginBody := { body_email : Json; body_password : Json }.

Record LoginData := { email : Js.str; password : Js.str }.

(** [loginSchema.safeParse(req.body)] *)
Definition loginSchema (is_email : Js.str -> bool) (body : LoginBody)
  : Parsed LoginData :=
  match Zod.string_email is_email "email" (body_email body),
        Zod.string_min "password" 6 (body_password body)
  with
  | inl e, inl p => inl {| email := e; password := p |}
  | inr i, _ => inr i
  | inl _, inr i => inr i
  end.

(* ===================================================================== *)
(** * server/routes.ts: responses                                         *)
(* ===================================================================== *)

(** The [message] of a response: a literal of the source, or the message
    zod attaches to an issue. *)
Inductive Message :=
| Text (s : string)
| ZodMessage (i : ZodIssue).

(** The JSON a handler sends. *)
Inductive Payload :=
| Msg (success : bool) (message : Message)
| ClaimCreated (claim : Claim.t).

Record Response := { status : Z; payload : Payload }.

(** [res.status(code).json({ success: false, message })] *)
Definition fail (code : Z) (message : string) : Response :=
  {| status := code; payload := Msg false (Text message) |}.

(** [res.json({ success: true, message })] *)
Definition ok (message : string) : Response :=
  {| status := 200; payload := Msg true (Text message) |}.

(** [req.session] *)
Record Session := { organizerId : option Z }.

(** [requireAuth]: [!req.session.organizerId] also holds for the id 0. *)
Definition requireAuth (s : Session) (next : Z -> M Response) : M Response :=
  match organizerId s with
  | Some i => if i =? 0 then ret (fail 401 "Not authenticated") else next i
  | None => ret (fail 401 "Not authenticated")
  end.

(* ===================================================================== *)
(** * server/routes.ts: the handlers                                      *)
(* ===================================================================== *)

(** The [id] of the organizer routes is [parseInt(req.params.id)]: an
    integer, or NaN for a parameter that does not begin with one. *)

(** [POST /api/organizer/khuwani/:id/delete] *)
Definition route_delete (s : Session) (id : JsNumber) : M Response :=
  requireAuth s (fun me =>
    try_catch
      (k <- Storage.getKhuwaniById id ;;
       match k with
       | None => ret (fail 404 "Khuwani not found")
       | Some k =>
           if negb (Khuwani.organizerId k =? me)
           then ret (fail 404 "Khuwani not found")
           else Storage.deleteKhuwani id ;;; ret (ok "Deleted")
       end)
      (fun _ => ret (fail 500 "Failed to delete"))).

(** [POST /api/organizer/khuwani/:id/reset] *)
Definition route_reset (s : Session) (id : JsNumber) : M Response :=
  requireAuth s (fun me =>
    try_catch
      (k <- Storage.getKhuwaniById id ;;
       match k with
       | None => ret (fail 404 "Khuwani not found")
       | Some k =>
           if negb (Khuwani.organizerId k =? me)
           then ret (fail 404 "Khuwani not found")
           else Storage.deleteAllClaimsForKhuwani id ;;;
                ret (ok "Claims reset")
       end)
      (fun _ => ret (fail 500 "Failed to reset"))).

(** [POST /api/organizer/khuwani/:id/add-quran] *)
Definition route_add_quran (s : Session) (id : JsNumber) : M Response :=
  requireAuth s (fun me =>
    try_catch
      (k <- Storage.getKhuwaniById id ;;
       match k with
       | None => ret (fail 404 "Khuwani not found")
       | Some k =>
           if negb (Khuwani.organizerId k =? me)
           then ret (fail 404 "Khuwani not found")
           else Storage.incrementQurans id ;;; ret (ok "Quran added")
       end)
      (fun _ => ret (fail 500 "Failed to add Quran"))).

Definition slot_taken_message : string :=
  "Sorry, this Sipara was just claimed by someone else. Please choose another.".

(** [POST /api/k/:slug/claim] *)
Definition route_claim (slug : Js.str) (body : ClaimBody) : M Response :=
  try_catch
    (k <- Storage.getKhuwaniBySlug slug ;;
     match k with
     | None => ret (fail 404 "Khuwani not found")
     | Some k =>
         match claimBodySchema body with
         | inr issue =>
             ret {| status := 400; payload := Msg false (ZodMessage issue) |}
         | inl data =>
             if Khuwani.numQurans k <? quranNumber data
             then ret (fail 400 "Invalid Quran number")
             else
               try_catch
                 (claim <- Storage.createClaim
                             {| ic_khuwaniId := Khuwani.id k;
                                ic_quranNumber := quranNumber data;
                                ic_siparaNumber := siparaNumber data;
                                ic_participantName := participantName data |} ;;
                  ret {| status := 200; payload := ClaimCreated claim |})
                 (fun err =>
                    match err with
                    | Pg code =>
                        if String.eqb code "23505"
                        then ret (fail 409 slot_taken_message)
                        else throw err
                    end)
         end
     end)
    (fun _ => ret (fail 500 "Failed to claim sipara")).

Definition release_refused_message : string :=
  "Could not release this Sipara. You may not have claimed it.".

(** [POST /api/k/:slug/unclaim] *)
Definition route_unclaim (slug : Js.str) (body : ClaimBody) : M Response :=
  try_catch
    (k <- Storage.getKhuwaniBySlug slug ;;
     match k with
     | None => ret (fail 404 "Khuwani not found")
     | Some k =>
         match claimBodySchema body with
         | inr issue =>
             ret {| status := 400; payload := Msg false (ZodMessage issue) |}
         | inl data =>
             deleted <- Storage.deleteClaim (Khuwani.id k) (quranNumber data)
                          (siparaNumber data) (participantName data) ;;
             if negb deleted
             then ret (fail 400 release_refused_message)
             else ret (ok "Sipara released")
         end
     end)
    (fun _ => ret (fail 500 "Failed to release sipara")).

Section Login.

(** [bcrypt.compare(password, hash)] and zod's test of an e-mail address:
    library code outside the repository. *)
Variable bcrypt_compare : Js.str -> Js.str -> bool.
Variable is_email : Js.str -> bool.

(** [POST /api/organizer/login]; the handler may write
    [req.session.organizerId]. *)
Definition route_login (s : Session) (body : LoginBody)
  : M (Session * Response) :=
  try_catch
    (match loginSchema is_email body with
     | inr issue =>
         ret (s, {| status := 400; payload := Msg false (ZodMessage issue) |})
     | inl data =>
         organizer <- Storage.getOrganizerByEmail (email data) ;;
         match organizer with
         | None => ret (s, fail 401 "Invalid email or password")
         | Some organizer =>
             if negb (bcrypt_compare (password data)
                        (Organizer.passwordHash organizer))
             then ret (s, fail 401 "Invalid email or password")
             else ret ({| organizerId := Some (Organizer.id organizer) |},
                       ok "Logged in")
         end
     end)
    (fun _ => ret (s, fail 500 "Login failed")).

End Login.

(* ===================================================================== *)
(** * server/routes.ts: generateSlug                                      *)
(* ===================================================================== *)

Module Slug.

Definition hyphen : N := 45.

Definition is_hyphen (c : N) : bool := (c =? hyphen)%N.

(** The class [[a-z0-9\s-]]. *)
Definition kept (c : N) : bool :=
  ((97 <=? c) && (c <=? 122) || (48 <=? c) && (c <=? 57))%N
  || Js.is_space c || is_hyphen c.

(** [s.replace(/p+/g, by)]: every maximal run of characters of the class
    [p] becomes the single character [by].  [in_run] tells whether the
    previous character was of the class. *)
Fixpoint replace_runs (p : N -> bool) (by_ : N) (in_run : bool)
    (s : Js.str) : Js.str :=
  match s with
  | [] => []
  | c :: s' =>
      if p c
      then if in_run then replace_runs p by_ true s'
           else by_ :: replace_runs p by_ true s'
      else c :: replace_runs p by_ false s'
  end.

(** [s.replace(/^-/, "")] *)
Definition drop_leading_hyphen (s : Js.str) : Js.str :=
  match s with
  | c :: s' => if is_hyphen c then s' else s
  | [] => []
  end.

(** [s.replace(/^-|-$/g, "")]: one hyphen at the start and one at the end
    of what is left. *)
Definition strip_one_hyphen (s : Js.str) : Js.str :=
  rev (drop_leading_hyphen (rev (drop_leading_hyphen s))).

(** The digits [Number.prototype.toString(36)] writes. *)
Definition is_base36 (c : N) : bool :=
  ((48 <=? c) && (c <=? 57) || (97 <=? c) && (c <=? 122))%N.

(** What [Math.random().toString(36)] can look like: the number is in
    [0, 1), so it is written ["0"] or ["0."] followed by at least one
    base-36 digit. *)
Definition is_random36 (r : Js.str) : bool :=
  match r with
  | [48%N] => true
  | 48%N :: 46%N :: d :: ds => forallb is_base36 (d :: ds)
  | _ => false
  end.

Section GenerateSlug.

(** [String.prototype.toLowerCase], with its Unicode case tables. *)
Variable toLowerCase : Js.str -> Js.str.

(** [random36] stands for [Math.random().toString(36)]. *)
Definition base (name : Js.str) : Js.str :=
  strip_one_hyphen
    (replace_runs is_hyphen hyphen false
       (replace_runs Js.is_space hyphen false
          (filter kept (toLowerCase name)))).

Definition random (random36 : Js.str) : Js.str :=
  Js.substring 2 7 random36.

Definition generateSlug (random36 : Js.str) (name : Js.str) : Js.str :=
  base name ++ [hyphen] ++ random random36.

End GenerateSlug.

(** [toLowerCase] on strings of ASCII characters. *)
Definition ascii_toLowerCase (s : Js.str) : Js.str :=
  map (fun c => if ((65 <=? c) && (c <=? 90))%N then (c + 32)%N else c) s.

End Slug.

(** The description of [generateSlug] in the specification, step by step:
    lower-case, strip what is outside [[a-z0-9 space -]], collapse
    whitespace runs to single hyphens, trim leading and trailing hyphens,
    append a hyphen and the suffix. *)
Module SlugSpec.

Definition in_class (c : N) : bool :=
  ((97 <=? c) && (c <=? 122) || (48 <=? c) && (c <=? 57) || (c =? 32))%N
  || Slug.is_hyphen c.

Definition strip (s : Js.str) : Js.str := filter in_class s.

(** "Runs collapsed to single hyphens": a character of the class that is
    followed by another one is dropped, and the last character of a run
    becomes a hyphen; the other characters stay. *)
Fixpoint collapse (in_run_class : N -> bool) (s : Js.str) : Js.str :=
  match s with
  | [] => []
  | c :: s' =>
      if in_run_class c
      then match s' with
           | c' :: _ =>
               if in_run_class c' then collapse in_run_class s'
               else Slug.hyphen :: collapse in_run_class s'
           | [] => [Slug.hyphen]
           end
      else c :: collapse in_run_class s'
  end.

Definition collapse_whitespace (s : Js.str) : Js.str :=
  collapse Js.is_space s.

Fixpoint drop_hyphens (s : Js.str) : Js.str :=
  match s with
  | c :: s' => if Slug.is_hyphen c then drop_hyphens s' else s
  | [] => []
  end.

Definition trim_hyphens (s : Js.str) : Js.str :=
  rev (drop_hyphens (rev (drop_hyphens s))).

Definition generateSlug (toLowerCase : Js.str -> Js.str)
    (suffix name : Js.str) : Js.str :=
  trim_hyphens (collapse_whitespace (strip (toLowerCase name)))
  ++ [Slug.hyphen] ++ suffix.

End SlugSpec.

(** No two hyphens in a row. *)
Fixpoint single_hyphens (s : Js.str) : bool :=
  match s with
  | a :: (b :: _) as t =>
      negb (Slug.is_hyphen a && Slug.is_hyphen b) && single_hyphens t
  | _ => true
  end.

Definition starts_with_hyphen (s : Js.str) : bool :=
  match s with
  | c :: _ => Slug.is_hyphen c
  | [] => false
  end.

(* ===================================================================== *)
(** * client/src/pages: the progress computations                         *)
(* ===================================================================== *)

Module Number.

(** A JavaScript number: an IEEE 754 binary64. *)
Definition prec : Z := 53.
Definition emax : Z := 1024.
Definition t := spec_float.

(** The double nearest to an integer. *)
Definition of_Z (z : Z) : t := binary_normalize prec emax z 0 false.

Definition div (x y : t) : t := SFdiv prec emax x y.
Definition mul (x y : t) : t := SFmul prec emax x y.

(** [Math.round]: the integer nearest to [x], ties going up.  The result
    is given as the integer it denotes (the sign of a zero result is not
    kept); there is none for NaN and the infinities. *)
Definition Math_round (x : t) : option Z :=
  match x with
  | S754_zero _ => Some 0
  | S754_finite s m e =>
      let sm := if s then Z.neg m else Z.pos m in
      if 0 <=? e then Some (sm * 2 ^ e)
      else Some ((2 * sm + 2 ^ (- e)) / 2 ^ (1 - e))
  | _ => None
  end.

End Number.

Module OrganizerDashboard.

(** A [Record<number, number>]: the keys that were assigned, with their
    values, the latest assignment first. *)
Definition Record_ := list (Z * Z).

Definition get (r : Record_) (key : Z) : option Z :=
  match find (fun kv => fst kv =? key) r with
  | Some kv => Some (snd kv)
  | None => None
  end.

Definition set (key v : Z) (r : Record_) : Record_ := (key, v) :: r.

(** [x || 0] *)
Definition or_zero (x : option Z) : Z :=
  match x with Some v => v | None => 0 end.

Definition totalSiparas (numQurans : Z) : Z := numQurans * 30.

Definition claimedCount (claims : list Claim.t) : Z :=
  Z.of_nat (List.length claims).

(** [totalSiparas > 0 ? (claimedCount / totalSiparas) * 100 : 0] *)
Definition progress (numQurans : Z) (claims : list Claim.t) : Number.t :=
  if 0 <? totalSiparas numQurans
  then Number.mul
         (Number.div (Number.of_Z (claimedCount claims))
            (Number.of_Z (totalSiparas numQurans)))
         (Number.of_Z 100)
  else Number.of_Z 0.

(** [for (let i = 1; i <= k.numQurans; i++) perQuranClaims[i] = 0;]
    then the [forEach] over the claims. *)
Definition perQuranClaims (numQurans : Z) (claims : list Claim.t)
  : Record_ :=
  fold_left
    (fun r c =>
       set (Claim.quranNumber c)
         (or_zero (get r (Claim.quranNumber c)) + 1) r)
    claims
    (fold_left (fun r i => set (Z.of_nat i) 0 r)
       (seq 1 (Z.to_nat numQurans)) []).

(** The figures on a card: [Math.round(progress)] and, for each copy,
    [perQuranClaims[qNum] || 0]. *)
Definition percent (numQurans : Z) (claims : list Claim.t) : option Z :=
  Number.Math_round (progress numQurans claims).

Definition quranClaimed (numQurans : Z) (claims : list Claim.t) (qNum : Z)
  : Z :=
  or_zero (get (perQuranClaims numQurans claims) qNum).

End OrganizerDashboard.

Module ParticipantView.

(** [data.claims.filter((c) => c.quranNumber === activeQuran).length] *)
Definition claimedInQuran (claims : list Claim.t) (activeQuran : Z) : Z :=
  Z.of_nat
    (List.length
       (filter (fun c => Claim.quranNumber c =? activeQuran) claims)).

(** [Math.round((claimedInQuran / 30) * 100)] *)
Definition percent (claims : list Claim.t) (activeQuran : Z) : option Z :=
  Number.Math_round
    (Number.mul
       (Number.div (Number.of_Z (claimedInQuran claims activeQuran))
          (Number.of_Z 30))
       (Number.of_Z 100)).

End ParticipantView.

(* ===================================================================== *)
(** * Reachable databases                                                 *)
(* ===================================================================== *)

(** The statements of [Sql] are the atomic steps of the system: whatever
    the interleaving of concurrent requests, the database goes through a
    sequence of them. *)
Inductive Stmt :=
| InsertOrganizerStmt (data : InsertOrganizer)
| InsertKhuwaniStmt (data : InsertKhuwani)
| InsertClaimStmt (data : InsertClaim)
| DeleteClaimsStmt (p : Claim.t -> bool)
| DeleteKhuwaniRowStmt (i : Z)
| IncrementNumQuransStmt (i : Z).

Definition exec (s : Stmt) (d : DB) : DB :=
  match s with
  | InsertOrganizerStmt data => snd (Sql.insert_organizer data d)
  | InsertKhuwaniStmt data => snd (Sql.insert_khuwani data d)
  | InsertClaimStmt data => snd (Sql.insert_claim data d)
  | DeleteClaimsStmt p => snd (Sql.delete_claims p d)
  | DeleteKhuwaniRowStmt i => Sql.delete_khuwani_row i d
  | IncrementNumQuransStmt i => snd (Sql.increment_num_qurans i d)
  end.

Inductive reachable : DB -> Prop :=
| reachable_empty : reachable empty_db
| reachable_exec (s : Stmt) (d : DB) : reachable d -> reachable (exec s d).

(** The constraint [unique_claim]. *)
Definition unique_claim (d : DB) : Prop := NoDup (map slot_of (claims d)).

(** The primary key of [khuwanies], and the sequence ahead of it. *)
Definition khuwanies_pkey (d : DB) : Prop :=
  NoDup (map Khuwani.id (khuwanies d))
  /\ Forall (fun k => Khuwani.id k < khuwanies_id_seq d) (khuwanies d).

(** The column [num_qurans] holds an [int4]. *)
Definition numQurans_int4 (d : DB) : Prop :=
  Forall (fun k => in_int4 (Khuwani.numQurans k) = true) (khuwanies d).

(** A computation keeps the database reachable. *)
Definition stable {A} (m : M A) : Prop :=
  forall w, reachable (db w) -> reachable (db (snd (m w))).

(** A slot holds a claim. *)
Definition taken (d : DB) (sl : slot) : bool :=
  existsb (fun c => slot_eqb (slot_of c) sl) (claims d).

(** The session a look-up by id, or by slug, returns: the stored row with
    that key; none when the engine refuses the parameter. *)
Definition khuwani_by_id (d : DB) (id : Z) : option Khuwani.t :=
  if in_int4 id then find (fun k => Khuwani.id k =? id) (khuwanies d)
  else None.

Definition khuwani_by_slug (d : DB) (slug : Js.str) : option Khuwani.t :=
  match Pg.text slug with
  | inl t => find (fun k => Js.eqb (Khuwani.slug k) t) (khuwanies d)
  | inr _ => None
  end.

(** Running a handler: the response, the database and the calls made. *)
Definition run {A} (m : M A) (d : DB) : Result A * World :=
  m {| db := d; trace := [] |}.

(* ===================================================================== *)
(** * A small database for the examples                                   *)
(* ===================================================================== *)

Module Demo.

Definition organizer : InsertOrganizer :=
  {| io_email := Js.lit "organizer@example.org";
     io_passwordHash := Js.lit "$2a$10$abcdefghijklmnopqrstuv" |}.

Definition slug : Js.str := Js.lit "haji-abdul-rehman-x7f2a".

Definition khuwani : InsertKhuwani :=
  {| ik_organizerId := 1; ik_slug := slug;
     ik_marhoomName := Js.lit "Haji Abdul Rehman"; ik_numQurans := 1 |}.

(** One organizer with one session and no claim. *)
Definition fresh : DB :=
  exec (InsertKhuwaniStmt khuwani)
    (exec (InsertOrganizerStmt organizer) empty_db).

Definition ahmed : InsertClaim :=
  {| ic_khuwaniId := 1; ic_quranNumber := 1; ic_siparaNumber := 5;
     ic_participantName := Js.lit "Ahmed" |}.

(** Two more requests for the same slot. *)
Definition fatima : InsertClaim :=
  {| ic_khuwaniId := 1; ic_quranNumber := 1; ic_siparaNumber := 5;
     ic_participantName := Js.lit "Fatima" |}.

Definition bilal : InsertClaim :=
  {| ic_khuwaniId := 1; ic_quranNumber := 1; ic_siparaNumber := 5;
     ic_participantName := Js.lit "Bilal" |}.

(** The same with sipara 5 of the first copy claimed by Ahmed. *)
Definition claimed : DB := exec (InsertClaimStmt ahmed) fresh.

Definition body (q s : Z) (name : string) : ClaimBody :=
  {| body_quranNumber := JNumber (JInt q);
     body_siparaNumber := JNumber (JInt s);
     body_participantName := JString (Js.lit name) |}.

Definition owner : Session := {| organizerId := Some 1 |}.

(** Stand-ins for [bcrypt.compare] and for zod's e-mail test, to run the
    login handler on examples. *)
Definition bcrypt_compare (password hash : Js.str) : bool :=
  Js.eqb hash (Js.lit "$2a$10$" ++ password).

Definition is_email (s : Js.str) : bool := existsb (N.eqb 64) s.

Definition login_body (email password : string) : LoginBody :=
  {| body_email := JString (Js.lit email);
     body_password := JString (Js.lit password) |}.

(** Two copies, with siparas 1 and 2 of the first and 1 of the second
    claimed. *)
Definition three_claims : list Claim.t :=
  [ Claim.mk 1 1 1 1 (Js.lit "Ahmed");
    Claim.mk 2 1 1 2 (Js.lit "Fatima");
    Claim.mk 3 1 2 1 (Js.lit "Bilal") ].

(** A session whose count is the largest [int4]. *)
Definition full : DB :=
  exec (InsertKhuwaniStmt
          {| ik_organizerId := 1; ik_slug := slug;
             ik_marhoomName := Js.lit "Haji Abdul Rehman";
             ik_numQurans := 2147483647 |})
    (exec (InsertOrganizerStmt organizer) empty_db).

End Demo.

(** Several inserts into [claims], one after the other: the outcome of
    each, in order.  Concurrent claim requests reach the table as such a
    sequence, in some order. *)
Fixpoint insert_claims (ds : list InsertClaim) (d : DB)
  : list (Result Claim.t) * DB :=
  match ds with
  | [] => ([], d)
  | data :: ds' =>
      let (r, d1) := Sql.insert_claim data d in
      let (rs, d2) := insert_claims ds' d1 in
      (r :: rs, d2)
  end.

Definition slot_of_insert (data : InsertClaim) : slot :=
  (ic_khuwaniId data, ic_quranNumber data, ic_siparaNumber data).

(** [n] add-quran requests in a row, each on the database the previous
    one left. *)
Definition add_quran_times (n : nat) (s : Session) (id : Z) (d : DB) : DB :=
  Nat.iter n (fun d' => db (snd (run (route_add_quran s id) d'))) d.

(** The number of claims on a copy, and the quotient [a / b] rounded to the
    nearest integer, ties going up. *)
Definition claims_of_quran (cs : list Claim.t) (q : Z) : Z :=
  Z.of_nat (count_occ Z.eq_dec (map Claim.quranNumber cs) q).

Definition round_half_up (a b : Z) : Z := (2 * a + b) / (2 * b).

(* ===================================================================== *)
(** * shared/schema.ts: the other request schemas                         *)
(* ===================================================================== *)

(** [createKhuwaniFormSchema.safeParse(req.body)], on the value under
    [marhoomName]. *)
Definition createKhuwaniFormSchema (marhoomName : Json) : Parsed Js.str :=
  Zod.string_min "marhoomName" 1 marhoomName.

Record RegisterBody := {
  reg_email : Json;
  reg_password : Json;
  reg_confirmPassword : Json
}.

Record RegisterData := {
  r_email : Js.str;
  r_password : Js.str;
  r_confirmPassword : Js.str
}.

(** The first issue of a refused registration: one of a field, or the one
    of the [refine] that compares the two passwords.  The refinement runs
    after the fields, so its issue comes first only when they have none. *)
Inductive RegisterIssue :=
| FieldIssue (i : ZodIssue)
| PasswordsDontMatch.

(** [registerSchema.safeParse(req.body)] *)
Definition registerSchema (is_email : Js.str -> bool) (body : RegisterBody)
  : RegisterData + RegisterIssue :=
  match Zod.string_email is_email "email" (reg_email body),
        Zod.string_min "password" 6 (reg_password body),
        Zod.string_min "confirmPassword" 6 (reg_confirmPassword body)
  with
  | inl e, inl p, inl c =>
      if Js.eqb p c
      then inl {| r_email := e; r_password := p; r_confirmPassword := c |}
      else inr PasswordsDontMatch
  | inr i, _, _ => inr (FieldIssue i)
  | inl _, inr i, _ => inr (FieldIssue i)
  | inl _, inl _, inr i => inr (FieldIssue i)
  end.

(* ===================================================================== *)
(** * server/routes.ts: the other handlers                                *)
(* ===================================================================== *)

(** What a handler that returns data sends: [res.json(data)], or a status
    with a message. *)
Inductive Answer (A : Type) :=
| Data (a : A)
| Refused (r : Response).
Arguments Data {A} a.
Arguments Refused {A} r.

(** [requireAuth] in front of a handler that returns data. *)
Definition requireAuth_data {A} (s : Session) (next : Z -> M (Answer A))
  : M (Answer A) :=
  match organizerId s with
  | Some i =>
      if i =? 0 then ret (Refused (fail 401 "Not authenticated")) else next i
  | None => ret (Refused (fail 401 "Not authenticated"))
  end.

(** The object [GET /api/k/:slug] sends, [KhuwaniData] on the client. *)
Module KhuwaniData.
Record t := mk {
  id : Z;
  marhoomName : Js.str;
  numQurans : Z;
  slug : Js.str;
  claims : list Claim.t
}.
End KhuwaniData.

(** [GET /api/k/:slug] *)
Definition route_view (slug : Js.str) : M (Answer KhuwaniData.t) :=
  try_catch
    (k <- Storage.getKhuwaniBySlug slug ;;
     match k with
     | None => ret (Refused (fail 404 "Khuwani not found"))
     | Some k =>
         kClaims <- Storage.getClaimsForKhuwani (Khuwani.id k) ;;
         ret (Data (KhuwaniData.mk (Khuwani.id k) (Khuwani.marhoomName k)
                      (Khuwani.numQurans k) (Khuwani.slug k) kClaims))
     end)
    (fun _ => ret (Refused (fail 500 "Failed to fetch khuwani"))).

(** [GET /api/organizer/session]: the id and the e-mail address of the
    organizer behind the session. *)
Definition route_session (s : Session) : M (Answer (Z * Js.str)) :=
  match organizerId s with
  | Some i =>
      if i =? 0 then ret (Refused (fail 401 "Not authenticated"))
      else
        organizer <- Storage.getOrganizerById i ;;
        match organizer with
        | None => ret (Refused (fail 401 "Not authenticated"))
        | Some o => ret (Data (Organizer.id o, Organizer.email o))
        end
  | None => ret (Refused (fail 401 "Not authenticated"))
  end.

(** [POST /api/organizer/logout]: [req.session.destroy]. *)
Definition route_logout (s : Session) : Session * Response :=
  ({| organizerId := None |}, ok "Logged out").

Section Register.

(** [bcrypt.hash(password, 10)] with the salt it draws, [bcrypt.compare]
    and zod's test of an e-mail address. *)
Variable bcrypt_hash : Js.str -> Js.str -> Js.str.
Variable is_email : Js.str -> bool.

(** [POST /api/organizer/register]; [salt] is the salt of this request. *)
Definition route_register (salt : Js.str) (s : Session) (body : RegisterBody)
  : M (Session * Response) :=
  try_catch
    (match registerSchema is_email body with
     | inr (FieldIssue issue) =>
         ret (s, {| status := 400; payload := Msg false (ZodMessage issue) |})
     | inr PasswordsDontMatch => ret (s, fail 400 "Passwords don't match")
     | inl data =>
         existing <- Storage.getOrganizerByEmail (r_email data) ;;
         match existing with
         | Some _ =>
             ret (s, fail 400 "An account with this email already exists")
         | None =>
             organizer <- Storage.createOrganizer
                            {| io_email := r_email data;
                               io_passwordHash :=
                                 bcrypt_hash salt (r_password data) |} ;;
             ret ({| organizerId := Some (Organizer.id organizer) |},
                  ok "Account created")
         end
     end)
    (fun _ => ret (s, fail 500 "Registration failed")).

End Register.

Section Create.

Variable toLowerCase : Js.str -> Js.str.

(** [random36 i] stands for the [i]-th [Math.random().toString(36)] of the
    request, counted from 0. *)
Variable random36 : nat -> Js.str.

(** The [while] loop of the handler, entered with [attempts] slugs
    retried so far and [10 - attempts = remaining].  [slugExists] is asked
    first; [attempts < 10] decides only when it answered [true]. *)
Fixpoint retry_slug (remaining attempts : nat) (name slug : Js.str)
  : M Js.str :=
  exists_ <- Storage.slugExists slug ;;
  match remaining with
  | S remaining' =>
      if (exists_ : bool)
      then retry_slug remaining' (S attempts) name
             (Slug.generateSlug toLowerCase (random36 (S attempts)) name)
      else ret slug
  | O => ret slug
  end.

(** [POST /api/organizer/khuwani/create] *)
Definition route_create (s : Session) (marhoomName : Json)
  : M (Answer Khuwani.t) :=
  requireAuth_data s (fun me =>
    try_catch
      (match createKhuwaniFormSchema marhoomName with
       | inr issue =>
           ret (Refused {| status := 400;
                           payload := Msg false (ZodMessage issue) |})
       | inl name =>
           slug <- retry_slug 10 0 name
                     (Slug.generateSlug toLowerCase (random36 0%nat) name) ;;
           khuwani <- Storage.createKhuwani
                        {| ik_organizerId := me; ik_slug := slug;
                           ik_marhoomName := name; ik_numQurans := 1 |} ;;
           ret (Data khuwani)
       end)
      (fun _ => ret (Refused (fail 500 "Failed to create khuwani")))).

End Create.

(* ===================================================================== *)
(** * The server as a whole                                               *)
(* ===================================================================== *)

Inductive Request :=
| Register (salt : Js.str) (body : RegisterBody)
| Login (body : LoginBody)
| Logout
| GetSession
| Create (random36 : nat -> Js.str) (marhoomName : Json)
| Delete (id : JsNumber)
| Reset (id : JsNumber)
| AddQuran (id : JsNumber)
| View (slug : Js.str)
| ClaimSipara (slug : Js.str) (body : ClaimBody)
| Unclaim (slug : Js.str) (body : ClaimBody).

Section Server.

Variable toLowerCase : Js.str -> Js.str.
Variable bcrypt_hash : Js.str -> Js.str -> Js.str.
Variable bcrypt_compare : Js.str -> Js.str -> bool.
Variable is_email : Js.str -> bool.

(** The database a request leaves, served with the session [s]. *)
Definition serve (s : Session) (req : Request) (d : DB) : DB :=
  match req with
  | Register salt body =>
      db (snd (run (route_register bcrypt_hash is_email salt s body) d))
  | Login body => db (snd (run (route_login bcrypt_compare is_email s body) d))
  | Logout => d
  | GetSession => db (snd (run (route_session s) d))
  | Create random36 name =>
      db (snd (run (route_create toLowerCase random36 s name) d))
  | Delete id => db (snd (run (route_delete s id) d))
  | Reset id => db (snd (run (route_reset s id) d))
  | AddQuran id => db (snd (run (route_add_quran s id) d))
  | View slug => db (snd (run (route_view slug) d))
  | ClaimSipara slug body => db (snd (run (route_claim slug body) d))
  | Unclaim slug body => db (snd (run (route_unclaim slug body) d))
  end.

(** The databases the server can be in: it starts empty and serves requests
    one after the other, each with whatever session its cookie names. *)
Inductive served : DB -> Prop :=
| served_start : served empty_db
| served_request (s : Session) (req : Request) (d : DB) :
    served d -> served (serve s req d).

End Server.

(** What holds of the claims and sessions of a served database: every claim
    is on a slot of a stored session, under a trimmed name of at most 100
    code units, and every session has at least one copy. *)
Definition claim_on_slot_of (ks : list Khuwani.t) (c : Claim.t) : Prop :=
  exists k,
    In k ks /\ Khuwani.id k = Claim.khuwaniId c
    /\ 1 <= Claim.quranNumber c <= Khuwani.numQurans k
    /\ 1 <= Claim.siparaNumber c <= 30
    /\ Js.trim (Claim.participantName c) = Claim.participantName c
    /\ Z.of_nat (List.length (Claim.participantName c)) <= 100.

Definition well_formed (d : DB) : Prop :=
  Forall (claim_on_slot_of (khuwanies d)) (claims d)
  /\ Forall (fun k => 1 <= Khuwani.numQurans k) (khuwanies d).

(** The other keys the schema declares unique, and the foreign key of
    [claims]. *)
Definition slugs_unique (d : DB) : Prop :=
  NoDup (map Khuwani.slug (khuwanies d)).

Definition emails_unique (d : DB) : Prop :=
  NoDup (map Organizer.email (organizers d)).

Definition claims_reference_sessions (d : DB) : Prop :=
  Forall (fun c => In (Claim.khuwaniId c) (map Khuwani.id (khuwanies d)))
    (claims d).

Definition organizers_pkey (d : DB) : Prop :=
  NoDup (map Organizer.id (organizers d))
  /\ Forall (fun o => 1 <= Organizer.id o < organizers_id_seq d)
       (organizers d)
  /\ 1 <= organizers_id_seq d.

(** The strings a [text] column holds are the ones the engine took, as
    they are read back: binding one again changes nothing. *)
Definition is_text (s : Js.str) : Prop := Pg.text s = inl s.

Definition stored_text (d : DB) : Prop :=
  Forall (fun k => is_text (Khuwani.slug k)
                   /\ is_text (Khuwani.marhoomName k)) (khuwanies d)
  /\ Forall (fun c => is_text (Claim.participantName c)) (claims d).

(** The ids are the values the sequences handed out, from 1 up to the
    largest [int4]; the other [integer] columns hold [int4]s too. *)
Definition serial_ids (d : DB) : Prop :=
  1 <= organizers_id_seq d <= int4_max + 1
  /\ 1 <= khuwanies_id_seq d <= int4_max + 1
  /\ 1 <= claims_id_seq d <= int4_max + 1
  /\ Forall (fun o => 1 <= Organizer.id o <= int4_max) (organizers d)
  /\ Forall (fun k => 1 <= Khuwani.id k <= int4_max) (khuwanies d)
  /\ Forall (fun c => in_int4 (Claim.khuwaniId c) = true
                      /\ in_int4 (Claim.quranNumber c) = true
                      /\ in_int4 (Claim.siparaNumber c) = true) (claims d).

(** The string holds U+0000. *)
Definition has_nul (s : Js.str) : Prop := In 0%N s.

(** A code unit and what [toWellFormed] puts in its place. *)
Definition written (a b : N) : Prop :=
  b = a
  \/ (b = Js.replacement
      /\ (Js.is_high_surrogate a = true \/ Js.is_low_surrogate a = true)).

(** What an insert into [claims] asks of its row: the numbers fit the
    columns and the name has no U+0000. *)
Definition bindable (sl : slot) (data : InsertClaim) : Prop :=
  slot_of_insert data = sl
  /\ in_int4 (ic_khuwaniId data) = true
  /\ in_int4 (ic_quranNumber data) = true
  /\ in_int4 (ic_siparaNumber data) = true
  /\ ~ has_nul (ic_participantName data).


(** The numbers [1..n]. *)
Definition range1 (n : Z) : list Z := map Z.of_nat (seq 1 (Z.to_nat n)).

(** [a.reduce((x, y) => x + y, 0)] over integers. *)
Definition sumZ (l : list Z) : Z := fold_right Z.add 0 l.

(** The string does not begin with white space. *)
Definition no_space_at_head (s : Js.str) : Prop :=
  match s with
  | c :: _ => Js.is_space c = false
  | [] => True
  end.

(** A computation started in a database with [P] ends in one with
    [Q a] when it returns [a], and in one with [E] when it throws. *)
Definition hoare {A} (P : DB -> Prop) (m : M A) (Q : A -> DB -> Prop)
    (E : DB -> Prop) : Prop :=
  forall w,
    P (db w) ->
    match m w with
    | (Ok a, w') => Q a (db w')
    | (Throw _, w') => E (db w')
    end.

(* ===================================================================== *)
(** * client/src/pages/participant-view.tsx: what a tap does              *)
(* ===================================================================== *)

Module ParticipantActions.

(** [currentClaims.find((c) => c.siparaNumber === siparaNum)] *)
Definition getClaimForSipara (claims : list Claim.t) (activeQuran : Z)
    (siparaNum : Z) : option Claim.t :=
  find (fun c => Claim.siparaNumber c =? siparaNum)
    (filter (fun c => Claim.quranNumber c =? activeQuran) claims).

(** [claimDialog] *)
Record Dialog := { dlg_quranNumber : Z; dlg_siparaNumber : Z }.

(** What [handleCardClick] sets going: the dialog that asks for a name, or,
    once the participant has confirmed, the release request. *)
Inductive CardAction :=
| OpenDialog (dialog : Dialog)
| Release (body : ClaimBody).

Definition handleCardClick (claims : list Claim.t) (activeQuran : Z)
    (siparaNum : Z) : CardAction :=
  match getClaimForSipara claims activeQuran siparaNum with
  | None =>
      OpenDialog {| dlg_quranNumber := activeQuran;
                    dlg_siparaNumber := siparaNum |}
  | Some existing =>
      Release {| body_quranNumber := JNumber (JInt activeQuran);
                 body_siparaNumber := JNumber (JInt siparaNum);
                 body_participantName :=
                   JString (Claim.participantName existing) |}
  end.

(** [handleClaimSubmit]: the claim request it sends, if any. *)
Definition handleClaimSubmit (claimDialog : option Dialog)
    (nameInput : Js.str) : option ClaimBody :=
  match claimDialog with
  | None => None
  | Some dialog =>
      match Js.trim nameInput with
      | [] => None
      | _ :: _ =>
          Some {| body_quranNumber := JNumber (JInt (dlg_quranNumber dialog));
                  body_siparaNumber :=
                    JNumber (JInt (dlg_siparaNumber dialog));
                  body_participantName := JString (Js.trim nameInput) |}
      end
  end.

(** [claimedInQuran === 30] *)
Definition allComplete (claims : list Claim.t) (activeQuran : Z) : bool :=
  ParticipantView.claimedInQuran claims activeQuran =? 30.

End ParticipantActions.

(* ===================================================================== *)
(** * More sample data                                                    *)
(* ===================================================================== *)

Module Sample.

(** Stand-in for [bcrypt.hash], matching [Demo.bcrypt_compare]. *)
Definition bcrypt_hash (salt password : Js.str) : Js.str :=
  Js.lit "$2a$10$" ++ password.

Definition register_body (email password confirm : string) : RegisterBody :=
  {| reg_email := JString (Js.lit email);
     reg_password := JString (Js.lit password);
     reg_confirmPassword := JString (Js.lit confirm) |}.

(** A random source that always writes the same number. *)
Definition stuck (i : nat) : Js.str := Js.lit "0.x7f2a91kq".

(** A random source that writes a new number every time. *)
Definition fresh_digits (i : nat) : Js.str :=
  Js.lit "0." ++ repeat 97%N (S i) ++ Js.lit "zzzzz".

Definition served_demo : DB -> Prop :=
  served Slug.ascii_toLowerCase bcrypt_hash Demo.bcrypt_compare Demo.is_email.

Definition serve_demo : Session -> Request -> DB -> DB :=
  serve Slug.ascii_toLowerCase bcrypt_hash Demo.bcrypt_compare Demo.is_email.

Definition nobody : Session := {| organizerId := None |}.

(** An organizer registers, creates a session, and Ahmed claims sipara 5
    of its only copy. *)
Definition registered : DB :=
  serve_demo nobody
    (Register (Js.lit "salt")
       (register_body "organizer@example.org" "secret1" "secret1"))
    empty_db.

Definition created : DB :=
  serve_demo Demo.owner
    (Create stuck (JString (Js.lit "Haji Abdul Rehman"))) registered.

Definition claimed : DB :=
  serve_demo nobody (ClaimSipara Demo.slug (Demo.body 1 5 "Ahmed")) created.

Definition session_row : Khuwani.t :=
  Khuwani.mk 1 1 Demo.slug (Js.lit "Haji Abdul Rehman") 1.

Definition ahmed_row : Claim.t := Claim.mk 1 1 1 5 (Js.lit "Ahmed").

End Sample.

(* ===================================================================== *)
(** * Basic facts                                                         *)
(* ===================================================================== *)

Lemma Js_eqb_eq (a b : Js.str) : Js.eqb a b = true <-> a = b.
Proof.
  revert b; induction a as [|x a IH]; intros [|y b]; simpl;
    try (split; [discriminate | congruence]); try tauto.
  rewrite andb_true_iff, N.eqb_eq, IH.
  split; [intros [-> ->]; reflexivity | intros H; inversion H; auto].
Qed.

Lemma Js_eqb_refl (a : Js.str) : Js.eqb a a = true.
Proof. apply Js_eqb_eq; reflexivity. Qed.

Lemma slot_eqb_eq (a b : slot) : slot_eqb a b = true <-> a = b.
Proof.
  destruct a as [[k1 q1] s1], b as [[k2 q2] s2]; simpl.
  rewrite !andb_true_iff, !Z.eqb_eq.
  split; [intros [[-> ->] ->]; reflexivity | intros H; inversion H; auto].
Qed.

Lemma taken_iff (d : DB) (sl : slot) :
  taken d sl = true <-> In sl (map slot_of (claims d)).
Proof.
  unfold taken; rewrite existsb_exists, in_map_iff.
  split; intros [c [H1 H2]]; exists c.
  - apply slot_eqb_eq in H2; auto.
  - split; [auto | apply slot_eqb_eq; auto].
Qed.

(** Deleting rows keeps a key unique. *)
Lemma NoDup_map_filter {Row Key : Type} (key : Row -> Key)
    (keep : Row -> bool) (rows : list Row)
    (Huniq : NoDup (map key rows)) :
  NoDup (map key (filter keep rows)).
Proof.
  induction rows as [|r rows IH]; cbn [filter map]; [constructor|].
  cbn [map] in Huniq; apply NoDup_cons_iff in Huniq.
  destruct Huniq as [Hfresh Hrest].
  destruct (keep r); cbn [map]; [|exact (IH Hrest)].
  apply NoDup_cons; [|exact (IH Hrest)].
  rewrite in_map_iff; intros [r' [Hkey Hin]].
  apply filter_In in Hin; apply Hfresh.
  rewrite in_map_iff; exists r'; tauto.
Qed.

Lemma NoDup_map_snoc {A B} (f : A -> B) (l : list A) (a : A) :
  NoDup (map f l) -> ~ In (f a) (map f l) -> NoDup (map f (l ++ [a])).
Proof.
  intros Hnd Hnotin; rewrite map_app; simpl.
  apply NoDup_app; [exact Hnd | repeat constructor; simpl; tauto |].
  intros x Hx [<- | []]; tauto.
Qed.

Lemma map_id_bump (i : Z) (ks : list Khuwani.t) :
  map Khuwani.id (map (Sql.bump i) ks) = map Khuwani.id ks.
Proof.
  rewrite map_map; apply map_ext; intros k; unfold Sql.bump.
  destruct (Khuwani.id k =? i); reflexivity.
Qed.

Lemma NoDup_map_inj_in {A B} (f : A -> B) (l : list A) (a b : A) :
  NoDup (map f l) -> In a l -> In b l -> f a = f b -> a = b.
Proof.
  induction l as [|x l IH]; simpl; intros Hnd Ha Hb Hf; [contradiction|].
  inversion Hnd as [|? ? Hnotin Hnd']; subst.
  destruct Ha as [->|Ha], Hb as [->|Hb]; auto.
  - exfalso; apply Hnotin; rewrite Hf; apply in_map; exact Hb.
  - exfalso; apply Hnotin; rewrite <- Hf; apply in_map; exact Ha.
Qed.

(* ===================================================================== *)
(** * Binding parameters                                                  *)
(* ===================================================================== *)

Lemma in_int4_iff (z : Z) : in_int4 z = true <-> int4_min <= z <= int4_max.
Proof. unfold in_int4; rewrite andb_true_iff, !Z.leb_le; tauto. Qed.

Lemma int4_accepts (z : Z) : in_int4 z = true -> Pg.int4 z = inl z.
Proof. intros H; cbn [Pg.int4]; rewrite H; reflexivity. Qed.

Lemma int4_refuses (z : Z) :
  in_int4 z = false -> exists e, Pg.int4 z = inr e.
Proof.
  intros H; cbn [Pg.int4]; rewrite H.
  destruct (Z.abs z <? 10 ^ 21); eexists; reflexivity.
Qed.

Lemma int4_inl (n : JsNumber) (z : Z) :
  Pg.int4 n = inl z -> n = JInt z /\ in_int4 z = true.
Proof.
  destruct n as [i|]; cbn [Pg.int4]; [|discriminate].
  destruct (in_int4 i) eqn:E.
  - intros H; inversion H; subst; auto.
  - destruct (Z.abs i <? 10 ^ 21); discriminate.
Qed.

Lemma has_nul_iff (s : Js.str) : existsb (N.eqb 0) s = true <-> has_nul s.
Proof.
  unfold has_nul; rewrite existsb_exists; split.
  - intros [c [Hc E]]; apply N.eqb_eq in E; subst c; exact Hc.
  - intros H; exists 0%N; split; [exact H | reflexivity].
Qed.

Lemma text_accepts (s : Js.str) :
  ~ has_nul s -> Pg.text s = inl (Js.toWellFormed s).
Proof.
  intros H; unfold Pg.text.
  destruct (existsb (N.eqb 0) s) eqn:E; [|reflexivity].
  exfalso; apply H, has_nul_iff, E.
Qed.

Lemma text_refuses (s : Js.str) :
  has_nul s -> Pg.text s = inr character_not_in_repertoire.
Proof.
  intros H; apply has_nul_iff in H; unfold Pg.text; rewrite H; reflexivity.
Qed.

Lemma text_inl (s t : Js.str) :
  Pg.text s = inl t -> ~ has_nul s /\ t = Js.toWellFormed s.
Proof.
  unfold Pg.text; destruct (existsb (N.eqb 0) s) eqn:E; [discriminate|].
  intros H; inversion H; split; [|reflexivity].
  intros Hn; apply has_nul_iff in Hn; congruence.
Qed.

(** ** Strings as the engine stores them *)

Lemma toWellFormed_written (s : Js.str) :
  Forall2 written s (Js.toWellFormed s).
Proof.
  assert (H : forall n s, (List.length s <= n)%nat ->
                          Forall2 written s (Js.toWellFormed s)).
  { induction n as [|n IH]; intros [|c t] Hlen; cbn [List.length] in Hlen;
      try constructor; try lia.
    - cbn [Js.toWellFormed].
      destruct (Js.is_high_surrogate c) eqn:Eh.
      + destruct t as [|c' t'].
        * constructor; [right; auto | constructor].
        * destruct (Js.is_low_surrogate c') eqn:El.
          -- constructor; [left; reflexivity|].
             constructor; [left; reflexivity|].
             apply IH; cbn [List.length] in Hlen; lia.
          -- constructor; [right; auto|].
             apply IH; lia.
      + destruct (Js.is_low_surrogate c) eqn:El.
        * constructor; [right; auto | apply IH; lia].
        * constructor; [left; reflexivity | apply IH; lia]. }
  exact (H (List.length s) s (le_n _)).
Qed.

Lemma toWellFormed_length (s : Js.str) :
  List.length (Js.toWellFormed s) = List.length s.
Proof. symmetry; exact (Forall2_length (toWellFormed_written s)). Qed.

Lemma written_nul (a b : N) : written a b -> (b =? 0)%N = (a =? 0)%N.
Proof.
  intros [->|[-> [H|H]]]; [reflexivity| |];
    destruct a as [|p]; try discriminate; reflexivity.
Qed.

Lemma written_space (a b : N) :
  written a b -> Js.is_space a = false -> Js.is_space b = false.
Proof. intros [->|[-> _]] H; [exact H | reflexivity]. Qed.

Lemma toWellFormed_nul (s : Js.str) :
  existsb (N.eqb 0) (Js.toWellFormed s) = existsb (N.eqb 0) s.
Proof.
  induction (toWellFormed_written s) as [|a b s t Hab _ IH]; [reflexivity|].
  cbn [existsb]; rewrite IH.
  rewrite (N.eqb_sym 0 b), (N.eqb_sym 0 a), (written_nul a b Hab).
  reflexivity.
Qed.

Lemma toWellFormed_idempotent (s : Js.str) :
  Js.toWellFormed (Js.toWellFormed s) = Js.toWellFormed s.
Proof.
  assert (H : forall n s, (List.length s <= n)%nat ->
                          Js.toWellFormed (Js.toWellFormed s)
                          = Js.toWellFormed s).
  { induction n as [|n IH]; intros [|c t] Hlen; cbn [List.length] in Hlen;
      try reflexivity; try lia.
    cbn [Js.toWellFormed].
    destruct (Js.is_high_surrogate c) eqn:Eh.
    - destruct t as [|c' t']; [reflexivity|].
      destruct (Js.is_low_surrogate c') eqn:El.
      + cbn [Js.toWellFormed]; rewrite Eh, El.
        rewrite IH by (cbn [List.length] in Hlen; lia); reflexivity.
      + change (Js.toWellFormed (Js.replacement :: Js.toWellFormed (c' :: t')))
          with (Js.replacement
                  :: Js.toWellFormed (Js.toWellFormed (c' :: t'))).
        rewrite IH by lia; reflexivity.
    - destruct (Js.is_low_surrogate c) eqn:El.
      + change (Js.toWellFormed (Js.replacement :: Js.toWellFormed t))
          with (Js.replacement :: Js.toWellFormed (Js.toWellFormed t)).
        rewrite IH by lia; reflexivity.
      + cbn [Js.toWellFormed]; rewrite Eh, El.
        rewrite IH by lia; reflexivity. }
  exact (H (List.length s) s (le_n _)).
Qed.

(** What the engine took is text. *)
Lemma text_is_text (s t : Js.str) : Pg.text s = inl t -> is_text t.
Proof.
  intros H; apply text_inl in H; destruct H as [Hn ->].
  unfold is_text, Pg.text; rewrite toWellFormed_nul.
  destruct (existsb (N.eqb 0) s) eqn:E.
  - exfalso; apply Hn, has_nul_iff, E.
  - rewrite toWellFormed_idempotent; reflexivity.
Qed.

Lemma is_text_no_nul (s : Js.str) : is_text s -> ~ has_nul s.
Proof. intros H; apply text_inl in H; tauto. Qed.



(* ===================================================================== *)
(** * What an insert can do                                               *)
(* ===================================================================== *)

(** An insert leaves the database as it was, or only draws from the
    sequence, or stores the row it returns. *)
Lemma insert_organizer_outcome (data : InsertOrganizer) (d : DB) :
  let row := Organizer.mk (organizers_id_seq d) (io_email data)
               (io_passwordHash data) in
  (exists e, Sql.insert_organizer data d = (Throw e, d))
  \/ (organizers_id_seq d <= int4_max
      /\ exists e,
           Sql.insert_organizer data d = (Throw e, nextval_organizers d))
  \/ (organizers_id_seq d <= int4_max
      /\ existsb (fun o => Js.eqb (Organizer.email o) (io_email data))
           (organizers d) = false
      /\ Sql.insert_organizer data d
         = (Ok row, set_organizers (organizers d ++ [row])
                      (nextval_organizers d))).
Proof.
  intros row; unfold Sql.insert_organizer.
  destruct (Z.ltb_spec int4_max (organizers_id_seq d));
    [left; eexists; reflexivity|].
  destruct (existsb _ (organizers d)) eqn:E.
  - right; left; split; [assumption | eexists; reflexivity].
  - right; right; auto.
Qed.

Lemma insert_khuwani_outcome (data : InsertKhuwani) (d : DB) :
  (exists e, Sql.insert_khuwani data d = (Throw e, d))
  \/ (khuwanies_id_seq d <= int4_max
      /\ exists e, Sql.insert_khuwani data d = (Throw e, nextval_khuwanies d))
  \/ (exists slug marhoomName,
        let row := Khuwani.mk (khuwanies_id_seq d) (ik_organizerId data) slug
                     marhoomName (ik_numQurans data) in
        khuwanies_id_seq d <= int4_max
        /\ in_int4 (ik_organizerId data) = true
        /\ Pg.text (ik_slug data) = inl slug
        /\ Pg.text (ik_marhoomName data) = inl marhoomName
        /\ in_int4 (ik_numQurans data) = true
        /\ existsb (fun k => Js.eqb (Khuwani.slug k) slug) (khuwanies d)
           = false
        /\ existsb (fun o => Organizer.id o =? ik_organizerId data)
             (organizers d) = true
        /\ Sql.insert_khuwani data d
           = (Ok row, set_khuwanies (khuwanies d ++ [row])
                        (nextval_khuwanies d))).
Proof.
  unfold Sql.insert_khuwani, Pg.bound; cbn [Pg.int4].
  destruct (in_int4 (ik_organizerId data)) eqn:Eo;
    [|left; destruct (Z.abs _ <? _); eexists; reflexivity].
  destruct (Pg.text (ik_slug data)) as [slug|e] eqn:Es;
    [|left; eexists; reflexivity].
  destruct (Pg.text (ik_marhoomName data)) as [name|e] eqn:En;
    [|left; eexists; reflexivity].
  destruct (in_int4 (ik_numQurans data)) eqn:Eq;
    [|left; destruct (Z.abs _ <? _); eexists; reflexivity].
  destruct (Z.ltb_spec int4_max (khuwanies_id_seq d));
    [left; eexists; reflexivity|].
  destruct (existsb _ (khuwanies d)) eqn:Eu;
    [right; left; split; [assumption | eexists; reflexivity]|].
  destruct (existsb _ (organizers d)) eqn:Ef; cbn [negb];
    [|right; left; split; [assumption | eexists; reflexivity]].
  right; right; exists slug, name; cbv zeta; auto 10.
Qed.

Lemma insert_claim_outcome (data : InsertClaim) (d : DB) :
  (exists e, Sql.insert_claim data d = (Throw e, d))
  \/ (claims_id_seq d <= int4_max
      /\ exists e, Sql.insert_claim data d = (Throw e, nextval_claims d))
  \/ (exists name,
        let row := Claim.mk (claims_id_seq d) (ic_khuwaniId data)
                     (ic_quranNumber data) (ic_siparaNumber data) name in
        claims_id_seq d <= int4_max
        /\ in_int4 (ic_khuwaniId data) = true
        /\ in_int4 (ic_quranNumber data) = true
        /\ in_int4 (ic_siparaNumber data) = true
        /\ Pg.text (ic_participantName data) = inl name
        /\ taken d (slot_of_insert data) = false
        /\ existsb (fun k => Khuwani.id k =? ic_khuwaniId data)
             (khuwanies d) = true
        /\ Sql.insert_claim data d
           = (Ok row, set_claims (claims d ++ [row]) (nextval_claims d))).
Proof.
  unfold Sql.insert_claim, Pg.bound; cbn [Pg.int4].
  destruct (in_int4 (ic_khuwaniId data)) eqn:Ek;
    [|left; destruct (Z.abs _ <? _); eexists; reflexivity].
  destruct (in_int4 (ic_quranNumber data)) eqn:Eq;
    [|left; destruct (Z.abs _ <? _); eexists; reflexivity].
  destruct (in_int4 (ic_siparaNumber data)) eqn:Es;
    [|left; destruct (Z.abs _ <? _); eexists; reflexivity].
  destruct (Pg.text (ic_participantName data)) as [name|e] eqn:En;
    [|left; eexists; reflexivity].
  destruct (Z.ltb_spec int4_max (claims_id_seq d));
    [left; eexists; reflexivity|].
  destruct (existsb _ (claims d)) eqn:Eu;
    [right; left; split; [assumption | eexists; reflexivity]|].
  destruct (existsb _ (khuwanies d)) eqn:Ef; cbn [negb];
    [|right; left; split; [assumption | eexists; reflexivity]].
  right; right; exists name; cbv zeta; auto 10.
Qed.

(** The three ways, as cases of a proof about the database an insert
    leaves. *)
Ltac by_outcome :=
  match goal with
  | |- context [Sql.insert_organizer ?data ?d] =>
      destruct (insert_organizer_outcome data d)
        as [[Oerr ->]|[[Oseq [Oerr ->]]|(Oseq & Ouniq & ->)]]
  | |- context [Sql.insert_khuwani ?data ?d] =>
      destruct (insert_khuwani_outcome data d)
        as [[Oerr ->]|[[Oseq [Oerr ->]]
                      |(Oslug & Oname & Oseq & Oorg & Otslug & Otname & Onum
                        & Ouniq & Ofk & ->)]]
  | |- context [Sql.insert_claim ?data ?d] =>
      destruct (insert_claim_outcome data d)
        as [[Oerr ->]|[[Oseq [Oerr ->]]
                      |(Oname & Oseq & Okid & Oq & Os & Otname & Ofree & Ofk
                        & ->)]]
  end; cbn [snd fst].

(* ===================================================================== *)
(** * Invariants of the reachable databases                               *)
(* ===================================================================== *)

Lemma exec_unique_claim (s : Stmt) (d : DB) :
  unique_claim d -> unique_claim (exec s d).
Proof.
  unfold unique_claim; destruct s; cbn [exec]; intros H.
  - by_outcome; exact H.
  - by_outcome; exact H.
  - by_outcome; try exact H.
    cbn [claims set_claims]; apply NoDup_map_snoc; [exact H|].
    intros Hin; apply taken_iff in Hin.
    change (taken d (slot_of_insert data) = true) in Hin.
    rewrite Hin in Ofree; discriminate.
  - cbn; apply NoDup_map_filter; exact H.
  - cbn; apply NoDup_map_filter; exact H.
  - unfold Sql.increment_num_qurans; destruct (forallb _ _); exact H.
Qed.

Lemma reachable_unique_claim (d : DB) : reachable d -> unique_claim d.
Proof.
  induction 1 as [|s d _ IH]; [constructor | apply exec_unique_claim, IH].
Qed.

Lemma Forall_filter {A} (P : A -> Prop) (p : A -> bool) (l : list A) :
  Forall P l -> Forall P (filter p l).
Proof.
  rewrite !Forall_forall; intros H x Hx; apply filter_In in Hx; apply H; tauto.
Qed.

Lemma exec_khuwanies_pkey (s : Stmt) (d : DB) :
  khuwanies_pkey d -> khuwanies_pkey (exec s d).
Proof.
  unfold khuwanies_pkey; destruct s; cbn [exec]; intros [Hnd Hlt].
  - by_outcome; split; assumption.
  - assert (Hweak : Forall (fun k => Khuwani.id k < khuwanies_id_seq d + 1)
                      (khuwanies d)).
    { eapply Forall_impl; [|exact Hlt]; cbn beta; intros; lia. }
    by_outcome; [split; assumption | split; assumption |].
    cbn [khuwanies set_khuwanies khuwanies_id_seq nextval_khuwanies]; split.
    + apply NoDup_map_snoc; [exact Hnd|]; cbn [Khuwani.id].
      intros Hin; apply in_map_iff in Hin; destruct Hin as [k [Hk Hin]].
      rewrite Forall_forall in Hlt; specialize (Hlt k Hin); lia.
    + apply Forall_app; split; [exact Hweak|].
      repeat constructor; cbn [Khuwani.id]; lia.
  - by_outcome; split; assumption.
  - split; assumption.
  - split; cbn.
    + apply NoDup_map_filter; exact Hnd.
    + apply Forall_filter; exact Hlt.
  - unfold Sql.increment_num_qurans; destruct (forallb _ _);
      [|split; assumption].
    split; cbn.
    + rewrite map_id_bump; exact Hnd.
    + rewrite Forall_forall in *; intros k Hk.
      apply in_map_iff in Hk; destruct Hk as [k0 [<- Hk0]].
      specialize (Hlt k0 Hk0); unfold Sql.bump.
      destruct (Khuwani.id k0 =? i); cbn; exact Hlt.
Qed.

Lemma reachable_khuwanies_pkey (d : DB) : reachable d -> khuwanies_pkey d.
Proof.
  induction 1 as [|s d _ IH]; [|apply exec_khuwanies_pkey, IH].
  split; constructor.
Qed.

Lemma exec_numQurans_int4 (s : Stmt) (d : DB) :
  numQurans_int4 d -> numQurans_int4 (exec s d).
Proof.
  unfold numQurans_int4; destruct s; cbn [exec]; intros H.
  - by_outcome; exact H.
  - by_outcome; try exact H.
    cbn [khuwanies set_khuwanies]; apply Forall_app; split; [exact H|].
    repeat constructor; exact Onum.
  - by_outcome; exact H.
  - exact H.
  - cbn; apply Forall_filter; exact H.
  - unfold Sql.increment_num_qurans.
    destruct (forallb _ _) eqn:E; [|exact H]; cbn.
    rewrite forallb_forall in E; rewrite Forall_forall in *.
    intros k Hk; apply in_map_iff in Hk; destruct Hk as [k0 [<- Hk0]].
    specialize (H k0 Hk0); specialize (E k0 Hk0); unfold Sql.bump.
    destruct (Khuwani.id k0 =? i); cbn in *; auto.
Qed.

Lemma reachable_numQurans_int4 (d : DB) : reachable d -> numQurans_int4 d.
Proof.
  induction 1 as [|s d _ IH]; [constructor | apply exec_numQurans_int4, IH].
Qed.

(** The other keys the schema declares unique, and the foreign key. *)
Lemma existsb_false_not_in {Row Key : Type} (key : Row -> Key)
    (same : Key -> Key -> bool) (rows : list Row) (v : Key) :
  (forall a b, same a b = true <-> a = b) ->
  existsb (fun r => same (key r) v) rows = false ->
  ~ In v (map key rows).
Proof.
  intros Hsame Hnone Hin.
  apply in_map_iff in Hin; destruct Hin as [r [Hkey Hr]].
  assert (existsb (fun r => same (key r) v) rows = true); [|congruence].
  apply existsb_exists; exists r; split; [exact Hr|].
  apply Hsame; exact Hkey.
Qed.

Lemma exec_slugs_unique (s : Stmt) (d : DB) :
  slugs_unique d -> slugs_unique (exec s d).
Proof.
  unfold slugs_unique; destruct s; cbn [exec]; intros H.
  - by_outcome; exact H.
  - by_outcome; try exact H.
    cbn [khuwanies set_khuwanies]; apply NoDup_map_snoc; [exact H|].
    exact (existsb_false_not_in Khuwani.slug Js.eqb _ _ Js_eqb_eq Ouniq).
  - by_outcome; exact H.
  - exact H.
  - cbn; apply NoDup_map_filter; exact H.
  - unfold Sql.increment_num_qurans; destruct (forallb _ _); [|exact H].
    cbn; rewrite map_map.
    erewrite map_ext; [exact H|].
    intros k; unfold Sql.bump; destruct (Khuwani.id k =? i); reflexivity.
Qed.

Lemma reachable_slugs_unique (d : DB) : reachable d -> slugs_unique d.
Proof.
  induction 1 as [|s d _ IH]; [constructor | apply exec_slugs_unique, IH].
Qed.

Lemma exec_emails_unique (s : Stmt) (d : DB) :
  emails_unique d -> emails_unique (exec s d).
Proof.
  unfold emails_unique; destruct s; cbn [exec]; intros H.
  - by_outcome; try exact H.
    cbn [organizers set_organizers]; apply NoDup_map_snoc; [exact H|].
    exact (existsb_false_not_in Organizer.email Js.eqb _ _ Js_eqb_eq Ouniq).
  - by_outcome; exact H.
  - by_outcome; exact H.
  - exact H.
  - exact H.
  - unfold Sql.increment_num_qurans; destruct (forallb _ _); exact H.
Qed.

Lemma reachable_emails_unique (d : DB) : reachable d -> emails_unique d.
Proof.
  induction 1 as [|s d _ IH]; [constructor | apply exec_emails_unique, IH].
Qed.

Lemma exec_organizers_pkey (s : Stmt) (d : DB) :
  organizers_pkey d -> organizers_pkey (exec s d).
Proof.
  unfold organizers_pkey; destruct s; cbn [exec]; intros (Hnd & Hids & Hseq).
  - assert (Hweak : Forall (fun o => 1 <= Organizer.id o
                                     < organizers_id_seq d + 1)
                      (organizers d)).
    { eapply Forall_impl; [|exact Hids]; cbn beta; intros; lia. }
    by_outcome;
      cbn [organizers set_organizers organizers_id_seq nextval_organizers].
    + exact (conj Hnd (conj Hids Hseq)).
    + refine (conj Hnd (conj Hweak _)); lia.
    + refine (conj _ (conj _ _)); [| |lia].
      * apply NoDup_map_snoc; [exact Hnd|]; cbn [Organizer.id].
        intros Hin; apply in_map_iff in Hin; destruct Hin as [o [Ho Hin]].
        rewrite Forall_forall in Hids; specialize (Hids o Hin); lia.
      * apply Forall_app; split; [exact Hweak|].
        repeat constructor; cbn [Organizer.id]; lia.
  - by_outcome; exact (conj Hnd (conj Hids Hseq)).
  - by_outcome; exact (conj Hnd (conj Hids Hseq)).
  - exact (conj Hnd (conj Hids Hseq)).
  - exact (conj Hnd (conj Hids Hseq)).
  - unfold Sql.increment_num_qurans; destruct (forallb _ _);
      exact (conj Hnd (conj Hids Hseq)).
Qed.

Lemma reachable_organizers_pkey (d : DB) : reachable d -> organizers_pkey d.
Proof.
  induction 1 as [|s d _ IH]; [|apply exec_organizers_pkey, IH].
  unfold organizers_pkey; cbn; refine (conj _ (conj _ _));
    try constructor; lia.
Qed.

Lemma exec_claims_reference_sessions (s : Stmt) (d : DB) :
  claims_reference_sessions d -> claims_reference_sessions (exec s d).
Proof.
  unfold claims_reference_sessions; destruct s; cbn [exec]; intros H.
  - by_outcome; exact H.
  - by_outcome; try exact H.
    cbn [khuwanies claims set_khuwanies nextval_khuwanies].
    eapply Forall_impl; [|exact H]; cbn beta.
    intros c Hc; rewrite map_app; apply in_or_app; left; exact Hc.
  - by_outcome; try exact H.
    cbn [khuwanies claims set_claims nextval_claims].
    apply Forall_app; split; [exact H|].
    repeat constructor; cbn [Claim.khuwaniId].
    apply existsb_exists in Ofk; destruct Ofk as [k [Hk Hid]].
    apply Z.eqb_eq in Hid; rewrite <- Hid; apply in_map; exact Hk.
  - cbn; apply Forall_filter; exact H.
  - cbn; rewrite Forall_forall in *; intros c Hc.
    apply filter_In in Hc; destruct Hc as [Hc Hne].
    apply negb_true_iff, Z.eqb_neq in Hne.
    specialize (H c Hc); apply in_map_iff in H; destruct H as [k [Hid Hk]].
    apply in_map_iff; exists k; split; [exact Hid|].
    apply filter_In; split; [exact Hk|].
    apply negb_true_iff, Z.eqb_neq; congruence.
  - unfold Sql.increment_num_qurans; destruct (forallb _ _); [|exact H].
    cbn; rewrite map_id_bump; exact H.
Qed.

Lemma reachable_claims_reference_sessions (d : DB) :
  reachable d -> claims_reference_sessions d.
Proof.
  induction 1 as [|s d _ IH];
    [constructor | apply exec_claims_reference_sessions, IH].
Qed.

(** The strings in the tables are text. *)
Lemma exec_stored_text (s : Stmt) (d : DB) :
  stored_text d -> stored_text (exec s d).
Proof.
  unfold stored_text; destruct s; cbn [exec]; intros [Hk Hc].
  - by_outcome; split; assumption.
  - by_outcome; [split; assumption | split; assumption |].
    split; [|exact Hc].
    cbn [khuwanies set_khuwanies]; apply Forall_app; split; [exact Hk|].
    repeat constructor; cbn [Khuwani.slug Khuwani.marhoomName];
      eapply text_is_text; eassumption.
  - by_outcome; [split; assumption | split; assumption |].
    split; [exact Hk|].
    cbn [claims set_claims]; apply Forall_app; split; [exact Hc|].
    repeat constructor; cbn [Claim.participantName].
    eapply text_is_text; eassumption.
  - split; [exact Hk | cbn; apply Forall_filter; exact Hc].
  - split; cbn; apply Forall_filter; assumption.
  - unfold Sql.increment_num_qurans; destruct (forallb _ _);
      [|split; assumption].
    split; [|exact Hc]; cbn.
    rewrite Forall_forall in *; intros k Hin.
    apply in_map_iff in Hin; destruct Hin as [k0 [<- Hin]].
    specialize (Hk k0 Hin); unfold Sql.bump.
    destruct (Khuwani.id k0 =? i); exact Hk.
Qed.

Lemma reachable_stored_text (d : DB) : reachable d -> stored_text d.
Proof.
  induction 1 as [|s d _ IH]; [|apply exec_stored_text, IH].
  split; constructor.
Qed.

(** The ids and the other [integer] columns are [int4]s. *)
Lemma exec_serial_ids (s : Stmt) (d : DB) :
  serial_ids d -> serial_ids (exec s d).
Proof.
  unfold serial_ids; destruct s; cbn [exec];
    intros (Ho & Hk & Hc & Hos & Hks & Hcs).
  - by_outcome;
      cbn [organizers_id_seq khuwanies_id_seq claims_id_seq organizers
           khuwanies claims nextval_organizers set_organizers];
      refine (conj _ (conj Hk (conj Hc (conj _ (conj Hks Hcs)))));
      try assumption; try lia.
    apply Forall_app; split; [exact Hos|].
    repeat constructor; cbn [Organizer.id]; lia.
  - by_outcome;
      cbn [organizers_id_seq khuwanies_id_seq claims_id_seq organizers
           khuwanies claims nextval_khuwanies set_khuwanies];
      refine (conj Ho (conj _ (conj Hc (conj Hos (conj _ Hcs)))));
      try assumption; try lia.
    apply Forall_app; split; [exact Hks|].
    repeat constructor; cbn [Khuwani.id]; lia.
  - by_outcome;
      cbn [organizers_id_seq khuwanies_id_seq claims_id_seq organizers
           khuwanies claims nextval_claims set_claims];
      refine (conj Ho (conj Hk (conj _ (conj Hos (conj Hks _)))));
      try assumption; try lia.
    apply Forall_app; split; [exact Hcs|].
    repeat constructor; assumption.
  - refine (conj Ho (conj Hk (conj Hc (conj Hos (conj Hks _))))).
    cbn [Sql.delete_claims snd claims set_claims].
    apply Forall_filter; exact Hcs.
  - refine (conj Ho (conj Hk (conj Hc (conj Hos (conj _ _)))));
      cbn [Sql.delete_khuwani_row khuwanies claims set_khuwanies set_claims];
      apply Forall_filter; assumption.
  - unfold Sql.increment_num_qurans; destruct (forallb _ _);
      [|exact (conj Ho (conj Hk (conj Hc (conj Hos (conj Hks Hcs)))))].
    refine (conj Ho (conj Hk (conj Hc (conj Hos (conj _ Hcs))))).
    cbn [snd khuwanies set_khuwanies].
    rewrite Forall_forall in *; intros k Hin.
    apply in_map_iff in Hin; destruct Hin as [k0 [<- Hin]].
    specialize (Hks k0 Hin); unfold Sql.bump.
    destruct (Khuwani.id k0 =? i); cbn [Khuwani.id]; exact Hks.
Qed.

Lemma reachable_serial_ids (d : DB) : reachable d -> serial_ids d.
Proof.
  induction 1 as [|s d _ IH]; [|apply exec_serial_ids, IH].
  unfold serial_ids, int4_max, empty_db;
    cbn [organizers_id_seq khuwanies_id_seq claims_id_seq organizers
         khuwanies claims].
  refine (conj _ (conj _ (conj _ (conj _ (conj _ _))))); try constructor; lia.
Qed.

(** A stored session is found by its keys. *)
Lemma stored_session_keys (d : DB) (k : Khuwani.t) :
  reachable d -> In k (khuwanies d) ->
  in_int4 (Khuwani.id k) = true /\ is_text (Khuwani.slug k).
Proof.
  intros Hr Hin.
  destruct (reachable_serial_ids d Hr) as (_ & _ & _ & _ & Hks & _).
  destruct (reachable_stored_text d Hr) as [Hts _].
  rewrite Forall_forall in Hks, Hts.
  specialize (Hks k Hin); specialize (Hts k Hin).
  split; [|tauto].
  apply in_int4_iff; unfold int4_min; lia.
Qed.

(** ** The handlers stay within the reachable databases *)

Lemma stable_ret {A} (a : A) : stable (ret a).
Proof. intros w H; exact H. Qed.

Lemma stable_throw {A} (e : PgError) : stable (@throw A e).
Proof. intros w H; exact H. Qed.

Lemma stable_bind {A B} (m : M A) (f : A -> M B) :
  stable m -> (forall a, stable (f a)) -> stable (bind m f).
Proof.
  intros Hm Hf w H; unfold bind.
  specialize (Hm w H); destruct (m w) as [[a|e] w']; simpl in *; auto.
  apply Hf; exact Hm.
Qed.

Lemma stable_try_catch {A} (m : M A) (h : PgError -> M A) :
  stable m -> (forall e, stable (h e)) -> stable (try_catch m h).
Proof.
  intros Hm Hh w H; unfold try_catch.
  specialize (Hm w H); destruct (m w) as [[a|e] w']; simpl in *; auto.
  apply Hh; exact Hm.
Qed.

Lemma stable_call {A} (c : StorageCall) (stmt : DB -> Result A * DB) :
  (forall d, reachable d -> reachable (snd (stmt d))) -> stable (call c stmt).
Proof.
  intros Hs w H; unfold call.
  specialize (Hs (db w) H); destruct (stmt (db w)); exact Hs.
Qed.

Lemma bound_keeps {A B} (P : DB -> Prop) (p : A + PgError) (d : DB)
    (k : A -> Result B * DB) :
  P d -> (forall a, P (snd (k a))) -> P (snd (Pg.bound p d k)).
Proof. intros Hd Hk; destruct p as [a|e]; [apply Hk | exact Hd]. Qed.

Lemma reachable_bound {A B} (p : A + PgError) (d : DB)
    (k : A -> Result B * DB) :
  reachable d -> (forall a, reachable (snd (k a))) ->
  reachable (snd (Pg.bound p d k)).
Proof. apply bound_keeps. Qed.

Lemma stable_createClaim data : stable (Storage.createClaim data).
Proof.
  apply stable_call; intros d H; exact (reachable_exec (InsertClaimStmt data) d H).
Qed.

Lemma stable_deleteClaim k q s n : stable (Storage.deleteClaim k q s n).
Proof.
  apply stable_call; intros d H.
  repeat (apply reachable_bound; [exact H | intros ?]).
  match goal with
  | |- context [Sql.delete_claims ?p d] =>
      exact (reachable_exec (DeleteClaimsStmt p) d H)
  end.
Qed.

Lemma stable_deleteAllClaimsForKhuwani i :
  stable (Storage.deleteAllClaimsForKhuwani i).
Proof.
  apply stable_call; intros d H.
  apply reachable_bound; [exact H | intros a].
  exact (reachable_exec
           (DeleteClaimsStmt (fun c => Claim.khuwaniId c =? a)) d H).
Qed.

Lemma stable_deleteKhuwani i : stable (Storage.deleteKhuwani i).
Proof.
  apply stable_call; intros d H.
  apply reachable_bound; [exact H | intros a]; cbn [snd].
  apply (reachable_exec (DeleteKhuwaniRowStmt a)).
  exact (reachable_exec
           (DeleteClaimsStmt (fun c => Claim.khuwaniId c =? a)) d H).
Qed.

Lemma stable_incrementQurans i : stable (Storage.incrementQurans i).
Proof.
  apply stable_call; intros d H.
  apply reachable_bound; [exact H | intros a].
  exact (reachable_exec (IncrementNumQuransStmt a) d H).
Qed.

Lemma stable_getKhuwaniById i : stable (Storage.getKhuwaniById i).
Proof.
  apply stable_call; intros d H.
  apply reachable_bound; [exact H | intros a; exact H].
Qed.

Lemma stable_getKhuwaniBySlug s : stable (Storage.getKhuwaniBySlug s).
Proof.
  apply stable_call; intros d H.
  apply reachable_bound; [exact H | intros a; exact H].
Qed.

Lemma stable_getOrganizerByEmail e : stable (Storage.getOrganizerByEmail e).
Proof. apply stable_call; intros d H; exact H. Qed.

Create HintDb stable_db.
#[local] Hint Resolve stable_ret stable_throw stable_createClaim
  stable_deleteClaim stable_deleteAllClaimsForKhuwani stable_deleteKhuwani
  stable_incrementQurans stable_getKhuwaniById stable_getKhuwaniBySlug
  stable_getOrganizerByEmail : stable_db.

Ltac stable_step :=
  first
    [ apply stable_try_catch; [|intros]
    | apply stable_bind; [|intros]
    | match goal with
      | |- stable (match ?x with _ => _ end) => destruct x
      | |- stable (requireAuth _ _) => unfold requireAuth
      end
    | solve [auto with stable_db] ].

Lemma stable_route_claim slug body : stable (route_claim slug body).
Proof. unfold route_claim; repeat stable_step. Qed.

Lemma stable_route_unclaim slug body : stable (route_unclaim slug body).
Proof. unfold route_unclaim; repeat stable_step. Qed.

Lemma stable_route_reset s id : stable (route_reset s id).
Proof. unfold route_reset; repeat stable_step. Qed.

Lemma stable_route_delete s id : stable (route_delete s id).
Proof. unfold route_delete; repeat stable_step. Qed.

Lemma stable_route_add_quran s id : stable (route_add_quran s id).
Proof. unfold route_add_quran; repeat stable_step. Qed.

(* ===================================================================== *)
(** * Running the storage calls                                           *)
(* ===================================================================== *)


(** What the look-up helpers say of the row they give. *)
Lemma khuwani_by_id_some (d : DB) (id : Z) (k : Khuwani.t) :
  khuwani_by_id d id = Some k ->
  in_int4 id = true /\ In k (khuwanies d) /\ Khuwani.id k = id.
Proof.
  unfold khuwani_by_id; destruct (in_int4 id); [|discriminate].
  intros H; apply find_some in H; rewrite Z.eqb_eq in H; tauto.
Qed.

Lemma khuwani_by_slug_some (d : DB) (slug : Js.str) (k : Khuwani.t) :
  khuwani_by_slug d slug = Some k ->
  ~ has_nul slug /\ In k (khuwanies d)
  /\ Khuwani.slug k = Js.toWellFormed slug.
Proof.
  unfold khuwani_by_slug; destruct (Pg.text slug) as [t|e] eqn:E;
    [|discriminate].
  apply text_inl in E; destruct E as [Hn ->].
  intros H; apply find_some in H; rewrite Js_eqb_eq in H; tauto.
Qed.

(** The two look-ups of a session, run. *)
Lemma getKhuwaniById_run (id : Z) (w : World) :
  in_int4 id = true ->
  Storage.getKhuwaniById id w
  = (Ok (khuwani_by_id (db w) id),
     {| db := db w; trace := trace w ++ [GetKhuwaniById id] |}).
Proof.
  intros H; unfold Storage.getKhuwaniById, call, Pg.bound, khuwani_by_id.
  rewrite (int4_accepts id H), H; reflexivity.
Qed.

Lemma getKhuwaniById_refused (id : JsNumber) (e : PgError) (w : World) :
  Pg.int4 id = inr e ->
  Storage.getKhuwaniById id w
  = (Throw e, {| db := db w; trace := trace w ++ [GetKhuwaniById id] |}).
Proof.
  intros H; unfold Storage.getKhuwaniById, call, Pg.bound.
  rewrite H; reflexivity.
Qed.

Lemma getKhuwaniBySlug_run (slug : Js.str) (w : World) :
  ~ has_nul slug ->
  Storage.getKhuwaniBySlug slug w
  = (Ok (khuwani_by_slug (db w) slug),
     {| db := db w; trace := trace w ++ [GetKhuwaniBySlug slug] |}).
Proof.
  intros H; unfold Storage.getKhuwaniBySlug, call, Pg.bound, khuwani_by_slug.
  rewrite (text_accepts slug H); reflexivity.
Qed.

Lemma getKhuwaniBySlug_refused (slug : Js.str) (w : World) :
  has_nul slug ->
  Storage.getKhuwaniBySlug slug w
  = (Throw character_not_in_repertoire,
     {| db := db w; trace := trace w ++ [GetKhuwaniBySlug slug] |}).
Proof.
  intros H; unfold Storage.getKhuwaniBySlug, call, Pg.bound.
  rewrite (text_refuses slug H); reflexivity.
Qed.

Lemma getKhuwaniBySlug_found (slug : Js.str) (k : Khuwani.t) (w : World) :
  khuwani_by_slug (db w) slug = Some k ->
  Storage.getKhuwaniBySlug slug w
  = (Ok (Some k),
     {| db := db w; trace := trace w ++ [GetKhuwaniBySlug slug] |}).
Proof.
  intros H; rewrite getKhuwaniBySlug_run, H; [reflexivity|].
  apply khuwani_by_slug_some in H; tauto.
Qed.

Lemma getKhuwaniById_found (id : Z) (k : Khuwani.t) (w : World) :
  khuwani_by_id (db w) id = Some k ->
  Storage.getKhuwaniById id w
  = (Ok (Some k),
     {| db := db w; trace := trace w ++ [GetKhuwaniById id] |}).
Proof.
  intros H; rewrite getKhuwaniById_run, H; [reflexivity|].
  apply khuwani_by_id_some in H; tauto.
Qed.

(** In a reachable database a stored session is what the look-ups by its
    own keys return. *)
Lemma stored_session_found (d : DB) (k : Khuwani.t) :
  reachable d -> In k (khuwanies d) ->
  khuwani_by_id d (Khuwani.id k) = Some k
  /\ khuwani_by_slug d (Khuwani.slug k) = Some k.
Proof.
  intros Hr Hin.
  destruct (stored_session_keys d k Hr Hin) as [Hid Hslug].
  split.
  - unfold khuwani_by_id; rewrite Hid.
    destruct (find _ (khuwanies d)) as [x|] eqn:E.
    + apply find_some in E; destruct E as [Hx E]; apply Z.eqb_eq in E.
      f_equal; apply (NoDup_map_inj_in Khuwani.id (khuwanies d)); auto.
      exact (proj1 (reachable_khuwanies_pkey d Hr)).
    + apply (find_none _ _ E) in Hin; rewrite Z.eqb_refl in Hin.
      discriminate.
  - unfold khuwani_by_slug; rewrite Hslug.
    destruct (find _ (khuwanies d)) as [x|] eqn:E.
    + apply find_some in E; destruct E as [Hx E]; apply Js_eqb_eq in E.
      f_equal; apply (NoDup_map_inj_in Khuwani.slug (khuwanies d)); auto.
      exact (reachable_slugs_unique d Hr).
    + apply (find_none _ _ E) in Hin; rewrite Js_eqb_refl in Hin.
      discriminate.
Qed.

(** What [claimBodySchema] lets through. *)
Lemma claimBodySchema_inl (body : ClaimBody) (data : ClaimData) :
  claimBodySchema body = inl data ->
  body_quranNumber body = JNumber (JInt (quranNumber data))
  /\ body_siparaNumber body = JNumber (JInt (siparaNumber data))
  /\ 1 <= quranNumber data
  /\ 1 <= siparaNumber data <= 30
  /\ exists sent,
       body_participantName body = JString sent
       /\ participantName data = Js.trim sent
       /\ 1 <= Z.of_nat (List.length sent) <= 100.
Proof.
  unfold claimBodySchema, Zod.number_int_min_max, Zod.string_min_max_trim.
  destruct (body_quranNumber body) as [| | |[q|]|s|]; try discriminate.
  destruct (Z.ltb_spec q 1); try discriminate.
  destruct (body_siparaNumber body) as [| | |[sp|]|s|]; try discriminate.
  destruct (Z.ltb_spec sp 1); try discriminate.
  destruct (Z.ltb_spec 30 sp); try discriminate.
  destruct (body_participantName body) as [| | | |sent|]; try discriminate.
  destruct (Z.ltb_spec (Z.of_nat (List.length sent)) 1); try discriminate.
  destruct (Z.ltb_spec 100 (Z.of_nat (List.length sent))); try discriminate.
  intros Heq; inversion Heq; subst; simpl.
  repeat split; try lia.
  exists sent; repeat split; lia.
Qed.

(** [insert into claims] with a parameter the engine refuses. *)
Lemma insert_claim_nul (data : InsertClaim) (d : DB) :
  in_int4 (ic_khuwaniId data) = true ->
  in_int4 (ic_quranNumber data) = true ->
  in_int4 (ic_siparaNumber data) = true ->
  has_nul (ic_participantName data) ->
  Sql.insert_claim data d = (Throw character_not_in_repertoire, d).
Proof.
  intros Hk Hq Hs Hn; unfold Sql.insert_claim, Pg.bound.
  rewrite (int4_accepts _ Hk), (int4_accepts _ Hq), (int4_accepts _ Hs).
  rewrite (text_refuses _ Hn); reflexivity.
Qed.

(** [insert into claims] when the sequence is exhausted. *)
Lemma insert_claim_exhausted (data : InsertClaim) (d : DB) :
  int4_max < claims_id_seq d ->
  exists e, e <> unique_violation /\ Sql.insert_claim data d = (Throw e, d).
Proof.
  intros Hseq; unfold Sql.insert_claim, Pg.bound; cbn [Pg.int4].
  destruct (in_int4 (ic_khuwaniId data));
    [|destruct (Z.abs _ <? _);
      (eexists; split; [|reflexivity]; discriminate)].
  destruct (in_int4 (ic_quranNumber data));
    [|destruct (Z.abs _ <? _);
      (eexists; split; [|reflexivity]; discriminate)].
  destruct (in_int4 (ic_siparaNumber data));
    [|destruct (Z.abs _ <? _);
      (eexists; split; [|reflexivity]; discriminate)].
  destruct (Pg.text (ic_participantName data)) as [name|e] eqn:E.
  - destruct (Z.ltb_spec int4_max (claims_id_seq d)); [|lia].
    eexists; (split; [|reflexivity]); discriminate.
  - exists e; split; [|reflexivity].
    unfold Pg.text in E; destruct (existsb _ _); inversion E; discriminate.
Qed.

(** [insert into claims] on a slot that holds a claim. *)
Lemma insert_claim_taken (data : InsertClaim) (d : DB) :
  in_int4 (ic_khuwaniId data) = true ->
  in_int4 (ic_quranNumber data) = true ->
  in_int4 (ic_siparaNumber data) = true ->
  ~ has_nul (ic_participantName data) ->
  claims_id_seq d <= int4_max ->
  taken d (ic_khuwaniId data, ic_quranNumber data, ic_siparaNumber data) = true ->
  Sql.insert_claim data d = (Throw unique_violation, nextval_claims d).
Proof.
  intros Hk Hq Hs Hn Hseq Ht; unfold Sql.insert_claim, Pg.bound.
  rewrite (int4_accepts _ Hk), (int4_accepts _ Hq), (int4_accepts _ Hs).
  rewrite (text_accepts _ Hn).
  destruct (Z.ltb_spec int4_max (claims_id_seq d)); [lia|].
  change (existsb _ (claims d))
    with (taken d (ic_khuwaniId data, ic_quranNumber data,
                   ic_siparaNumber data)).
  rewrite Ht; reflexivity.
Qed.

(** [insert into claims] on a free slot of a stored session. *)
Lemma insert_claim_free (data : InsertClaim) (d : DB) :
  in_int4 (ic_khuwaniId data) = true ->
  in_int4 (ic_quranNumber data) = true ->
  in_int4 (ic_siparaNumber data) = true ->
  ~ has_nul (ic_participantName data) ->
  claims_id_seq d <= int4_max ->
  taken d (ic_khuwaniId data, ic_quranNumber data, ic_siparaNumber data) = false ->
  existsb (fun k => Khuwani.id k =? ic_khuwaniId data) (khuwanies d) = true ->
  let row := Claim.mk (claims_id_seq d) (ic_khuwaniId data)
               (ic_quranNumber data) (ic_siparaNumber data)
               (Js.toWellFormed (ic_participantName data)) in
  Sql.insert_claim data d
  = (Ok row, set_claims (claims d ++ [row]) (nextval_claims d)).
Proof.
  intros Hk Hq Hs Hn Hseq Ht Hfk; unfold Sql.insert_claim, Pg.bound.
  rewrite (int4_accepts _ Hk), (int4_accepts _ Hq), (int4_accepts _ Hs).
  rewrite (text_accepts _ Hn).
  destruct (Z.ltb_spec int4_max (claims_id_seq d)); [lia|].
  change (existsb _ (claims d))
    with (taken d (ic_khuwaniId data, ic_quranNumber data,
                   ic_siparaNumber data)).
  rewrite Ht, Hfk; reflexivity.
Qed.

(** The numbers of a parsed body fit the columns once the copy is one of
    the session's. *)
Lemma parsed_slot_in_int4 (d : DB) (k : Khuwani.t) (body : ClaimBody)
    (data : ClaimData) :
  numQurans_int4 d -> In k (khuwanies d) ->
  claimBodySchema body = inl data ->
  quranNumber data <= Khuwani.numQurans k ->
  in_int4 (quranNumber data) = true /\ in_int4 (siparaNumber data) = true.
Proof.
  intros Hint Hin Hp Hle.
  apply claimBodySchema_inl in Hp; destruct Hp as (_ & _ & Hq & Hs & _).
  unfold numQurans_int4 in Hint; rewrite Forall_forall in Hint.
  specialize (Hint k Hin); apply in_int4_iff in Hint.
  split; apply in_int4_iff; unfold int4_min, int4_max in *; lia.
Qed.

Lemma parsed_sipara_in_int4 (body : ClaimBody) (data : ClaimData) :
  claimBodySchema body = inl data -> in_int4 (siparaNumber data) = true.
Proof.
  intros Hp; apply claimBodySchema_inl in Hp.
  destruct Hp as (_ & _ & _ & Hs & _).
  apply in_int4_iff; unfold int4_min, int4_max; lia.
Qed.

(* ===================================================================== *)
(** * Claims of the specification                                        *)
(* ===================================================================== *)

Lemma taken_snoc (d d' : DB) (row : Claim.t) (sl : slot) :
  claims d' = claims d ++ [row] -> slot_of row = sl -> taken d' sl = true.
Proof.
  intros Hc Hs; apply taken_iff; rewrite Hc, map_app.
  apply in_or_app; right; left; exact Hs.
Qed.

(** Inserts on a slot that holds a claim are all rejected. *)
Lemma insert_claims_taken (ds : list InsertClaim) (d : DB) (sl : slot) :
  Forall (bindable sl) ds ->
  claims_id_seq d + Z.of_nat (List.length ds) <= int4_max + 1 ->
  taken d sl = true ->
  fst (insert_claims ds d) = map (fun _ => Throw unique_violation) ds.
Proof.
  revert d; induction ds as [|data ds IH]; intros d Hall Hseq Ht;
    [reflexivity|].
  inversion Hall as [|? ? (Hsl & Hk & Hq & Hs & Hn) Hrest]; subst.
  cbn [insert_claims map List.length] in *.
  rewrite (insert_claim_taken data d Hk Hq Hs Hn) by (exact Ht || lia).
  assert (Hseq' : claims_id_seq (nextval_claims d)
                  + Z.of_nat (List.length ds) <= int4_max + 1)
    by (cbn [claims_id_seq nextval_claims]; lia).
  specialize (IH (nextval_claims d) Hrest Hseq' Ht).
  destruct (insert_claims ds (nextval_claims d)) as [rs d2].
  cbn [fst] in *; rewrite IH; reflexivity.
Qed.

(** Of the inserts on a free slot of a stored session, the first is
    accepted and the others are rejected. *)
Lemma insert_claims_free (data : InsertClaim) (ds : list InsertClaim)
    (d : DB) (sl : slot) :
  Forall (bindable sl) (data :: ds) ->
  claims_id_seq d + Z.of_nat (List.length (data :: ds)) <= int4_max + 1 ->
  existsb (fun k => Khuwani.id k =? ic_khuwaniId data) (khuwanies d) = true ->
  taken d sl = false ->
  fst (insert_claims (data :: ds) d)
  = Ok (Claim.mk (claims_id_seq d) (ic_khuwaniId data) (ic_quranNumber data)
          (ic_siparaNumber data) (Js.toWellFormed (ic_participantName data)))
    :: map (fun _ => Throw unique_violation) ds.
Proof.
  intros Hall Hseq Hfk Hfree.
  inversion Hall as [|? ? (Hsl & Hk & Hq & Hs & Hn) Hrest]; subst.
  cbn [insert_claims List.length] in *.
  rewrite (insert_claim_free data d Hk Hq Hs Hn) by (assumption || lia).
  match goal with
  | |- context [insert_claims ds ?d1] =>
      pose proof (insert_claims_taken ds d1 (slot_of_insert data) Hrest) as Ht;
      destruct (insert_claims ds d1) as [rs d2]
  end.
  cbn [fst] in *; rewrite Ht; [reflexivity| |].
  - cbn [claims_id_seq set_claims nextval_claims]; lia.
  - eapply taken_snoc; [reflexivity|]; reflexivity.
Qed.

(** The claim handler on a slot of a stored session, up to the insert. *)
Lemma route_claim_insert (d : DB) (slug : Js.str) (body : ClaimBody)
    (k : Khuwani.t) (data : ClaimData) :
  khuwani_by_slug d slug = Some k ->
  claimBodySchema body = inl data ->
  quranNumber data <= Khuwani.numQurans k ->
  let insert := {| ic_khuwaniId := Khuwani.id k;
                   ic_quranNumber := quranNumber data;
                   ic_siparaNumber := siparaNumber data;
                   ic_participantName := participantName data |} in
  run (route_claim slug body) d
  = (match fst (Sql.insert_claim insert d) with
     | Ok claim => Ok {| status := 200; payload := ClaimCreated claim |}
     | Throw (Pg code) =>
         if String.eqb code "23505"
         then Ok (fail 409 slot_taken_message)
         else Ok (fail 500 "Failed to claim sipara")
     end,
     {| db := snd (Sql.insert_claim insert d);
        trace := [GetKhuwaniBySlug slug; CreateClaim insert] |}).
Proof.
  intros Hk Hp Hle insert.
  unfold run, route_claim, try_catch, bind.
  rewrite (getKhuwaniBySlug_found slug k) by exact Hk.
  rewrite Hp.
  destruct (Z.ltb_spec (Khuwani.numQurans k) (quranNumber data)); [lia|].
  fold insert; unfold Storage.createClaim, call; cbn [db trace app].
  destruct (Sql.insert_claim insert d) as [[claim|[code]] d'];
    cbn [fst snd ret]; [reflexivity|].
  destruct (String.eqb code "23505"); reflexivity.
Qed.

(** C1, as the code has it.  In every reachable database no two claims
    have the same (session, copy, sipara).  A claim request that passes
    validation and names a slot of the session that already holds a claim
    never stores a second claim; the handler reads no claim beforehand: its
    storage calls are the look-up of the session and the insert.  The
    answer is 409 with the "choose another" message, from the insert's
    SQLSTATE 23505, when the name holds no U+0000 and the id sequence of
    [claims] is not exhausted; a name with U+0000 fails to bind and an
    exhausted sequence fails before the constraint is tested, and the
    answer is then 500.  Of any number of inserts that reach the table for
    one free slot, in whatever order, with names without U+0000 and ids
    left in the sequence, the first is accepted and every other one is
    rejected with 23505; on a slot that holds a claim all are rejected. *)
Theorem claim_unique_per_slot :
  (forall d, reachable d -> NoDup (map slot_of (claims d)))
  /\ (forall d slug body k data,
        reachable d ->
        khuwani_by_slug d slug = Some k ->
        claimBodySchema body = inl data ->
        quranNumber data <= Khuwani.numQurans k ->
        taken d (Khuwani.id k, quranNumber data, siparaNumber data) = true ->
        let insert :=
          {| ic_khuwaniId := Khuwani.id k;
             ic_quranNumber := quranNumber data;
             ic_siparaNumber := siparaNumber data;
             ic_participantName := participantName data |} in
        let out := run (route_claim slug body) d in
        claims (db (snd out)) = claims d
        /\ trace (snd out) = [GetKhuwaniBySlug slug; CreateClaim insert]
        /\ (~ has_nul (participantName data) ->
            claims_id_seq d <= int4_max ->
            fst out = Ok (fail 409 slot_taken_message)
            /\ fst (run (Storage.createClaim insert) d) = Throw (Pg "23505"))
        /\ (has_nul (participantName data) \/ int4_max < claims_id_seq d ->
            fst out = Ok (fail 500 "Failed to claim sipara")))
  /\ (forall d ds k q s,
        In k (khuwanies d) ->
        in_int4 (Khuwani.id k) = true ->
        in_int4 q = true -> in_int4 s = true ->
        Forall (fun data => slot_of_insert data = (Khuwani.id k, q, s)
                            /\ ~ has_nul (ic_participantName data)) ds ->
        claims_id_seq d + Z.of_nat (List.length ds) <= int4_max + 1 ->
        let outcomes := fst (insert_claims ds d) in
        (taken d (Khuwani.id k, q, s) = true ->
         outcomes = map (fun _ => Throw (Pg "23505")) ds)
        /\ (taken d (Khuwani.id k, q, s) = false ->
            match ds with
            | [] => outcomes = []
            | first :: others =>
                exists row,
                  outcomes = Ok row :: map (fun _ => Throw (Pg "23505")) others
                  /\ slot_of row = (Khuwani.id k, q, s)
                  /\ Claim.participantName row
                     = Js.toWellFormed (ic_participantName first)
            end)).
Proof.
  split; [exact reachable_unique_claim|].
  split.
  - intros d slug body k data Hr Hk Hp Hle Ht insert out.
    assert (Hin : In k (khuwanies d))
      by (apply khuwani_by_slug_some in Hk; tauto).
    destruct (parsed_slot_in_int4 d k body data
                (reachable_numQurans_int4 d Hr) Hin Hp Hle) as [Hq Hs].
    destruct (stored_session_keys d k Hr Hin) as [Hid _].
    pose proof (route_claim_insert d slug body k data Hk Hp Hle) as Hrun.
    cbv zeta in Hrun; fold insert in Hrun; fold out in Hrun.
    assert (Hsame : claims (db (snd out)) = claims d).
    { rewrite Hrun; cbn [snd db].
      destruct (insert_claim_outcome insert d)
        as [[e ->]|[[_ [e ->]]|(name & _ & _ & _ & _ & _ & Hfree & _)]];
        [reflexivity | reflexivity |].
      unfold slot_of_insert in Hfree; cbn in Hfree; congruence. }
    split; [exact Hsame|].
    split; [rewrite Hrun; reflexivity|].
    split.
    + intros Hn Hseq.
      pose proof (insert_claim_taken insert d Hid Hq Hs Hn Hseq Ht) as Hi.
      split.
      * rewrite Hrun, Hi; reflexivity.
      * unfold run, Storage.createClaim, call; cbn [db].
        rewrite Hi; reflexivity.
    + intros [Hn|Hseq].
      * rewrite Hrun, (insert_claim_nul insert d Hid Hq Hs Hn).
        reflexivity.
      * destruct (insert_claim_exhausted insert d Hseq) as [[code] [Hne Hi]].
        rewrite Hrun, Hi; cbn [fst snd db].
        destruct (String.eqb_spec code "23505") as [->|_];
          [exfalso; apply Hne; reflexivity|].
        reflexivity.
  - intros d ds k q s Hin Hid Hq Hs Hall Hseq outcomes.
    assert (Hall' : Forall (bindable (Khuwani.id k, q, s)) ds).
    { eapply Forall_impl; [|exact Hall]; cbn beta.
      intros data [Hsl Hn]; unfold bindable; split; [exact Hsl|].
      unfold slot_of_insert in Hsl; injection Hsl as E1 E2 E3.
      rewrite E1, E2, E3; auto. }
    split.
    + intros Ht; exact (insert_claims_taken ds d _ Hall' Hseq Ht).
    + intros Hfree; destruct ds as [|first others]; [reflexivity|].
      assert (Hsl : slot_of_insert first = (Khuwani.id k, q, s))
        by (inversion Hall; tauto).
      eexists; split; [|split].
      * apply (insert_claims_free first others d (Khuwani.id k, q, s));
          [exact Hall' | exact Hseq | | exact Hfree].
        apply existsb_exists; exists k; split; [exact Hin|].
        unfold slot_of_insert in Hsl; inversion Hsl; apply Z.eqb_refl.
      * exact Hsl.
      * reflexivity.
Qed.

Lemma reachable_demo_claimed : reachable Demo.claimed.
Proof.
  unfold Demo.claimed, Demo.fresh.
  repeat apply reachable_exec; apply reachable_empty.
Qed.

Lemma claim_unique_per_slot_witness :
  NoDup (map slot_of (claims Demo.claimed))
  /\ fst (run (route_claim Demo.slug (Demo.body 1 5 "Fatima")) Demo.claimed)
     = Ok (fail 409 slot_taken_message)
  /\ exists row,
       fst (insert_claims [Demo.fatima; Demo.bilal] Demo.fresh)
       = [Ok row; Throw (Pg "23505")].
Proof.
  destruct claim_unique_per_slot as (H1 & H2 & H3).
  split; [apply H1; exact reachable_demo_claimed|].
  split.
  - destruct (H2 Demo.claimed Demo.slug (Demo.body 1 5 "Fatima")
                (Khuwani.mk 1 1 Demo.slug (Js.lit "Haji Abdul Rehman") 1)
                {| quranNumber := 1; siparaNumber := 5;
                   participantName := Js.lit "Fatima" |}
                reachable_demo_claimed) as (_ & _ & H & _).
    + reflexivity.
    + reflexivity.
    + simpl; lia.
    + reflexivity.
    + apply H; [|vm_compute; discriminate].
      unfold has_nul; vm_compute; intuition discriminate.
  - destruct (H3 Demo.fresh [Demo.fatima; Demo.bilal]
                (Khuwani.mk 1 1 Demo.slug (Js.lit "Haji Abdul Rehman") 1)
                1 5) as [_ Hfree].
    + left; reflexivity.
    + reflexivity.
    + reflexivity.
    + reflexivity.
    + repeat constructor; unfold has_nul; vm_compute; intuition discriminate.
    + vm_compute; discriminate.
    + destruct (Hfree eq_refl) as [row [Hout _]].
      exists row; exact Hout.
Defined.

(** C1 as stated fails on a name with U+0000: the claim request for a slot
    that holds a claim passes validation, the insert fails to bind its
    parameter, and the answer is the 500 of a fault, not the 409 of a taken
    slot. *)
Lemma taken_slot_answered_500 :
  let body := {| body_quranNumber := JNumber (JInt 1);
                 body_siparaNumber := JNumber (JInt 5);
                 body_participantName := JString [97; 0; 98]%N |} in
  taken Demo.claimed (1, 1, 5) = true
  /\ claimBodySchema body
     = inl {| quranNumber := 1; siparaNumber := 5;
              participantName := [97; 0; 98]%N |}
  /\ fst (run (route_claim Demo.slug body) Demo.claimed)
     = Ok (fail 500 "Failed to claim sipara")
  /\ fst (run (route_claim Demo.slug body) Demo.claimed)
     <> Ok (fail 409 slot_taken_message).
Proof.
  cbv zeta; repeat split; try reflexivity.
  vm_compute; discriminate.
Qed.

(** The claim handler up to the look-up of the session. *)
Lemma route_claim_lookup (d : DB) (slug : Js.str) (body : ClaimBody) :
  ~ has_nul slug ->
  run (route_claim slug body) d
  = match khuwani_by_slug d slug with
    | None => (Ok (fail 404 "Khuwani not found"),
               {| db := d; trace := [GetKhuwaniBySlug slug] |})
    | Some k =>
        match claimBodySchema body with
        | inr issue =>
            (Ok {| status := 400; payload := Msg false (ZodMessage issue) |},
             {| db := d; trace := [GetKhuwaniBySlug slug] |})
        | inl data =>
            if Khuwani.numQurans k <? quranNumber data
            then (Ok (fail 400 "Invalid Quran number"),
                  {| db := d; trace := [GetKhuwaniBySlug slug] |})
            else run (route_claim slug body) d
        end
    end.
Proof.
  intros Hn.
  destruct (khuwani_by_slug d slug) as [k|] eqn:Hk.
  - destruct (claimBodySchema body) as [data|issue] eqn:Hp.
    + destruct (Khuwani.numQurans k <? quranNumber data) eqn:E;
        [|reflexivity].
      unfold run, route_claim, try_catch, bind.
      rewrite (getKhuwaniBySlug_found slug k) by exact Hk.
      rewrite Hp, E; reflexivity.
    + unfold run, route_claim, try_catch, bind.
      rewrite (getKhuwaniBySlug_found slug k) by exact Hk.
      rewrite Hp; reflexivity.
  - unfold run, route_claim, try_catch, bind.
    rewrite getKhuwaniBySlug_run by exact Hn.
    cbn [db]; rewrite Hk; reflexivity.
Qed.

(** C2, as the code has it.  A claim request for a slug without U+0000
    that no session has is answered 404; a slug with U+0000 fails the
    look-up and is answered 500.  On a session, a request whose copy number
    is above the session's count, or whose sipara number is outside 1..30,
    is answered 400, as is every body the schema refuses.  In each of these
    cases the only storage call made is the look-up of the session: no
    insert is attempted and the database is the one the request found. *)
Theorem claim_rejects_invalid (d : DB) (slug : Js.str) (body : ClaimBody) :
  let out := run (route_claim slug body) d in
  let untouched := {| db := d; trace := [GetKhuwaniBySlug slug] |} in
  (~ has_nul slug ->
   khuwani_by_slug d slug = None ->
   out = (Ok (fail 404 "Khuwani not found"), untouched))
  /\ (has_nul slug ->
      out = (Ok (fail 500 "Failed to claim sipara"), untouched))
  /\ (forall k q s,
        khuwani_by_slug d slug = Some k ->
        body_quranNumber body = JNumber (JInt q) ->
        body_siparaNumber body = JNumber (JInt s) ->
        Khuwani.numQurans k < q \/ s < 1 \/ 30 < s ->
        exists r, out = (Ok r, untouched) /\ status r = 400)
  /\ (forall k issue,
        khuwani_by_slug d slug = Some k ->
        claimBodySchema body = inr issue ->
        out = (Ok {| status := 400; payload := Msg false (ZodMessage issue) |},
               untouched))
  /\ (forall k data,
        khuwani_by_slug d slug = Some k ->
        claimBodySchema body = inl data ->
        Khuwani.numQurans k < quranNumber data ->
        out = (Ok (fail 400 "Invalid Quran number"), untouched)).
Proof.
  intros out untouched; subst out untouched.
  split; [intros Hn Hk; rewrite route_claim_lookup, Hk by exact Hn;
          reflexivity|].
  split.
  { intros Hn; unfold run, route_claim, try_catch, bind.
    rewrite getKhuwaniBySlug_refused by exact Hn; reflexivity. }
  assert (Hclean : forall k, khuwani_by_slug d slug = Some k ->
                             ~ has_nul slug)
    by (intros k Hk; apply khuwani_by_slug_some in Hk; tauto).
  split; [|split].
  - intros k q s Hk Hq Hs Hbad.
    rewrite route_claim_lookup, Hk by exact (Hclean k Hk).
    destruct (claimBodySchema body) as [data|issue] eqn:Hp.
    + apply claimBodySchema_inl in Hp.
      destruct Hp as (Hq' & Hs' & _ & Hrange & _).
      rewrite Hq in Hq'; rewrite Hs in Hs'.
      inversion Hq'; inversion Hs'; subst.
      destruct (Z.ltb_spec (Khuwani.numQurans k) (quranNumber data));
        [|lia].
      eexists; split; reflexivity.
    + eexists; split; reflexivity.
  - intros k issue Hk Hp.
    rewrite route_claim_lookup, Hk, Hp by exact (Hclean k Hk); reflexivity.
  - intros k data Hk Hp Hgt.
    rewrite route_claim_lookup, Hk, Hp by exact (Hclean k Hk).
    destruct (Z.ltb_spec (Khuwani.numQurans k) (quranNumber data)); [|lia].
    reflexivity.
Qed.

Lemma claim_rejects_invalid_witness :
  run (route_claim (Js.lit "no-such-slug") (Demo.body 1 5 "Ahmed")) Demo.fresh
  = (Ok (fail 404 "Khuwani not found"),
     {| db := Demo.fresh;
        trace := [GetKhuwaniBySlug (Js.lit "no-such-slug")] |})
  /\ exists r,
       run (route_claim Demo.slug (Demo.body 2 5 "Ahmed")) Demo.fresh
       = (Ok r, {| db := Demo.fresh; trace := [GetKhuwaniBySlug Demo.slug] |})
       /\ status r = 400.
Proof.
  split.
  - apply (proj1 (claim_rejects_invalid Demo.fresh (Js.lit "no-such-slug")
                    (Demo.body 1 5 "Ahmed"))).
    + unfold has_nul; vm_compute; intuition discriminate.
    + reflexivity.
  - apply (proj1 (proj2 (proj2 (claim_rejects_invalid Demo.fresh Demo.slug
                                  (Demo.body 2 5 "Ahmed"))))
             (Khuwani.mk 1 1 Demo.slug (Js.lit "Haji Abdul Rehman") 1) 2 5).
    + reflexivity.
    + reflexivity.
    + reflexivity.
    + left; simpl; lia.
Defined.

(** C2 as stated fails on a slug with U+0000: no session has the slug, and
    the answer is the 500 of a fault, not 404. *)
Lemma unknown_slug_answered_500 :
  (forall k, In k (khuwanies Demo.fresh) -> Khuwani.slug k <> [97; 0; 98]%N)
  /\ fst (run (route_claim [97; 0; 98]%N (Demo.body 1 5 "Ahmed")) Demo.fresh)
     = Ok (fail 500 "Failed to claim sipara")
  /\ fst (run (route_claim [97; 0; 98]%N (Demo.body 1 5 "Ahmed")) Demo.fresh)
     <> Ok (fail 404 "Khuwani not found").
Proof.
  split; [|split; [reflexivity | vm_compute; discriminate]].
  intros k [<-|[]]; vm_compute; discriminate.
Qed.

(** ** Release *)

Lemma deleteClaim_where_iff (kid q s : Z) (n : Js.str) (c : Claim.t) :
  Storage.deleteClaim_where kid q s n c = true
  <-> Claim.khuwaniId c = kid /\ Claim.quranNumber c = q
      /\ Claim.siparaNumber c = s /\ Claim.participantName c = n.
Proof.
  unfold Storage.deleteClaim_where.
  rewrite !andb_true_iff, !Z.eqb_eq, Js_eqb_eq; tauto.
Qed.

Lemma filter_nonempty_existsb {A} (p : A -> bool) (l : list A) :
  (0 <? Z.of_nat (List.length (filter p l))) = existsb p l.
Proof.
  induction l as [|a l IH]; simpl; [reflexivity|].
  destruct (p a); simpl; [|exact IH].
  destruct (Z.ltb_spec 0 (Z.pos (Pos.of_succ_nat (List.length (filter p l)))));
    [reflexivity | lia].
Qed.

Lemma existsb_filter_negb {A} (p : A -> bool) (l : list A) :
  existsb p (filter (fun a => negb (p a)) l) = false.
Proof.
  induction l as [|a l IH]; simpl; [reflexivity|].
  destruct (p a) eqn:E; simpl; [exact IH | rewrite E; exact IH].
Qed.

Lemma filter_negb_none {A} (p : A -> bool) (l : list A) :
  existsb p l = false -> filter (fun a => negb (p a)) l = l.
Proof.
  induction l as [|a l IH]; simpl; [reflexivity|].
  destruct (p a); simpl; [discriminate | intros H; rewrite IH; auto].
Qed.

Lemma set_claims_same (d : DB) : set_claims (claims d) d = d.
Proof. destruct d; reflexivity. Qed.

(** [deleteClaim] with parameters the engine takes. *)
Lemma deleteClaim_run (kid q s : Z) (name : Js.str) (w : World) :
  in_int4 kid = true -> in_int4 q = true -> in_int4 s = true ->
  ~ has_nul name ->
  let p := Storage.deleteClaim_where kid q s (Js.toWellFormed name) in
  Storage.deleteClaim kid q s name w
  = (Ok (existsb p (claims (db w))),
     {| db := set_claims (filter (fun c => negb (p c)) (claims (db w)))
                (db w);
        trace := trace w ++ [DeleteClaim kid q s name] |}).
Proof.
  intros Hk Hq Hs Hn p.
  unfold Storage.deleteClaim, call, Pg.bound.
  rewrite (int4_accepts _ Hk), (int4_accepts _ Hq), (int4_accepts _ Hs).
  rewrite (text_accepts _ Hn).
  unfold Sql.delete_claims; fold p.
  rewrite filter_nonempty_existsb; reflexivity.
Qed.

(** [deleteClaim] with a parameter the engine refuses. *)
Lemma deleteClaim_refused (kid q s : Z) (name : Js.str) (w : World) :
  in_int4 kid = true -> in_int4 s = true ->
  in_int4 q = false \/ has_nul name ->
  exists e,
    Storage.deleteClaim kid q s name w
    = (Throw e, {| db := db w;
                   trace := trace w ++ [DeleteClaim kid q s name] |}).
Proof.
  intros Hk Hs Hbad.
  unfold Storage.deleteClaim, call, Pg.bound.
  rewrite (int4_accepts _ Hk).
  destruct (in_int4 q) eqn:Hq.
  - destruct Hbad as [|Hn]; [discriminate|].
    rewrite (int4_accepts _ Hq), (int4_accepts _ Hs), (text_refuses _ Hn).
    eexists; reflexivity.
  - destruct (int4_refuses q Hq) as [e ->]; eexists; reflexivity.
Qed.

(** The handler on a stored session and a body that passes validation,
    when the engine takes the parameters. *)
Lemma route_unclaim_run (d : DB) (slug : Js.str) (body : ClaimBody)
    (k : Khuwani.t) (data : ClaimData) :
  khuwani_by_slug d slug = Some k ->
  claimBodySchema body = inl data ->
  in_int4 (Khuwani.id k) = true ->
  in_int4 (quranNumber data) = true ->
  ~ has_nul (participantName data) ->
  let p := Storage.deleteClaim_where (Khuwani.id k) (quranNumber data)
             (siparaNumber data) (Js.toWellFormed (participantName data)) in
  run (route_unclaim slug body) d
  = (Ok (if existsb p (claims d) then ok "Sipara released"
         else fail 400 release_refused_message),
     {| db := set_claims (filter (fun c => negb (p c)) (claims d)) d;
        trace := [GetKhuwaniBySlug slug;
                  DeleteClaim (Khuwani.id k) (quranNumber data)
                    (siparaNumber data) (participantName data)] |}).
Proof.
  intros Hk Hp Hid Hq Hn p.
  unfold run, route_unclaim, try_catch, bind.
  rewrite (getKhuwaniBySlug_found slug k) by exact Hk.
  rewrite Hp.
  rewrite deleteClaim_run
    by (assumption || exact (parsed_sipara_in_int4 body data Hp)).
  cbn [db trace app]; fold p.
  destruct (existsb p (claims d)); reflexivity.
Qed.

(** The same when the engine refuses one. *)
Lemma route_unclaim_refused (d : DB) (slug : Js.str) (body : ClaimBody)
    (k : Khuwani.t) (data : ClaimData) :
  khuwani_by_slug d slug = Some k ->
  claimBodySchema body = inl data ->
  in_int4 (Khuwani.id k) = true ->
  in_int4 (quranNumber data) = false \/ has_nul (participantName data) ->
  run (route_unclaim slug body) d
  = (Ok (fail 500 "Failed to release sipara"),
     {| db := d;
        trace := [GetKhuwaniBySlug slug;
                  DeleteClaim (Khuwani.id k) (quranNumber data)
                    (siparaNumber data) (participantName data)] |}).
Proof.
  intros Hk Hp Hid Hbad.
  unfold run, route_unclaim, try_catch, bind.
  rewrite (getKhuwaniBySlug_found slug k) by exact Hk.
  rewrite Hp; cbn [db trace app].
  destruct (deleteClaim_refused (Khuwani.id k) (quranNumber data)
              (siparaNumber data) (participantName data)
              {| db := d; trace := [GetKhuwaniBySlug slug] |}
              Hid (parsed_sipara_in_int4 body data Hp) Hbad) as [e ->].
  reflexivity.
Qed.

(** C3, as the code has it.  On a stored session of a reachable database:
    a body the schema refuses is answered 400 and nothing is deleted.  For
    a body that passes validation the name compared is the one sent,
    trimmed, and as the engine reads it (a lone surrogate as U+FFFD).  When
    the copy number fits 32 bits and the name holds no U+0000, the request
    deletes exactly the claims whose session, copy number, sipara number
    and participant name all equal the request's, code unit by code unit,
    and touches nothing else; [deleteClaim] returns [true] when there was
    such a claim and the handler answers 200; otherwise it returns [false]
    and the handler answers 400 with the "you may not have claimed it"
    message, leaving the database as it was; the same request sent a second
    time finds nothing to delete: [true] is followed by [false].  A copy
    number above 2147483647 or a name with U+0000 makes [deleteClaim]
    throw: the answer is 500 and nothing is deleted. *)
Theorem release_deletes_exact_match (d : DB) (slug : Js.str)
    (body : ClaimBody) (k : Khuwani.t) :
  reachable d ->
  khuwani_by_slug d slug = Some k ->
  let first := run (route_unclaim slug body) d in
  let second := run (route_unclaim slug body) (db (snd first)) in
  (forall issue,
     claimBodySchema body = inr issue ->
     first
     = (Ok {| status := 400; payload := Msg false (ZodMessage issue) |},
        {| db := d; trace := [GetKhuwaniBySlug slug] |}))
  /\ (forall data,
        claimBodySchema body = inl data ->
        let matches c :=
          Claim.khuwaniId c = Khuwani.id k
          /\ Claim.quranNumber c = quranNumber data
          /\ Claim.siparaNumber c = siparaNumber data
          /\ Claim.participantName c
             = Js.toWellFormed (participantName data) in
        let deleteClaim :=
          Storage.deleteClaim (Khuwani.id k) (quranNumber data)
            (siparaNumber data) (participantName data) in
        (exists sent,
           body_participantName body = JString sent
           /\ participantName data = Js.trim sent)
        /\ (in_int4 (quranNumber data) = true ->
            ~ has_nul (participantName data) ->
            (forall c, In c (claims (db (snd first)))
                       <-> In c (claims d) /\ ~ matches c)
            /\ khuwanies (db (snd first)) = khuwanies d
            /\ organizers (db (snd first)) = organizers d
            /\ ((exists c, In c (claims d) /\ matches c) ->
                fst (run deleteClaim d) = Ok true
                /\ fst first = Ok (ok "Sipara released")
                /\ fst (run deleteClaim (db (snd first))) = Ok false
                /\ fst second = Ok (fail 400 release_refused_message))
            /\ (~ (exists c, In c (claims d) /\ matches c) ->
                fst (run deleteClaim d) = Ok false
                /\ fst first = Ok (fail 400 release_refused_message)
                /\ db (snd first) = d))
        /\ (in_int4 (quranNumber data) = false
            \/ has_nul (participantName data) ->
            (exists e, fst (run deleteClaim d) = Throw e)
            /\ fst first = Ok (fail 500 "Failed to release sipara")
            /\ db (snd first) = d)).
Proof.
  intros Hr Hk first second.
  assert (Hin : In k (khuwanies d))
    by (apply khuwani_by_slug_some in Hk; tauto).
  destruct (stored_session_keys d k Hr Hin) as [Hid _].
  split.
  { intros issue Hp; unfold first, run, route_unclaim, try_catch, bind.
    rewrite (getKhuwaniBySlug_found slug k) by exact Hk.
    rewrite Hp; reflexivity. }
  intros data Hp matches deleteClaim.
  split.
  { destruct (claimBodySchema_inl body data Hp)
      as (_ & _ & _ & _ & sent & Hsent & Htrim & _).
    exists sent; split; assumption. }
  pose proof (parsed_sipara_in_int4 body data Hp) as Hs.
  split.
  - intros Hq Hn.
    set (p := Storage.deleteClaim_where (Khuwani.id k) (quranNumber data)
                (siparaNumber data)
                (Js.toWellFormed (participantName data))).
    assert (Hm : forall c, p c = true <-> matches c)
      by (intros c; apply deleteClaim_where_iff).
    assert (Hex : existsb p (claims d) = true
                  <-> exists c, In c (claims d) /\ matches c).
    { rewrite existsb_exists; split; intros [c [H1 H2]]; exists c;
        (split; [exact H1 | apply Hm; exact H2]). }
    assert (Hfirst : first
              = (Ok (if existsb p (claims d) then ok "Sipara released"
                     else fail 400 release_refused_message),
                 {| db := set_claims (filter (fun c => negb (p c)) (claims d))
                            d;
                    trace := [GetKhuwaniBySlug slug;
                              DeleteClaim (Khuwani.id k) (quranNumber data)
                                (siparaNumber data) (participantName data)] |}))
      by (apply route_unclaim_run; assumption).
    assert (Hdel : forall d0,
              fst (run deleteClaim d0) = Ok (existsb p (claims d0))).
    { intros d0; unfold run, deleteClaim.
      rewrite deleteClaim_run by assumption; reflexivity. }
    assert (Hsecond : fst second = Ok (fail 400 release_refused_message)).
    { subst second; rewrite Hfirst; cbn [snd db].
      rewrite (route_unclaim_run _ slug body k data);
        [|exact Hk|exact Hp|exact Hid|exact Hq|exact Hn].
      cbn [fst]; fold p; cbn [claims set_claims].
      rewrite existsb_filter_negb; reflexivity. }
    rewrite Hdel; rewrite Hdel; rewrite Hfirst in *; cbn [fst snd db] in *.
    cbn [claims khuwanies organizers set_claims].
    rewrite existsb_filter_negb.
    split; [|split; [reflexivity|split; [reflexivity|split]]].
    + intros c; rewrite filter_In, negb_true_iff, <- Hm.
      destruct (p c); intuition congruence.
    + intros H; apply Hex in H; rewrite H; auto.
    + intros H.
      assert (E : existsb p (claims d) = false).
      { destruct (existsb p (claims d)) eqn:E; [|reflexivity].
        exfalso; apply H, Hex; reflexivity. }
      rewrite E; repeat split.
      rewrite filter_negb_none by exact E; apply set_claims_same.
  - intros Hbad.
    split.
    + destruct (deleteClaim_refused (Khuwani.id k) (quranNumber data)
                  (siparaNumber data) (participantName data)
                  {| db := d; trace := [] |} Hid Hs Hbad) as [e He].
      exists e; unfold run, deleteClaim; rewrite He; reflexivity.
    + unfold first.
      rewrite (route_unclaim_refused d slug body k data Hk Hp Hid Hbad).
      split; reflexivity.
Qed.

Lemma release_deletes_exact_match_witness :
  fst (run (route_unclaim Demo.slug (Demo.body 1 5 "Ahmed")) Demo.claimed)
  = Ok (ok "Sipara released")
  /\ fst (run (route_unclaim Demo.slug (Demo.body 1 5 "Ahmed"))
            (db (snd (run (route_unclaim Demo.slug (Demo.body 1 5 "Ahmed"))
                        Demo.claimed))))
     = Ok (fail 400 release_refused_message).
Proof.
  pose proof (release_deletes_exact_match Demo.claimed Demo.slug
                (Demo.body 1 5 "Ahmed")
                (Khuwani.mk 1 1 Demo.slug (Js.lit "Haji Abdul Rehman") 1)
                reachable_demo_claimed eq_refl) as H.
  cbv zeta in H.
  destruct H as [_ H].
  destruct (H {| quranNumber := 1; siparaNumber := 5;
                 participantName := Js.lit "Ahmed" |} eq_refl)
    as (_ & Hheld & _).
  destruct Hheld as (_ & _ & _ & Hyes & _).
  - reflexivity.
  - unfold has_nul; vm_compute; intuition discriminate.
  - destruct Hyes as (_ & H1 & _ & H2).
    + exists (Claim.mk 1 1 1 5 (Js.lit "Ahmed")).
      split; [left; reflexivity | repeat split].
    + split; [exact H1 | exact H2].
Defined.

(** C3 as stated fails on a copy number above 2147483647: the body passes
    validation (the schema puts no upper bound on [quranNumber], and the
    release handler does not compare it with the session's count), no claim
    matches it, and the answer is the 500 of a fault, not the 400 of a
    release that found nothing. *)
Lemma release_beyond_int4_answered_500 :
  claimBodySchema (Demo.body 2147483648 5 "Ahmed")
  = inl {| quranNumber := 2147483648; siparaNumber := 5;
           participantName := Js.lit "Ahmed" |}
  /\ (forall c, In c (claims Demo.claimed) ->
                Claim.quranNumber c <> 2147483648)
  /\ fst (run (Storage.deleteClaim 1 2147483648 5 (Js.lit "Ahmed"))
            Demo.claimed)
     = Throw (Pg "22003")
  /\ fst (run (route_unclaim Demo.slug (Demo.body 2147483648 5 "Ahmed"))
            Demo.claimed)
     = Ok (fail 500 "Failed to release sipara")
  /\ fst (run (route_unclaim Demo.slug (Demo.body 2147483648 5 "Ahmed"))
            Demo.claimed)
     <> Ok (fail 400 release_refused_message).
Proof.
  split; [reflexivity|].
  split; [intros c [<-|[]]; vm_compute; discriminate|].
  split; [reflexivity|].
  split; [reflexivity | vm_compute; discriminate].
Qed.

(** ** Reset *)

(** An organizer route on an id the engine refuses. *)
Lemma lookup_refused_500 (d : DB) (s : Session) (me : Z) (id : JsNumber)
    (e : PgError) (found : option Khuwani.t -> Z -> M Response)
    (failure : string) :
  organizerId s = Some me -> me <> 0 ->
  Pg.int4 id = inr e ->
  run (requireAuth s (fun me =>
         try_catch (k <- Storage.getKhuwaniById id ;; found k me)
           (fun _ => ret (fail 500 failure)))) d
  = (Ok (fail 500 failure), {| db := d; trace := [GetKhuwaniById id] |}).
Proof.
  intros Hs Hme He; unfold run, requireAuth; rewrite Hs.
  destruct (Z.eqb_spec me 0) as [|_]; [contradiction|].
  unfold try_catch, bind.
  rewrite (getKhuwaniById_refused id e) by exact He; reflexivity.
Qed.

(** The handler when the caller owns the session. *)
Lemma reset_claims_run (d : DB) (s : Session) (me id : Z) (k : Khuwani.t) :
  organizerId s = Some me -> me <> 0 ->
  khuwani_by_id d id = Some k ->
  Khuwani.organizerId k = me ->
  fst (run (route_reset s id) d) = Ok (ok "Claims reset")
  /\ db (snd (run (route_reset s id) d))
     = set_claims (filter (fun c => negb (Claim.khuwaniId c =? id)) (claims d))
         d.
Proof.
  intros Hs Hme Hk Hown.
  destruct (khuwani_by_id_some d id k Hk) as (Hint & _ & _).
  unfold run, route_reset, requireAuth; rewrite Hs.
  destruct (Z.eqb_spec me 0) as [|_]; [contradiction|].
  unfold try_catch, bind.
  rewrite (getKhuwaniById_found id k) by exact Hk.
  rewrite Hown, Z.eqb_refl; cbn [negb].
  unfold Storage.deleteAllClaimsForKhuwani, call, Pg.bound.
  rewrite (int4_accepts id Hint).
  split; reflexivity.
Qed.

(** C5.  When the caller owns the session, [reset] answers 200 and deletes
    the claims of that session and no other row: the claims of other
    sessions stay, in their order, and the tables of sessions and of
    organizers (so the session's count, slug and name) are what they
    were. *)
Theorem reset_removes_only_session_claims (d : DB) (s : Session)
    (me id : Z) (k : Khuwani.t) :
  organizerId s = Some me -> me <> 0 ->
  khuwani_by_id d id = Some k ->
  Khuwani.organizerId k = me ->
  let out := run (route_reset s id) d in
  fst out = Ok (ok "Claims reset")
  /\ (forall c, In c (claims (db (snd out)))
                <-> In c (claims d) /\ Claim.khuwaniId c <> id)
  /\ db (snd out)
     = set_claims
         (filter (fun c => negb (Claim.khuwaniId c =? id)) (claims d)) d
  /\ khuwanies (db (snd out)) = khuwanies d
  /\ khuwani_by_id (db (snd out)) id = Some k
  /\ organizers (db (snd out)) = organizers d.
Proof.
  intros Hs Hme Hk Hown out; subst out.
  destruct (reset_claims_run d s me id k Hs Hme Hk Hown) as [Hres Hdb].
  rewrite Hres, Hdb.
  split; [reflexivity|].
  split; [|repeat split; solve [reflexivity | exact Hk]].
  intros c; cbn [claims set_claims].
  rewrite filter_In, negb_true_iff, Z.eqb_neq; tauto.
Qed.

Lemma reset_removes_only_session_claims_witness :
  fst (run (route_reset Demo.owner 1) Demo.claimed) = Ok (ok "Claims reset")
  /\ claims (db (snd (run (route_reset Demo.owner 1) Demo.claimed))) = []
  /\ khuwanies (db (snd (run (route_reset Demo.owner 1) Demo.claimed)))
     = khuwanies Demo.claimed.
Proof.
  pose proof (reset_removes_only_session_claims Demo.claimed Demo.owner 1 1
                (Khuwani.mk 1 1 Demo.slug (Js.lit "Haji Abdul Rehman") 1)
                eq_refl) as H.
  cbv zeta in H.
  destruct H as (H1 & _ & H2 & H3 & _).
  - lia.
  - reflexivity.
  - reflexivity.
  - split; [exact H1 | split; [rewrite H2; reflexivity | exact H3]].
Defined.

(** ** Adding a copy *)

Lemma find_map_bump (i : Z) (ks : list Khuwani.t) (k : Khuwani.t) :
  find (fun k => Khuwani.id k =? i) ks = Some k ->
  find (fun k => Khuwani.id k =? i) (map (Sql.bump i) ks)
  = Some (Sql.bump i k).
Proof.
  induction ks as [|x ks IH]; simpl; [discriminate|].
  destruct (Khuwani.id x =? i) eqn:E.
  - intros H; inversion H; subst.
    unfold Sql.bump at 1; rewrite E; simpl; rewrite E; reflexivity.
  - intros H; unfold Sql.bump at 1; rewrite E, E; apply IH; exact H.
Qed.

Lemma find_map_bump_other (i j : Z) (ks : list Khuwani.t) :
  j <> i ->
  find (fun k => Khuwani.id k =? j) (map (Sql.bump i) ks)
  = find (fun k => Khuwani.id k =? j) ks.
Proof.
  intros Hji; induction ks as [|x ks IH]; simpl; [reflexivity|].
  unfold Sql.bump at 1 2.
  destruct (Z.eqb_spec (Khuwani.id x) i) as [Hx|Hx]; simpl.
  - destruct (Z.eqb_spec (Khuwani.id x) j); [lia | exact IH].
  - destruct (Khuwani.id x =? j); [reflexivity | exact IH].
Qed.

(** The look-up by id after the update. *)
Lemma khuwani_by_id_bump (d : DB) (i : Z) (k : Khuwani.t) :
  khuwani_by_id d i = Some k ->
  khuwani_by_id (set_khuwanies (map (Sql.bump i) (khuwanies d)) d) i
  = Some (Sql.bump i k).
Proof.
  unfold khuwani_by_id; destruct (in_int4 i); [|discriminate].
  cbn [khuwanies set_khuwanies]; apply find_map_bump.
Qed.

Lemma khuwani_by_id_bump_other (d : DB) (i j : Z) :
  j <> i ->
  khuwani_by_id (set_khuwanies (map (Sql.bump i) (khuwanies d)) d) j
  = khuwani_by_id d j.
Proof.
  intros Hj; unfold khuwani_by_id; destruct (in_int4 j); [|reflexivity].
  cbn [khuwanies set_khuwanies]; apply find_map_bump_other; exact Hj.
Qed.

(** With the primary key, the range test of the update is the test on the
    one row that has the id. *)
Lemma increment_range_test (d : DB) (i : Z) (k : Khuwani.t) :
  khuwanies_pkey d ->
  khuwani_by_id d i = Some k ->
  forallb (fun k => negb (Khuwani.id k =? i)
                    || in_int4 (Khuwani.numQurans k + 1)) (khuwanies d)
  = in_int4 (Khuwani.numQurans k + 1).
Proof.
  intros [Hnd _] Hk.
  apply khuwani_by_id_some in Hk; destruct Hk as (_ & Hin & Hid).
  destruct (in_int4 (Khuwani.numQurans k + 1)) eqn:E.
  - apply forallb_forall; intros x Hx.
    destruct (Z.eqb_spec (Khuwani.id x) i) as [Hxi|]; [|reflexivity]; simpl.
    assert (x = k) by (apply (NoDup_map_inj_in Khuwani.id (khuwanies d));
                       auto; congruence).
    subst x; exact E.
  - destruct (forallb _ (khuwanies d)) eqn:F; [|reflexivity].
    rewrite forallb_forall in F; specialize (F k Hin).
    rewrite Hid, Z.eqb_refl, E in F; discriminate.
Qed.

(** The handler when the caller owns the session. *)
Lemma route_add_quran_owner (d : DB) (s : Session) (me id : Z)
    (k : Khuwani.t) :
  khuwanies_pkey d ->
  organizerId s = Some me -> me <> 0 ->
  khuwani_by_id d id = Some k ->
  Khuwani.organizerId k = me ->
  run (route_add_quran s id) d
  = if in_int4 (Khuwani.numQurans k + 1)
    then (Ok (ok "Quran added"),
          {| db := set_khuwanies (map (Sql.bump id) (khuwanies d)) d;
             trace := [GetKhuwaniById id; IncrementQurans id] |})
    else (Ok (fail 500 "Failed to add Quran"),
          {| db := d; trace := [GetKhuwaniById id; IncrementQurans id] |}).
Proof.
  intros Hpk Hs Hme Hk Hown.
  pose proof (increment_range_test d id k Hpk Hk) as Hrange.
  destruct (khuwani_by_id_some d id k Hk) as (Hint & _ & _).
  unfold run, route_add_quran, requireAuth; rewrite Hs.
  destruct (Z.eqb_spec me 0) as [|_]; [contradiction|].
  unfold try_catch, bind.
  rewrite (getKhuwaniById_found id k) by exact Hk.
  rewrite Hown, Z.eqb_refl; cbn [negb].
  unfold Storage.incrementQurans, call, Pg.bound.
  rewrite (int4_accepts id Hint).
  unfold Sql.increment_num_qurans; cbn [db trace app].
  rewrite Hrange.
  destruct (in_int4 (Khuwani.numQurans k + 1)); reflexivity.
Qed.

(** The handler when the caller does not own a session with the id. *)
Lemma organizer_lookup_404 (d : DB) (s : Session) (me id : Z)
    (write : M Response) (failure : string) :
  organizerId s = Some me -> me <> 0 ->
  in_int4 id = true ->
  (forall k, khuwani_by_id d id = Some k -> Khuwani.organizerId k <> me) ->
  run (requireAuth s (fun me =>
         try_catch
           (k <- Storage.getKhuwaniById id ;;
            match k with
            | None => ret (fail 404 "Khuwani not found")
            | Some k =>
                if negb (Khuwani.organizerId k =? me)
                then ret (fail 404 "Khuwani not found")
                else write
            end)
           (fun _ => ret (fail 500 failure)))) d
  = (Ok (fail 404 "Khuwani not found"),
     {| db := d; trace := [GetKhuwaniById id] |}).
Proof.
  intros Hs Hme Hint Hno; unfold run, requireAuth; rewrite Hs.
  destruct (Z.eqb_spec me 0) as [|_]; [contradiction|].
  unfold try_catch, bind.
  rewrite getKhuwaniById_run by exact Hint; cbn [db].
  destruct (khuwani_by_id d id) as [k|] eqn:Hk; [|reflexivity].
  specialize (Hno k eq_refl).
  destruct (Z.eqb_spec (Khuwani.organizerId k) me); [contradiction|].
  reflexivity.
Qed.

(** [K] requests by the owner, one after the other. *)
Lemma add_quran_times_count (K : nat) (d : DB) (s : Session) (me id : Z)
    (k : Khuwani.t) :
  reachable d ->
  organizerId s = Some me -> me <> 0 ->
  khuwani_by_id d id = Some k ->
  Khuwani.organizerId k = me ->
  Khuwani.numQurans k + Z.of_nat K <= int4_max ->
  exists k',
    khuwani_by_id (add_quran_times K s id d) id = Some k'
    /\ Khuwani.numQurans k' = Khuwani.numQurans k + Z.of_nat K.
Proof.
  intros Hr Hs Hme; revert d k Hr.
  induction K as [|K IH]; intros d k Hr Hk Hown HK.
  - exists k; split; [exact Hk | simpl; lia].
  - destruct (khuwani_by_id_some d id k Hk) as (_ & Hin & Hid).
    assert (Hlow : int4_min <= Khuwani.numQurans k <= int4_max).
    { apply in_int4_iff.
      pose proof (reachable_numQurans_int4 d Hr) as Hint.
      unfold numQurans_int4 in Hint; rewrite Forall_forall in Hint.
      apply Hint; exact Hin. }
    pose proof (route_add_quran_owner d s me id k
                  (reachable_khuwanies_pkey d Hr) Hs Hme Hk Hown) as Hrun.
    assert (E : in_int4 (Khuwani.numQurans k + 1) = true)
      by (apply in_int4_iff; unfold int4_min, int4_max in *; lia).
    rewrite E in Hrun.
    unfold add_quran_times; rewrite Nat.iter_succ_r.
    fold (add_quran_times K s id (db (snd (run (route_add_quran s id) d)))).
    destruct (IH (db (snd (run (route_add_quran s id) d)))
                 (Sql.bump id k)) as [k' [Hk' Hn']].
    + exact (stable_route_add_quran s id {| db := d; trace := [] |} Hr).
    + rewrite Hrun; cbn [snd db]; apply khuwani_by_id_bump; exact Hk.
    + unfold Sql.bump; rewrite Hid, Z.eqb_refl; exact Hown.
    + unfold Sql.bump; rewrite Hid, Z.eqb_refl; simpl; lia.
    + exists k'; split; [exact Hk'|].
      rewrite Hn'; unfold Sql.bump; rewrite Hid, Z.eqb_refl; simpl; lia.
Qed.

(** C4, as the code has it.  For a signed-in caller: an id that is no
    32-bit integer (a larger integer, or the NaN [parseInt] makes of a
    parameter without digits) fails the look-up and is answered 500; any
    other id is answered 404 unless a session with the id exists and
    belongs to the caller; in both cases nothing changes.  For the owner, a
    count below 2147483647 (the column is a 32-bit integer) grows by
    exactly 1, the session's other columns, the other sessions and the
    claims staying as they are; the count never shrinks; and [K] requests
    in a row add exactly [K] as long as the sum does not exceed
    2147483647. *)
Theorem add_quran_increments_within_int4 (d : DB) (s : Session) (me id : Z) :
  reachable d ->
  organizerId s = Some me -> me <> 0 ->
  let out := run (route_add_quran s id) d in
  (in_int4 id = true ->
   (forall k, khuwani_by_id d id = Some k -> Khuwani.organizerId k <> me) ->
   out = (Ok (fail 404 "Khuwani not found"),
          {| db := d; trace := [GetKhuwaniById id] |}))
  /\ (in_int4 id = false ->
      out = (Ok (fail 500 "Failed to add Quran"),
             {| db := d; trace := [GetKhuwaniById id] |}))
  /\ run (route_add_quran s JNotInt) d
     = (Ok (fail 500 "Failed to add Quran"),
        {| db := d; trace := [GetKhuwaniById JNotInt] |})
  /\ (forall k,
        khuwani_by_id d id = Some k -> Khuwani.organizerId k = me ->
        (Khuwani.numQurans k < int4_max ->
         fst out = Ok (ok "Quran added")
         /\ khuwani_by_id (db (snd out)) id
            = Some (Khuwani.mk (Khuwani.id k) (Khuwani.organizerId k)
                      (Khuwani.slug k) (Khuwani.marhoomName k)
                      (Khuwani.numQurans k + 1))
         /\ (forall j, j <> id ->
               khuwani_by_id (db (snd out)) j = khuwani_by_id d j)
         /\ claims (db (snd out)) = claims d)
        /\ (exists k',
              khuwani_by_id (db (snd out)) id = Some k'
              /\ Khuwani.numQurans k <= Khuwani.numQurans k')
        /\ (forall K,
              Khuwani.numQurans k + Z.of_nat K <= int4_max ->
              exists k',
                khuwani_by_id (add_quran_times K s id d) id = Some k'
                /\ Khuwani.numQurans k' = Khuwani.numQurans k + Z.of_nat K)).
Proof.
  intros Hr Hs Hme out; split; [|split; [|split]].
  - intros Hint Hno; subst out; unfold route_add_quran.
    apply (organizer_lookup_404 d s me id
             (Storage.incrementQurans id ;;; ret (ok "Quran added"))
             "Failed to add Quran"); assumption.
  - intros Hint; subst out; unfold route_add_quran.
    destruct (int4_refuses id Hint) as [e He].
    apply (lookup_refused_500 d s me id e
             (fun k me =>
                match k with
                | None => ret (fail 404 "Khuwani not found")
                | Some k =>
                    if negb (Khuwani.organizerId k =? me)
                    then ret (fail 404 "Khuwani not found")
                    else Storage.incrementQurans id ;;; ret (ok "Quran added")
                end)); assumption.
  - unfold route_add_quran.
    apply (lookup_refused_500 d s me JNotInt invalid_text_representation
             (fun k me =>
                match k with
                | None => ret (fail 404 "Khuwani not found")
                | Some k =>
                    if negb (Khuwani.organizerId k =? me)
                    then ret (fail 404 "Khuwani not found")
                    else Storage.incrementQurans JNotInt ;;;
                         ret (ok "Quran added")
                end)); [assumption | assumption | reflexivity].
  - intros k Hk Hown.
    destruct (khuwani_by_id_some d id k Hk) as (_ & Hin & Hid).
    assert (Hlow : int4_min <= Khuwani.numQurans k <= int4_max).
    { apply in_int4_iff.
      pose proof (reachable_numQurans_int4 d Hr) as Hint.
      unfold numQurans_int4 in Hint; rewrite Forall_forall in Hint.
      apply Hint; exact Hin. }
    pose proof (route_add_quran_owner d s me id k
                  (reachable_khuwanies_pkey d Hr) Hs Hme Hk Hown) as Hrun.
    fold out in Hrun.
    assert (Hbump : Sql.bump id k
                    = Khuwani.mk (Khuwani.id k) (Khuwani.organizerId k)
                        (Khuwani.slug k) (Khuwani.marhoomName k)
                        (Khuwani.numQurans k + 1)).
    { unfold Sql.bump; rewrite Hid, Z.eqb_refl; reflexivity. }
    split; [|split].
    + intros Hlt.
      assert (E : in_int4 (Khuwani.numQurans k + 1) = true)
        by (apply in_int4_iff; unfold int4_min, int4_max in *; lia).
      rewrite E in Hrun; rewrite Hrun; cbn [fst snd db].
      split; [reflexivity|].
      split; [|split; [|reflexivity]].
      * rewrite (khuwani_by_id_bump d id k Hk), Hbump; reflexivity.
      * intros j Hj; apply khuwani_by_id_bump_other; exact Hj.
    + rewrite Hrun.
      destruct (in_int4 (Khuwani.numQurans k + 1)); cbn [snd db].
      * exists (Sql.bump id k); split.
        -- apply khuwani_by_id_bump; exact Hk.
        -- rewrite Hbump; simpl; lia.
      * exists k; split; [exact Hk | lia].
    + intros K HK.
      exact (add_quran_times_count K d s me id k Hr Hs Hme Hk Hown HK).
Qed.

Lemma reachable_demo_fresh : reachable Demo.fresh.
Proof.
  unfold Demo.fresh; repeat apply reachable_exec; apply reachable_empty.
Qed.

Lemma add_quran_increments_within_int4_witness :
  fst (run (route_add_quran Demo.owner 1) Demo.fresh) = Ok (ok "Quran added")
  /\ exists k',
       khuwani_by_id (add_quran_times 3 Demo.owner 1 Demo.fresh) 1 = Some k'
       /\ Khuwani.numQurans k' = 4.
Proof.
  pose proof (add_quran_increments_within_int4 Demo.fresh Demo.owner 1 1
                reachable_demo_fresh eq_refl) as H.
  cbv zeta in H.
  destruct H as (_ & _ & _ & H); [lia|].
  destruct (H (Khuwani.mk 1 1 Demo.slug (Js.lit "Haji Abdul Rehman") 1)
              eq_refl eq_refl) as (H1 & _ & H3).
  split.
  - apply H1; unfold int4_max; simpl; lia.
  - apply (H3 3%nat); unfold int4_max; simpl; lia.
Defined.

(** The largest count is reached by the handler itself: 2147483646 add-quran
    requests of the owner on a new session. *)
Lemma demo_count_reaches_int4_max :
  exists k',
    khuwani_by_id
      (add_quran_times (Z.to_nat 2147483646) Demo.owner 1 Demo.fresh) 1
    = Some k'
    /\ Khuwani.numQurans k' = int4_max.
Proof.
  destruct (add_quran_times_count (Z.to_nat 2147483646) Demo.fresh Demo.owner
              1 1 (Khuwani.mk 1 1 Demo.slug (Js.lit "Haji Abdul Rehman") 1)
              reachable_demo_fresh eq_refl) as [k' [H1 H2]].
  - lia.
  - reflexivity.
  - reflexivity.
  - rewrite Z2Nat.id by lia; unfold int4_max; cbn [Khuwani.numQurans]; lia.
  - exists k'; split; [exact H1|].
    rewrite H2, Z2Nat.id by lia; reflexivity.
Qed.

(** C4 as stated fails where the count is 2147483647: the owner's request is
    answered 500 and the count stays, it is not 2147483648. *)
Lemma add_quran_fails_at_int4_max :
  khuwani_by_id Demo.full 1
  = Some (Khuwani.mk 1 1 Demo.slug (Js.lit "Haji Abdul Rehman") 2147483647)
  /\ fst (run (route_add_quran Demo.owner 1) Demo.full)
     = Ok (fail 500 "Failed to add Quran")
  /\ khuwani_by_id (db (snd (run (route_add_quran Demo.owner 1) Demo.full))) 1
     = Some (Khuwani.mk 1 1 Demo.slug (Js.lit "Haji Abdul Rehman") 2147483647)
  /\ ~ (exists k',
          khuwani_by_id
            (db (snd (run (route_add_quran Demo.owner 1) Demo.full))) 1
          = Some k'
          /\ Khuwani.numQurans k' = 2147483647 + 1).
Proof.
  repeat split; try reflexivity.
  intros [k' [H1 H2]].
  vm_compute in H1; inversion H1; subst k'; simpl in H2; lia.
Qed.

(** ** Claiming a free slot *)

Lemma taken_false_iff (d : DB) (sl : slot) :
  taken d sl = false <-> forall c, In c (claims d) -> slot_of c <> sl.
Proof.
  split.
  - intros H c Hin Heq.
    assert (taken d sl = true); [|congruence].
    apply taken_iff, in_map_iff; exists c; auto.
  - intros H; destruct (taken d sl) eqn:E; [|reflexivity].
    apply taken_iff, in_map_iff in E; destruct E as [c [E Hin]].
    exfalso; exact (H c Hin E).
Qed.

(** The handler on a free slot of a stored session. *)
Lemma route_claim_free (d : DB) (slug : Js.str) (body : ClaimBody)
    (k : Khuwani.t) (data : ClaimData) :
  numQurans_int4 d ->
  in_int4 (Khuwani.id k) = true ->
  khuwani_by_slug d slug = Some k ->
  claimBodySchema body = inl data ->
  quranNumber data <= Khuwani.numQurans k ->
  ~ has_nul (participantName data) ->
  claims_id_seq d <= int4_max ->
  taken d (Khuwani.id k, quranNumber data, siparaNumber data) = false ->
  let row := Claim.mk (claims_id_seq d) (Khuwani.id k) (quranNumber data)
               (siparaNumber data) (Js.toWellFormed (participantName data)) in
  run (route_claim slug body) d
  = (Ok {| status := 200; payload := ClaimCreated row |},
     {| db := set_claims (claims d ++ [row]) (nextval_claims d);
        trace := [GetKhuwaniBySlug slug;
                  CreateClaim
                    {| ic_khuwaniId := Khuwani.id k;
                       ic_quranNumber := quranNumber data;
                       ic_siparaNumber := siparaNumber data;
                       ic_participantName := participantName data |}] |}).
Proof.
  intros Hint Hid Hk Hp Hle Hn Hseq Hfree row.
  assert (Hin : In k (khuwanies d))
    by (apply khuwani_by_slug_some in Hk; tauto).
  destruct (parsed_slot_in_int4 d k body data Hint Hin Hp Hle) as [Hq Hs].
  set (insert := {| ic_khuwaniId := Khuwani.id k;
                    ic_quranNumber := quranNumber data;
                    ic_siparaNumber := siparaNumber data;
                    ic_participantName := participantName data |}).
  assert (Hfk : existsb (fun k' => Khuwani.id k' =? ic_khuwaniId insert)
                  (khuwanies d) = true).
  { apply existsb_exists; exists k; split; [exact Hin|].
    apply Z.eqb_refl. }
  pose proof (insert_claim_free insert d Hid Hq Hs Hn Hseq Hfree Hfk) as Hi.
  cbv zeta in Hi; cbn [ic_khuwaniId ic_quranNumber ic_siparaNumber
                        ic_participantName insert] in Hi.
  fold row in Hi.
  rewrite (route_claim_insert d slug body k data Hk Hp Hle).
  cbv zeta; fold insert; rewrite Hi; reflexivity.
Qed.

(** The handler on a slot of a stored session when the insert cannot be
    made: the name holds U+0000, or the sequence of claim ids is used
    up. *)
Lemma route_claim_fault (d : DB) (slug : Js.str) (body : ClaimBody)
    (k : Khuwani.t) (data : ClaimData) :
  numQurans_int4 d ->
  in_int4 (Khuwani.id k) = true ->
  khuwani_by_slug d slug = Some k ->
  claimBodySchema body = inl data ->
  quranNumber data <= Khuwani.numQurans k ->
  has_nul (participantName data) \/ int4_max < claims_id_seq d ->
  run (route_claim slug body) d
  = (Ok (fail 500 "Failed to claim sipara"),
     {| db := d;
        trace := [GetKhuwaniBySlug slug;
                  CreateClaim
                    {| ic_khuwaniId := Khuwani.id k;
                       ic_quranNumber := quranNumber data;
                       ic_siparaNumber := siparaNumber data;
                       ic_participantName := participantName data |}] |}).
Proof.
  intros Hint Hid Hk Hp Hle Hbad.
  assert (Hin : In k (khuwanies d))
    by (apply khuwani_by_slug_some in Hk; tauto).
  destruct (parsed_slot_in_int4 d k body data Hint Hin Hp Hle) as [Hq Hs].
  rewrite (route_claim_insert d slug body k data Hk Hp Hle); cbv zeta.
  set (insert := {| ic_khuwaniId := Khuwani.id k;
                    ic_quranNumber := quranNumber data;
                    ic_siparaNumber := siparaNumber data;
                    ic_participantName := participantName data |}).
  destruct (Z.ltb_spec int4_max (claims_id_seq d)) as [Hseq|Hseq].
  - destruct (insert_claim_exhausted insert d Hseq) as [[code] [Hne ->]].
    cbn [fst snd].
    destruct (String.eqb_spec code "23505") as [->|_]; [|reflexivity].
    exfalso; apply Hne; reflexivity.
  - destruct Hbad as [Hn|]; [|lia].
    rewrite (insert_claim_nul insert d Hid Hq Hs Hn); reflexivity.
Qed.

(** C6, as the code has it.  On a slot of a stored session (the copy is one
    of the session's): the release is answered 200 exactly when the name
    sent holds no U+0000 and the slot holds a claim under that name as the
    engine reads it; after that 200, or after the 200 of the owner's reset,
    the slot holds no claim.  The next claim request for it, under a name
    that passes validation, is answered 200 with the new claim, which is
    then stored on the slot under the name as the engine reads it (a lone
    surrogate as U+FFFD), when the name holds no U+0000 and the sequence of
    claim ids is not used up; otherwise it is answered 500 and the slot
    stays empty. *)
Theorem release_then_claim_succeeds :
  (forall d slug body body' k data data',
     reachable d ->
     khuwani_by_slug d slug = Some k ->
     claimBodySchema body = inl data ->
     claimBodySchema body' = inl data' ->
     quranNumber data' = quranNumber data ->
     siparaNumber data' = siparaNumber data ->
     quranNumber data <= Khuwani.numQurans k ->
     let sl := (Khuwani.id k, quranNumber data, siparaNumber data) in
     let released := run (route_unclaim slug body) d in
     let out := run (route_claim slug body') (db (snd released)) in
     (fst released = Ok (ok "Sipara released")
      <-> ~ has_nul (participantName data)
          /\ exists c, In c (claims d)
                       /\ slot_of c = sl
                       /\ Claim.participantName c
                          = Js.toWellFormed (participantName data))
     /\ (fst released = Ok (ok "Sipara released") ->
         taken d sl = true
         /\ taken (db (snd released)) sl = false
         /\ (~ has_nul (participantName data') ->
             claims_id_seq d <= int4_max ->
             exists c,
               fst out = Ok {| status := 200; payload := ClaimCreated c |}
               /\ slot_of c = sl
               /\ Claim.participantName c
                  = Js.toWellFormed (participantName data')
               /\ In c (claims (db (snd out)))
               /\ taken (db (snd out)) sl = true)
         /\ (has_nul (participantName data') \/ int4_max < claims_id_seq d ->
             fst out = Ok (fail 500 "Failed to claim sipara")
             /\ claims (db (snd out)) = claims (db (snd released)))))
  /\ (forall d s me slug body' k data',
        reachable d ->
        organizerId s = Some me -> me <> 0 ->
        khuwani_by_slug d slug = Some k ->
        khuwani_by_id d (Khuwani.id k) = Some k ->
        Khuwani.organizerId k = me ->
        claimBodySchema body' = inl data' ->
        quranNumber data' <= Khuwani.numQurans k ->
        let sl := (Khuwani.id k, quranNumber data', siparaNumber data') in
        let reset := run (route_reset s (Khuwani.id k)) d in
        let out := run (route_claim slug body') (db (snd reset)) in
        fst reset = Ok (ok "Claims reset")
        /\ taken (db (snd reset)) sl = false
        /\ (~ has_nul (participantName data') ->
            claims_id_seq d <= int4_max ->
            exists c,
              fst out = Ok {| status := 200; payload := ClaimCreated c |}
              /\ slot_of c = sl
              /\ Claim.participantName c
                 = Js.toWellFormed (participantName data')
              /\ In c (claims (db (snd out)))
              /\ taken (db (snd out)) sl = true)
        /\ (has_nul (participantName data') \/ int4_max < claims_id_seq d ->
            fst out = Ok (fail 500 "Failed to claim sipara")
            /\ claims (db (snd out)) = claims (db (snd reset)))).
Proof.
  split.
  - intros d slug body body' k data data' Hr Hk Hp Hp' Eq Es Hle
      sl released out.
    assert (Hin : In k (khuwanies d))
      by (apply khuwani_by_slug_some in Hk; tauto).
    destruct (stored_session_keys d k Hr Hin) as [Hid _].
    pose proof (reachable_numQurans_int4 d Hr) as Hint.
    destruct (parsed_slot_in_int4 d k body data Hint Hin Hp Hle) as [Hq Hs].
    set (p := Storage.deleteClaim_where (Khuwani.id k) (quranNumber data)
                (siparaNumber data)
                (Js.toWellFormed (participantName data))).
    assert (Hiff : fst released = Ok (ok "Sipara released")
                   <-> ~ has_nul (participantName data)
                       /\ existsb p (claims d) = true).
    { destruct (existsb (N.eqb 0) (participantName data)) eqn:En.
      - assert (Hn : has_nul (participantName data))
          by (apply has_nul_iff; exact En).
        subst released.
        rewrite (route_unclaim_refused d slug body k data Hk Hp Hid
                   (or_intror Hn)).
        split; [discriminate | tauto].
      - assert (Hn : ~ has_nul (participantName data)).
        { intros H; apply has_nul_iff in H; congruence. }
        subst released.
        rewrite (route_unclaim_run d slug body k data Hk Hp Hid Hq Hn).
        cbv zeta; fold p; cbn [fst].
        destruct (existsb p (claims d)).
        + split; [tauto | reflexivity].
        + split; [discriminate | intros [_ H]; discriminate]. }
    split.
    { rewrite Hiff; split; intros [Hn H]; (split; [exact Hn|]).
      - apply existsb_exists in H; destruct H as [c [Hc Hpc]].
        apply deleteClaim_where_iff in Hpc.
        exists c; split; [exact Hc|].
        unfold slot_of, sl; destruct Hpc as (-> & -> & -> & ->).
        split; reflexivity.
      - destruct H as [c (Hc & Hsl & Hname)].
        apply existsb_exists; exists c; split; [exact Hc|].
        apply deleteClaim_where_iff; unfold slot_of, sl in Hsl.
        injection Hsl as E1 E2 E3; auto. }
    intros H200; apply Hiff in H200; destruct H200 as [Hn Hheld].
    pose proof (route_unclaim_run d slug body k data Hk Hp Hid Hq Hn) as Hrel.
    cbv zeta in Hrel; fold released p in Hrel; rewrite Hheld in Hrel.
    apply existsb_exists in Hheld; destruct Hheld as [c0 [Hin0 Hp0]].
    assert (Hsl0 : slot_of c0 = sl).
    { apply deleteClaim_where_iff in Hp0; unfold slot_of, sl.
      destruct Hp0 as (-> & -> & -> & _); reflexivity. }
    assert (Hfree : taken (db (snd released)) sl = false).
    { apply taken_false_iff; intros c Hc Hsl.
      rewrite Hrel in Hc; cbn [snd db] in Hc; simpl claims in Hc.
      apply filter_In in Hc; destruct Hc as [Hc Hnp].
      assert (c = c0).
      { apply (NoDup_map_inj_in slot_of (claims d)); auto.
        - exact (reachable_unique_claim d Hr).
        - rewrite Hsl, Hsl0; reflexivity. }
      subst c; rewrite Hp0 in Hnp; discriminate. }
    assert (Hk1 : khuwani_by_slug (db (snd released)) slug = Some k)
      by (rewrite Hrel; exact Hk).
    assert (Hint1 : numQurans_int4 (db (snd released)))
      by (rewrite Hrel; exact Hint).
    assert (Hseq1 : claims_id_seq (db (snd released)) = claims_id_seq d)
      by (rewrite Hrel; reflexivity).
    assert (Hle' : quranNumber data' <= Khuwani.numQurans k) by lia.
    assert (Hfree' : taken (db (snd released))
                       (Khuwani.id k, quranNumber data', siparaNumber data')
                     = false) by (rewrite Eq, Es; exact Hfree).
    split; [apply taken_iff, in_map_iff; exists c0; auto|].
    split; [exact Hfree|].
    split.
    + intros Hn' Hseq.
      pose proof (route_claim_free (db (snd released)) slug body' k data'
                    Hint1 Hid Hk1 Hp' Hle' Hn'
                    ltac:(rewrite Hseq1; exact Hseq) Hfree') as Hout.
      cbv zeta in Hout; fold out in Hout.
      eexists; rewrite Hout; cbn [fst snd db].
      split; [reflexivity|].
      split; [unfold slot_of, sl; simpl; rewrite Eq, Es; reflexivity|].
      split; [reflexivity|].
      split; [simpl; apply in_or_app; right; left; reflexivity|].
      eapply taken_snoc; [reflexivity|].
      unfold slot_of, sl; simpl; rewrite Eq, Es; reflexivity.
    + intros Hbad.
      pose proof (route_claim_fault (db (snd released)) slug body' k data'
                    Hint1 Hid Hk1 Hp' Hle'
                    ltac:(rewrite Hseq1; exact Hbad)) as Hout.
      fold out in Hout; rewrite Hout; split; reflexivity.
  - intros d s me slug body' k data' Hr Hs Hme Hk Hkid Hown Hp' Hle
      sl reset out.
    destruct (reset_claims_run d s me (Khuwani.id k) k Hs Hme Hkid Hown)
      as [Hres Hdb].
    fold reset in Hres, Hdb.
    destruct (khuwani_by_id_some d _ k Hkid) as (Hid & _ & _).
    assert (Hfree : taken (db (snd reset)) sl = false).
    { apply taken_false_iff; intros c Hin Hsl.
      rewrite Hdb in Hin; simpl claims in Hin.
      apply filter_In in Hin; destruct Hin as [_ Hne].
      unfold slot_of, sl in Hsl; injection Hsl as E1 E2 E3.
      rewrite E1, Z.eqb_refl in Hne; discriminate. }
    assert (Hk1 : khuwani_by_slug (db (snd reset)) slug = Some k)
      by (rewrite Hdb; exact Hk).
    assert (Hint1 : numQurans_int4 (db (snd reset))).
    { rewrite Hdb; exact (reachable_numQurans_int4 d Hr). }
    assert (Hseq1 : claims_id_seq (db (snd reset)) = claims_id_seq d)
      by (rewrite Hdb; reflexivity).
    split; [exact Hres|].
    split; [exact Hfree|].
    split.
    + intros Hn' Hseq.
      pose proof (route_claim_free (db (snd reset)) slug body' k data'
                    Hint1 Hid Hk1 Hp' Hle Hn'
                    ltac:(rewrite Hseq1; exact Hseq) Hfree) as Hout.
      cbv zeta in Hout; fold out in Hout.
      eexists; rewrite Hout; cbn [fst snd db].
      split; [reflexivity|].
      split; [reflexivity|].
      split; [reflexivity|].
      split; [simpl; apply in_or_app; right; left; reflexivity|].
      eapply taken_snoc; reflexivity.
    + intros Hbad.
      pose proof (route_claim_fault (db (snd reset)) slug body' k data'
                    Hint1 Hid Hk1 Hp' Hle
                    ltac:(rewrite Hseq1; exact Hbad)) as Hout.
      fold out in Hout; rewrite Hout; split; reflexivity.
Qed.

Lemma release_then_claim_succeeds_witness :
  (exists c,
     fst (run (route_claim Demo.slug (Demo.body 1 5 "Fatima"))
            (db (snd (run (route_unclaim Demo.slug (Demo.body 1 5 "Ahmed"))
                        Demo.claimed))))
     = Ok {| status := 200; payload := ClaimCreated c |}
     /\ Claim.participantName c = Js.lit "Fatima")
  /\ (exists c,
        fst (run (route_claim Demo.slug (Demo.body 1 5 "Fatima"))
               (db (snd (run (route_reset Demo.owner 1) Demo.claimed))))
        = Ok {| status := 200; payload := ClaimCreated c |}
        /\ Claim.participantName c = Js.lit "Fatima").
Proof.
  destruct release_then_claim_succeeds as [Hrelease Hreset].
  split.
  - destruct (Hrelease Demo.claimed Demo.slug (Demo.body 1 5 "Ahmed")
                (Demo.body 1 5 "Fatima")
                (Khuwani.mk 1 1 Demo.slug (Js.lit "Haji Abdul Rehman") 1)
                {| quranNumber := 1; siparaNumber := 5;
                   participantName := Js.lit "Ahmed" |}
                {| quranNumber := 1; siparaNumber := 5;
                   participantName := Js.lit "Fatima" |}
                reachable_demo_claimed eq_refl eq_refl eq_refl eq_refl eq_refl)
      as (_ & H).
    + simpl; lia.
    + destruct (H eq_refl) as (_ & _ & H1 & _).
      destruct H1 as (c & H1 & _ & H2 & _).
      * vm_compute; intuition discriminate.
      * vm_compute; discriminate.
      * exists c; split; [exact H1 | exact H2].
  - destruct (Hreset Demo.claimed Demo.owner 1 Demo.slug
                (Demo.body 1 5 "Fatima")
                (Khuwani.mk 1 1 Demo.slug (Js.lit "Haji Abdul Rehman") 1)
                {| quranNumber := 1; siparaNumber := 5;
                   participantName := Js.lit "Fatima" |}
                reachable_demo_claimed eq_refl)
      as (_ & _ & H1 & _).
    + lia.
    + reflexivity.
    + reflexivity.
    + reflexivity.
    + reflexivity.
    + simpl; lia.
    + destruct H1 as (c & H1 & _ & H2 & _).
      * vm_compute; intuition discriminate.
      * vm_compute; discriminate.
      * exists c; split; [exact H1 | exact H2].
Defined.

(** C6 as stated fails on a name with U+0000: the release of the slot is
    answered 200, the name of the next request passes validation, and the
    claim is answered 500; the slot stays empty. *)
Lemma released_slot_claim_answered_500 :
  let body := {| body_quranNumber := JNumber (JInt 1);
                 body_siparaNumber := JNumber (JInt 5);
                 body_participantName := JString [97; 0; 98]%N |} in
  let released :=
    run (route_unclaim Demo.slug (Demo.body 1 5 "Ahmed")) Demo.claimed in
  let out := run (route_claim Demo.slug body) (db (snd released)) in
  fst released = Ok (ok "Sipara released")
  /\ taken (db (snd released)) (1, 1, 5) = false
  /\ claimBodySchema body
     = inl {| quranNumber := 1; siparaNumber := 5;
              participantName := [97; 0; 98]%N |}
  /\ fst out = Ok (fail 500 "Failed to claim sipara")
  /\ taken (db (snd out)) (1, 1, 5) = false.
Proof.
  cbv zeta; repeat split; reflexivity.
Qed.

(* ===================================================================== *)
(** * The progress figures                                                *)
(* ===================================================================== *)

Lemma get_set (key v : Z) (r : OrganizerDashboard.Record_) (q : Z) :
  OrganizerDashboard.get (OrganizerDashboard.set key v r) q
  = if key =? q then Some v else OrganizerDashboard.get r q.
Proof.
  unfold OrganizerDashboard.get, OrganizerDashboard.set; simpl.
  destruct (key =? q); reflexivity.
Qed.

Lemma claims_of_quran_cons (c : Claim.t) (cs : list Claim.t) (q : Z) :
  claims_of_quran (c :: cs) q
  = (if Claim.quranNumber c =? q then 1 else 0) + claims_of_quran cs q.
Proof.
  unfold claims_of_quran; simpl.
  destruct (Z.eq_dec (Claim.quranNumber c) q) as [E|E].
  - apply Z.eqb_eq in E; rewrite E; lia.
  - apply Z.eqb_neq in E; rewrite E; lia.
Qed.

(** The [forEach] adds to each key the number of claims that carry it. *)
Lemma forEach_counts (cs : list Claim.t) (r : OrganizerDashboard.Record_)
    (q : Z) :
  OrganizerDashboard.or_zero
    (OrganizerDashboard.get
       (fold_left
          (fun r c =>
             OrganizerDashboard.set (Claim.quranNumber c)
               (OrganizerDashboard.or_zero
                  (OrganizerDashboard.get r (Claim.quranNumber c)) + 1) r)
          cs r) q)
  = OrganizerDashboard.or_zero (OrganizerDashboard.get r q)
    + claims_of_quran cs q.
Proof.
  revert r; induction cs as [|c cs IH]; intros r.
  - unfold claims_of_quran; simpl; lia.
  - simpl fold_left; rewrite IH, get_set, claims_of_quran_cons.
    destruct (Z.eqb_spec (Claim.quranNumber c) q) as [->|_];
      cbn [OrganizerDashboard.or_zero]; lia.
Qed.

(** The initialising loop only writes zeros. *)
Lemma init_zero (l : list nat) (r : OrganizerDashboard.Record_) (q : Z) :
  OrganizerDashboard.or_zero (OrganizerDashboard.get r q) = 0 ->
  OrganizerDashboard.or_zero
    (OrganizerDashboard.get
       (fold_left (fun r i => OrganizerDashboard.set (Z.of_nat i) 0 r) l r) q)
  = 0.
Proof.
  revert r; induction l as [|i l IH]; intros r Hr; [exact Hr|].
  simpl fold_left; apply IH; rewrite get_set.
  destruct (Z.of_nat i =? q); [reflexivity | exact Hr].
Qed.

Lemma quranClaimed_counts (n : Z) (cs : list Claim.t) (q : Z) :
  OrganizerDashboard.quranClaimed n cs q = claims_of_quran cs q.
Proof.
  unfold OrganizerDashboard.quranClaimed, OrganizerDashboard.perQuranClaims.
  rewrite forEach_counts, init_zero; reflexivity.
Qed.

Lemma claimedInQuran_counts (cs : list Claim.t) (q : Z) :
  ParticipantView.claimedInQuran cs q = claims_of_quran cs q.
Proof.
  unfold ParticipantView.claimedInQuran.
  induction cs as [|c cs IH]; [reflexivity|].
  rewrite claims_of_quran_cons, <- IH; cbn [filter].
  destruct (Claim.quranNumber c =? q); cbn [List.length]; lia.
Qed.

(** ** Integers as doubles *)

(** [shr_1] halves the mantissa. *)
Lemma shr_1_m (mrs : shr_record) :
  0 <= shr_m mrs -> shr_m (shr_1 mrs) = shr_m mrs / 2.
Proof.
  destruct mrs as [m r s]; cbn [shr_m]; intros Hm.
  destruct m as [|p|p]; [reflexivity | | lia].
  destruct p as [p|p|]; cbn [shr_1 shr_m].
  - rewrite Pos2Z.inj_xI; apply (Z.div_unique _ 2 _ 1); lia.
  - rewrite Pos2Z.inj_xO; apply (Z.div_unique _ 2 _ 0); lia.
  - reflexivity.
Qed.

Lemma iter_shr_1_m (p : positive) (mrs : shr_record) :
  0 <= shr_m mrs ->
  shr_m (iter_pos shr_1 p mrs) = shr_m mrs / 2 ^ Z.pos p.
Proof.
  revert mrs; induction p as [p IH|p IH|]; intros mrs Hm; cbn [iter_pos].
  - assert (H1 : 0 <= shr_m (shr_1 mrs))
      by (rewrite shr_1_m by exact Hm; apply Z.div_pos; lia).
    assert (H2 : 0 <= shr_m (iter_pos shr_1 p (shr_1 mrs)))
      by (rewrite IH by exact H1; apply Z.div_pos; [exact H1|];
          apply Z.pow_pos_nonneg; lia).
    rewrite IH, IH, shr_1_m by assumption.
    assert (Hp : 0 < 2 ^ Z.pos p) by (apply Z.pow_pos_nonneg; lia).
    rewrite !Z.div_div by lia.
    assert (E : 2 ^ Z.pos p~1 = 2 * 2 ^ Z.pos p * 2 ^ Z.pos p).
    { rewrite Pos2Z.inj_xI.
      replace (2 * Z.pos p + 1) with (1 + Z.pos p + Z.pos p) by lia.
      rewrite !Z.pow_add_r by lia; reflexivity. }
    rewrite E; f_equal; lia.
  - assert (H2 : 0 <= shr_m (iter_pos shr_1 p mrs))
      by (rewrite IH by exact Hm; apply Z.div_pos; [exact Hm|];
          apply Z.pow_pos_nonneg; lia).
    rewrite IH, IH by assumption.
    assert (Hp : 0 < 2 ^ Z.pos p) by (apply Z.pow_pos_nonneg; lia).
    rewrite !Z.div_div by lia.
    assert (E : 2 ^ Z.pos p~0 = 2 ^ Z.pos p * 2 ^ Z.pos p).
    { replace (Z.pos p~0) with (Z.pos p + Z.pos p) by lia.
      rewrite !Z.pow_add_r by lia; reflexivity. }
    rewrite E; f_equal.
  - rewrite shr_1_m by exact Hm; reflexivity.
Qed.

Lemma shr_record_of_loc_m (m : Z) (l : location) :
  shr_m (shr_record_of_loc m l) = m.
Proof. destruct l as [|[| |]]; reflexivity. Qed.

(** [shr] divides the mantissa by [2 ^ n]. *)
Lemma shr_m_div (mrs : shr_record) (e n : Z) :
  0 <= shr_m mrs -> 0 <= n ->
  shr_m (fst (shr mrs e n)) = shr_m mrs / 2 ^ n
  /\ snd (shr mrs e n) = e + n.
Proof.
  intros Hm Hn; destruct n as [|p|p]; cbn [shr fst snd]; [| |lia].
  - rewrite Z.div_1_r; split; [reflexivity | lia].
  - split; [apply iter_shr_1_m; exact Hm | reflexivity].
Qed.

(** The number of binary digits. *)
Lemma digits2_pos_spec (p : positive) :
  2 ^ (Z.pos (digits2_pos p) - 1) <= Z.pos p < 2 ^ Z.pos (digits2_pos p).
Proof.
  assert (Hstep : forall d : Z, 0 < d ->
            2 ^ Z.succ d = 2 * 2 ^ d
            /\ 2 ^ (Z.succ d - 1) = 2 * 2 ^ (d - 1)).
  { intros d Hd; split; [apply Z.pow_succ_r; lia|].
    replace (Z.succ d - 1) with (Z.succ (d - 1)) by lia.
    apply Z.pow_succ_r; lia. }
  induction p as [p IH|p IH|]; cbn [digits2_pos].
  - rewrite Pos2Z.inj_succ, (Pos2Z.inj_xI p).
    destruct (Hstep (Z.pos (digits2_pos p)) ltac:(lia)) as [E1 E2].
    rewrite E1, E2; lia.
  - rewrite Pos2Z.inj_succ, (Pos2Z.inj_xO p).
    destruct (Hstep (Z.pos (digits2_pos p)) ltac:(lia)) as [E1 E2].
    rewrite E1, E2; lia.
  - cbn; lia.
Qed.

Lemma digits2_pos_unique (p : positive) (k : Z) :
  2 ^ (k - 1) <= Z.pos p < 2 ^ k -> Z.pos (digits2_pos p) = k.
Proof.
  intros [Hlo Hhi]; pose proof (digits2_pos_spec p) as [Dlo Dhi].
  set (d := Z.pos (digits2_pos p)) in *.
  assert (Hk : 0 < k).
  { destruct (Z.ltb_spec 0 k); [assumption|].
    rewrite (Z.pow_neg_r 2 (k - 1)) in Hlo by lia.
    destruct (Z.eq_dec k 0) as [->|]; [cbn in Hhi; lia|].
    rewrite Z.pow_neg_r in Hhi by lia; lia. }
  destruct (Z.lt_trichotomy d k) as [H|[H|H]]; [|exact H|].
  - assert (2 ^ d <= 2 ^ (k - 1)) by (apply Z.pow_le_mono_r; lia); lia.
  - assert (2 ^ k <= 2 ^ (d - 1)) by (apply Z.pow_le_mono_r; lia); lia.
Qed.

Lemma round_nearest_even_step (m : Z) (l : location) :
  round_nearest_even m l = m \/ round_nearest_even m l = m + 1.
Proof.
  destruct l as [|[| |]]; cbn [round_nearest_even]; auto.
  destruct (Z.even m); auto.
Qed.

(** Rounding a positive mantissa of at least 53 bits, away from the ends of
    the exponent range: the result is finite with a mantissa of 53 bits,
    and its value is the mantissa cut to 53 bits or the next one up. *)
Lemma binary_round_aux_step (mx : positive) (ex : Z) (lx : location) :
  let d := Z.pos (digits2_pos mx) in
  let f := Z.pos mx / 2 ^ (d - 53) in
  53 <= d -> -1074 <= ex -> d + ex <= 1023 ->
  exists m' e',
    binary_round_aux 53 1024 false (Z.pos mx) ex lx = S754_finite false m' e'
    /\ ex + (d - 53) <= e' <= ex + (d - 53) + 1
    /\ 2 ^ 52 <= Z.pos m' < 2 ^ 53
    /\ (Z.pos m' * 2 ^ (e' - ex) = f * 2 ^ (d - 53)
        \/ Z.pos m' * 2 ^ (e' - ex) = (f + 1) * 2 ^ (d - 53)).
Proof.
  intros d f Hd Hex Hmax.
  pose proof (digits2_pos_spec mx) as [Dlo Dhi]; fold d in Dlo, Dhi.
  set (n := d - 53) in *.
  assert (Hn : 0 <= n) by lia.
  assert (H2n : 0 < 2 ^ n) by (apply Z.pow_pos_nonneg; lia).
  assert (Hf : 2 ^ 52 <= f < 2 ^ 53).
  { unfold f; split.
    - apply Z.div_le_lower_bound; [exact H2n|].
      rewrite <- Z.pow_add_r by lia.
      replace (n + 52) with (d - 1) by lia; exact Dlo.
    - apply Z.div_lt_upper_bound; [exact H2n|].
      rewrite <- Z.pow_add_r by lia.
      replace (n + 53) with d by lia; exact Dhi. }
  unfold binary_round_aux, shr_fexp.
  cbn [Zdigits2]; fold d.
  assert (Hfexp : forall k, -1021 <= k -> fexp 53 1024 k = k - 53)
    by (intros k Hk; unfold fexp, emin; lia).
  rewrite (Hfexp (d + ex)) by lia.
  replace (d + ex - 53 - ex) with n by lia.
  destruct (shr_m_div (shr_record_of_loc (Z.pos mx) lx) ex n) as [Hm1 He1];
    [rewrite shr_record_of_loc_m; lia | exact Hn |].
  rewrite shr_record_of_loc_m in Hm1; fold f in Hm1.
  destruct (shr (shr_record_of_loc (Z.pos mx) lx) ex n) as [mrs' e1].
  cbn [fst snd] in Hm1, He1; subst e1; rewrite Hm1.
  set (m1 := round_nearest_even f (loc_of_shr_record mrs')).
  assert (Hm1' : m1 = f \/ m1 = f + 1) by apply round_nearest_even_step.
  assert (Hpos : 0 < m1) by (destruct Hm1' as [->| ->]; lia).
  destruct m1 as [|p1|p1] eqn:Em1; try lia.
  cbn [Zdigits2].
  assert (Hcase : Z.pos p1 < 2 ^ 53 \/ Z.pos p1 = 2 ^ 53)
    by (destruct Hm1' as [->| ->]; lia).
  destruct Hcase as [Hlt|Heq].
  - assert (Hd1 : Z.pos (digits2_pos p1) = 53).
    { apply digits2_pos_unique; change (53 - 1) with 52.
      destruct Hm1' as [E|E]; rewrite E; lia. }
    rewrite Hd1, (Hfexp (53 + (ex + n))) by lia.
    replace (53 + (ex + n) - 53 - (ex + n)) with 0 by lia.
    cbn [shr shr_record_of_loc shr_m].
    destruct (Z.leb_spec (ex + n) (1024 - 53)); [|lia].
    exists p1, (ex + n); split; [reflexivity|].
    split; [lia|].
    split; [destruct Hm1' as [E|E]; rewrite E; lia|].
    replace (ex + n - ex) with n by lia.
    destruct Hm1' as [E|E]; rewrite E; auto.
  - assert (Hd1 : Z.pos (digits2_pos p1) = 54).
    { apply digits2_pos_unique; change (54 - 1) with 53.
      rewrite Heq; split; [lia|].
      apply Z.pow_lt_mono_r; lia. }
    rewrite Hd1, (Hfexp (54 + (ex + n))) by lia.
    replace (54 + (ex + n) - 53 - (ex + n)) with 1 by lia.
    cbn [shr shr_record_of_loc iter_pos].
    rewrite shr_1_m by (cbn [shr_m]; lia).
    cbn [shr_m]; rewrite Heq.
    change (2 ^ 53 / 2) with (Z.pos 4503599627370496).
    destruct (Z.leb_spec (ex + n + 1) (1024 - 53)); [|lia].
    exists 4503599627370496%positive, (ex + n + 1); split; [reflexivity|].
    split; [lia|].
    split; [split; [discriminate | reflexivity]|].
    right.
    replace (ex + n + 1 - ex) with (1 + n) by lia.
    rewrite Z.pow_add_r by lia.
    destruct Hm1' as [E|E]; [rewrite E in Heq; lia|].
    assert (Hf1 : f + 1 = 2 ^ 53) by (rewrite <- Heq; symmetry; exact E).
    rewrite Hf1; change (2 ^ 53) with (4503599627370496 * 2 ^ 1); ring.
Qed.

(** ** The arithmetic of the percentage *)

Lemma div_between (a b q : Z) :
  0 < b -> q * b <= a < (q + 1) * b -> a / b = q.
Proof.
  intros Hb H; symmetry; apply (Z.div_unique a b q (a - q * b)); lia.
Qed.

(** The last step of the percentage: [W / M] is within [B / (2 t)] of
    [100 c / t], and [B] is small against [M]. *)
Lemma rounds_like_the_fraction (W t c M B : Z) :
  0 < t -> 0 <= c -> 0 < M -> 0 < B -> 2 * B <= M ->
  Z.abs (2 * (W * t - 100 * c * M)) < B ->
  let r := (2 * W + M) / (2 * M) in
  let R := round_half_up (100 * c) t in
  ((2 * (100 * c) + t) mod (2 * t) <> 0 -> r = R)
  /\ (r = R \/ r = R - 1).
Proof.
  intros Ht Hc HM HB HBM Herr r R.
  unfold round_half_up in R.
  set (S := 2 * (100 * c) + t) in *.
  set (D := 2 * t) in *.
  pose proof (Z.div_mod S D ltac:(lia)) as Hdiv.
  pose proof (Z.mod_pos_bound S D ltac:(lia)) as Hmod.
  fold R in Hdiv.
  set (s := S mod D) in *.
  set (e := 2 * (W * t - 100 * c * M)) in *.
  assert (Hkey : t * (2 * W + M) = D * R * M + s * M + e).
  { assert (S * M = D * R * M + s * M) by (rewrite Hdiv at 1; ring).
    unfold e; unfold S in H; lia. }
  assert (He : - B < e < B) by lia.
  assert (HsM : 0 <= s * M) by (apply Z.mul_nonneg_nonneg; lia).
  assert (Hcases : s = 0 \/ 1 <= s) by lia.
  assert (Hup : s * M <= (D - 1) * M)
    by (apply Z.mul_le_mono_nonneg_r; lia).
  split.
  - intros Hne; assert (Hs : 1 <= s) by lia.
    assert (Hlow : 1 * M <= s * M) by (apply Z.mul_le_mono_nonneg_r; lia).
    unfold r; apply div_between; [lia|].
    split.
    + apply (Z.mul_le_mono_pos_l _ _ t Ht).
      replace (t * (R * (2 * M))) with (D * R * M) by (unfold D; ring).
      lia.
    + apply (Z.mul_lt_mono_pos_l t _ _ Ht).
      replace (t * ((R + 1) * (2 * M))) with (D * R * M + D * M)
        by (unfold D; ring).
      replace ((D - 1) * M) with (D * M - M) in Hup by ring.
      lia.
  - destruct (Z.le_gt_cases 0 (s * M + e)) as [Hnn|Hneg].
    + left; unfold r; apply div_between; [lia|].
      split.
      * apply (Z.mul_le_mono_pos_l _ _ t Ht).
        replace (t * (R * (2 * M))) with (D * R * M) by (unfold D; ring).
        lia.
      * apply (Z.mul_lt_mono_pos_l t _ _ Ht).
        replace (t * ((R + 1) * (2 * M))) with (D * R * M + D * M)
          by (unfold D; ring).
        replace ((D - 1) * M) with (D * M - M) in Hup by ring.
        lia.
    + right; unfold r; apply div_between; [lia|].
      assert (HDM : M <= D * M).
      { replace M with (1 * M) at 1 by ring.
        apply Z.mul_le_mono_nonneg_r; lia. }
      split.
      * apply (Z.mul_le_mono_pos_l _ _ t Ht).
        replace (t * ((R - 1) * (2 * M))) with (D * R * M - D * M)
          by (unfold D; ring).
        lia.
      * apply (Z.mul_lt_mono_pos_l t _ _ Ht).
        replace (t * ((R - 1 + 1) * (2 * M))) with (D * R * M)
          by (unfold D; ring).
        lia.
Qed.

(** ** The doubles of the computation *)

Lemma digits2_pos_iter_xO (p n : positive) :
  digits2_pos (Pos.iter xO p n) = (digits2_pos p + n)%positive.
Proof.
  induction n as [|n IH] using Pos.peano_ind.
  - simpl; lia.
  - rewrite Pos.iter_succ; simpl; rewrite IH; lia.
Qed.

Lemma pos_iter_xO_value (p n : positive) :
  Z.pos (Pos.iter xO p n) = Z.pos p * 2 ^ Z.pos n.
Proof.
  induction n as [|n IH] using Pos.peano_ind.
  - cbn [Pos.iter]; rewrite (Pos2Z.inj_xO p); change (2 ^ 1) with 2; ring.
  - rewrite Pos.iter_succ, (Pos2Z.inj_xO (Pos.iter xO p n)), IH.
    rewrite Pos2Z.inj_succ, Z.pow_succ_r by lia; ring.
Qed.

Lemma binary_round_aux_exact (m : positive) (e : Z) :
  Z.pos (digits2_pos m) = 53 -> -1074 <= e <= 971 ->
  binary_round_aux 53 1024 false (Z.pos m) e loc_Exact = S754_finite false m e.
Proof.
  intros Hm He.
  assert (Hf : fexp 53 1024 (53 + e) - e = 0) by (unfold fexp, emin; lia).
  unfold binary_round_aux, shr_fexp.
  cbn [Zdigits2 shr_record_of_loc]; rewrite Hm, Hf.
  cbn [shr shr_m loc_of_shr_record round_nearest_even Zdigits2
       shr_record_of_loc].
  rewrite Hm, Hf; cbn [shr shr_m].
  destruct (Z.leb_spec e (1024 - 53)); [reflexivity | lia].
Qed.

(** A positive integer below 2^53 is a double: the mantissa is the integer
    shifted to 53 bits. *)
Lemma of_Z_value (z : Z) :
  1 <= z < 2 ^ 53 ->
  exists m e,
    Number.of_Z z = S754_finite false m e
    /\ -52 <= e <= 0
    /\ 2 ^ 52 <= Z.pos m < 2 ^ 53
    /\ Z.pos m = z * 2 ^ (- e).
Proof.
  intros Hz; destruct z as [|p|p]; try lia.
  pose proof (digits2_pos_spec p) as [Dlo Dhi].
  set (d := Z.pos (digits2_pos p)) in *.
  assert (Hd : 1 <= d <= 53).
  { split; [unfold d; lia|].
    destruct (Z.le_gt_cases d 53) as [H|H]; [exact H|].
    assert (2 ^ 53 <= 2 ^ (d - 1)) by (apply Z.pow_le_mono_r; lia); lia. }
  unfold Number.of_Z, binary_normalize, binary_round.
  unfold fexp, emin, Number.prec, Number.emax.
  fold d; rewrite Z.add_0_r, Z.max_l by lia.
  unfold shl_align.
  destruct (d - 53 - 0) as [|s|s] eqn:E; [|lia|].
  - exists p, 0; split; [apply binary_round_aux_exact; fold d; lia|].
    assert (d = 53) by lia.
    split; [lia|].
    split; [replace 52 with (d - 1) by lia; replace 53 with d by lia; lia|].
    cbn; lia.
  - exists (Pos.iter xO p s), (d - 53).
    assert (Hs : Z.pos s = 53 - d) by lia.
    assert (Hv : Z.pos (Pos.iter xO p s) = Z.pos p * 2 ^ (53 - d))
      by (rewrite pos_iter_xO_value, Hs; reflexivity).
    assert (Hlo : 2 ^ 52 <= Z.pos p * 2 ^ (53 - d)).
    { replace 52 with ((d - 1) + (53 - d)) by lia.
      rewrite Z.pow_add_r by lia.
      apply Z.mul_le_mono_nonneg_r; [apply Z.pow_nonneg; lia | exact Dlo]. }
    assert (Hhi : Z.pos p * 2 ^ (53 - d) < 2 ^ 53).
    { replace 53 with (d + (53 - d)) at 2 by lia.
      rewrite Z.pow_add_r by lia.
      apply Z.mul_lt_mono_pos_r; [apply Z.pow_pos_nonneg; lia | exact Dhi]. }
    split.
    + apply binary_round_aux_exact; [|lia].
      rewrite digits2_pos_iter_xO, Pos2Z.inj_add; fold d; lia.
    + split; [lia|].
      split; [rewrite Hv; lia|].
      rewrite Hv; f_equal; f_equal; lia.
Qed.

(** Rounding stays within one part in 2^52 of the mantissa rounded. *)
Lemma binary_round_aux_close (mx : positive) (ex : Z) (lx : location) :
  53 <= Z.pos (digits2_pos mx) -> -1074 <= ex ->
  Z.pos (digits2_pos mx) + ex <= 1023 ->
  exists m' e',
    binary_round_aux 53 1024 false (Z.pos mx) ex lx = S754_finite false m' e'
    /\ ex <= e' <= ex + (Z.pos (digits2_pos mx) - 53) + 1
    /\ 2 ^ 52 <= Z.pos m' < 2 ^ 53
    /\ Z.abs (Z.pos m' * 2 ^ (e' - ex) - Z.pos mx) * 2 ^ 52 <= Z.pos mx.
Proof.
  intros Hd Hex Hmax.
  destruct (binary_round_aux_step mx ex lx Hd Hex Hmax)
    as (m' & e' & Hrun & He & Hm & Hval).
  exists m', e'; split; [exact Hrun|].
  split; [lia|].
  split; [exact Hm|].
  pose proof (digits2_pos_spec mx) as [Dlo _].
  set (d := Z.pos (digits2_pos mx)) in *.
  set (n := d - 53) in *.
  assert (H2n : 0 < 2 ^ n) by (apply Z.pow_pos_nonneg; lia).
  pose proof (Z.div_mod (Z.pos mx) (2 ^ n) ltac:(lia)) as Hdiv.
  pose proof (Z.mod_pos_bound (Z.pos mx) (2 ^ n) H2n) as Hmod.
  set (f := Z.pos mx / 2 ^ n) in *.
  assert (Hpow : 2 ^ n * 2 ^ 52 <= Z.pos mx).
  { rewrite <- Z.pow_add_r by lia.
    replace (n + 52) with (d - 1) by lia; exact Dlo. }
  assert (Hclose : Z.abs (Z.pos m' * 2 ^ (e' - ex) - Z.pos mx) <= 2 ^ n).
  { destruct Hval as [-> | ->]; lia. }
  eapply Z.le_trans; [|exact Hpow].
  apply Z.mul_le_mono_nonneg_r; [lia | exact Hclose].
Qed.

Lemma digits2_pos_53 (m : positive) :
  2 ^ 52 <= Z.pos m < 2 ^ 53 -> Z.pos (digits2_pos m) = 53.
Proof. intros H; apply digits2_pos_unique; exact H. Qed.

(** The quotient of two doubles with mantissas of 53 bits. *)
Lemma div_close (ma mb : positive) (ea eb : Z) :
  2 ^ 52 <= Z.pos ma < 2 ^ 53 -> 2 ^ 52 <= Z.pos mb < 2 ^ 53 ->
  -52 <= ea <= 0 -> -52 <= eb <= 0 ->
  let e0 := ea - eb - 53 in
  let q0 := Z.pos ma * 2 ^ 53 / Z.pos mb in
  exists mq eq,
    Number.div (S754_finite false ma ea) (S754_finite false mb eb)
    = S754_finite false mq eq
    /\ e0 <= eq <= e0 + 2
    /\ 2 ^ 52 <= Z.pos mq < 2 ^ 53
    /\ Z.abs (Z.pos mq * 2 ^ (eq - e0) - q0) * 2 ^ 52 <= q0
    /\ 2 ^ 52 <= q0 < 2 ^ 54.
Proof.
  intros Hma Hmb Hea Heb e0 q0.
  assert (Hq0 : 2 ^ 52 <= q0 < 2 ^ 54).
  { unfold q0; split.
    - apply Z.div_le_lower_bound; [lia|].
      change (2 ^ 53) with (2 * 2 ^ 52) at 1; nia.
    - apply Z.div_lt_upper_bound; [lia|].
      change (2 ^ 54) with (2 * 2 ^ 53); nia. }
  unfold Number.div, SFdiv, SFdiv_core_binary, Number.prec, Number.emax.
  cbn [Zdigits2 xorb].
  rewrite (digits2_pos_53 ma Hma), (digits2_pos_53 mb Hmb).
  replace (fexp 53 1024 (53 + ea - (53 + eb))) with (ea - eb - 53)
    by (unfold fexp, emin; lia).
  rewrite Z.min_l by lia.
  replace (ea - eb - (ea - eb - 53)) with 53 by lia.
  cbv iota.
  rewrite Z.shiftl_mul_pow2 by lia.
  assert (Hq : fst (Z.div_eucl (Z.pos ma * 2 ^ 53) (Z.pos mb)) = q0)
    by reflexivity.
  destruct (Z.div_eucl (Z.pos ma * 2 ^ 53) (Z.pos mb)) as [q r].
  cbn [fst] in Hq; subst q; fold e0.
  destruct q0 as [|pq|pq] eqn:Eq0; try lia.
  pose proof (digits2_pos_spec pq) as [Dlo Dhi].
  assert (Hd : 53 <= Z.pos (digits2_pos pq) <= 54).
  { split.
    - destruct (Z.le_gt_cases 53 (Z.pos (digits2_pos pq))) as [H|H];
        [exact H|].
      assert (2 ^ Z.pos (digits2_pos pq) <= 2 ^ 52)
        by (apply Z.pow_le_mono_r; lia).
      lia.
    - destruct (Z.le_gt_cases (Z.pos (digits2_pos pq)) 54) as [H|H];
        [exact H|].
      assert (2 ^ 54 <= 2 ^ (Z.pos (digits2_pos pq) - 1))
        by (apply Z.pow_le_mono_r; lia).
      lia. }
  destruct (binary_round_aux_close pq e0 (new_location (Z.pos mb) r))
    as (mq & eq & Hrun & He & Hm & Hclose); [lia | unfold e0; lia
                                            | unfold e0; lia |].
  exists mq, eq; split; [exact Hrun|].
  split; [lia|].
  split; [exact Hm|].
  split; [exact Hclose | exact Hq0].
Qed.

(** The product of two doubles with mantissas of 53 bits. *)
Lemma mul_close (mq mh : positive) (eq eh : Z) :
  2 ^ 52 <= Z.pos mq < 2 ^ 53 -> 2 ^ 52 <= Z.pos mh < 2 ^ 53 ->
  -500 <= eq <= 500 -> -500 <= eh <= 0 ->
  exists mp ep,
    Number.mul (S754_finite false mq eq) (S754_finite false mh eh)
    = S754_finite false mp ep
    /\ eq + eh <= ep
    /\ 2 ^ 52 <= Z.pos mp < 2 ^ 53
    /\ Z.abs (Z.pos mp * 2 ^ (ep - (eq + eh)) - Z.pos mq * Z.pos mh) * 2 ^ 52
       <= Z.pos mq * Z.pos mh.
Proof.
  intros Hmq Hmh Heq Heh.
  unfold Number.mul, SFmul, Number.prec, Number.emax; cbn [xorb].
  pose proof (digits2_pos_spec (mq * mh)) as [Dlo Dhi].
  rewrite Pos2Z.inj_mul in Dlo, Dhi.
  assert (Hprod : 2 ^ 104 <= Z.pos mq * Z.pos mh < 2 ^ 106).
  { change (2 ^ 104) with (2 ^ 52 * 2 ^ 52).
    change (2 ^ 106) with (2 ^ 53 * 2 ^ 53); nia. }
  assert (Hd : 105 <= Z.pos (digits2_pos (mq * mh)) <= 106).
  { split.
    - destruct (Z.le_gt_cases 105 (Z.pos (digits2_pos (mq * mh)))) as [H|H];
        [exact H|].
      assert (2 ^ Z.pos (digits2_pos (mq * mh)) <= 2 ^ 104)
        by (apply Z.pow_le_mono_r; lia).
      lia.
    - destruct (Z.le_gt_cases (Z.pos (digits2_pos (mq * mh))) 106) as [H|H];
        [exact H|].
      assert (2 ^ 106 <= 2 ^ (Z.pos (digits2_pos (mq * mh)) - 1))
        by (apply Z.pow_le_mono_r; lia).
      lia. }
  destruct (binary_round_aux_close (mq * mh) (eq + eh) loc_Exact)
    as (mp & ep & Hrun & He & Hm & Hclose); [lia | lia | lia |].
  exists mp, ep; split; [exact Hrun|].
  split; [lia|].
  split; [exact Hm|].
  rewrite Pos2Z.inj_mul in Hclose; exact Hclose.
Qed.

Lemma of_Z_100 :
  Number.of_Z 100 = S754_finite false 7036874417766400 (-46).
Proof. reflexivity. Qed.

(** [Math.round((c / t) * 100)] in doubles, for [1 <= c <= t < 2^36]: the
    exactly rounded percentage, except that a percentage that ends in .5
    may come out one less. *)
Lemma percent_of_counts (c t : Z) :
  1 <= c <= t -> t < 2 ^ 36 ->
  exists r,
    Number.Math_round
      (Number.mul (Number.div (Number.of_Z c) (Number.of_Z t))
         (Number.of_Z 100)) = Some r
    /\ ((2 * (100 * c) + t) mod (2 * t) <> 0 ->
        r = round_half_up (100 * c) t)
    /\ (r = round_half_up (100 * c) t \/ r = round_half_up (100 * c) t - 1).
Proof.
  intros Hc Ht.
  assert (H36 : 2 ^ 36 < 2 ^ 53) by (apply Z.pow_lt_mono_r; lia).
  destruct (of_Z_value c ltac:(lia)) as (ma & ea & Ea & Hea & Hma & Va).
  destruct (of_Z_value t ltac:(lia)) as (mb & eb & Eb & Heb & Hmb & Vb).
  rewrite Ea, Eb, of_Z_100.
  destruct (div_close ma mb ea eb Hma Hmb Hea Heb)
    as (mq & eq & Eq & Heq & Hmq & Hq & Hq0).
  rewrite Eq.
  set (e0 := ea - eb - 53) in *.
  set (q0 := Z.pos ma * 2 ^ 53 / Z.pos mb) in *.
  set (mh := 7036874417766400%positive).
  assert (Hmh : Z.pos mh = 100 * 2 ^ 46) by reflexivity.
  assert (Hmh' : 2 ^ 52 <= Z.pos mh < 2 ^ 53)
    by (split; [discriminate | reflexivity]).
  (* the quotient is at most twice the first 54 bits *)
  set (T := 2 ^ (eq - e0)) in *.
  assert (HT : 0 < T) by (apply Z.pow_pos_nonneg; lia).
  set (Q := Z.pos mq * T) in *.
  assert (Hqs : Z.abs (Q - q0) <= 3).
  { assert (Z.abs (Q - q0) * 2 ^ 52 < 4 * 2 ^ 52)
      by (change (4 * 2 ^ 52) with (2 ^ 54); lia).
    nia. }
  destruct (mul_close mq mh eq (-46) Hmq Hmh' ltac:(unfold e0 in Heq; lia)
              ltac:(lia))
    as (mp & ep & Ep & Hep & Hmp & Hp).
  rewrite Ep.
  (* the exponents *)
  assert (Hexp : ea <= eb).
  { destruct (Z.le_gt_cases ea eb) as [H|H]; [exact H|].
    assert (2 * 2 ^ (- ea) <= 2 ^ (- eb)).
    { replace (- eb) with (Z.succ (- ea) + (ea - eb - 1)) by lia.
      rewrite Z.pow_add_r, Z.pow_succ_r by lia.
      assert (1 <= 2 ^ (ea - eb - 1))
        by (apply (Z.pow_le_mono_r 2 0); lia).
      assert (0 < 2 ^ (- ea)) by (apply Z.pow_pos_nonneg; lia).
      nia. }
    assert (0 < 2 ^ (- ea)) by (apply Z.pow_pos_nonneg; lia).
    assert (2 * (c * 2 ^ (- ea)) <= t * 2 ^ (- eb)) by nia.
    change (2 ^ 53) with (2 * 2 ^ 52) in Hmb; lia. }
  set (G := 99 - ea + eb).
  set (M := 2 ^ G).
  assert (HG : 99 <= G) by (unfold G; lia).
  assert (HM : 2 ^ 99 <= M) by (apply Z.pow_le_mono_r; lia).
  assert (HM0 : 0 < M) by (apply Z.pow_pos_nonneg; lia).
  set (K := 2 ^ (ep + G)).
  assert (HK : 0 < K) by (apply Z.pow_pos_nonneg; unfold G, e0 in *; lia).
  set (W := Z.pos mp * K).
  (* the product, on the scale of the quotient *)
  assert (HWP : W = Z.pos mp * 2 ^ (ep - (eq + -46)) * T).
  { unfold W, K, T; rewrite <- Z.mul_assoc, <- Z.pow_add_r
      by (unfold e0 in *; lia).
    do 2 f_equal; unfold G, e0; lia. }
  assert (HW : Z.abs (W - Q * Z.pos mh) * 2 ^ 52 <= Q * Z.pos mh).
  { rewrite HWP; unfold Q.
    replace (Z.pos mp * 2 ^ (ep - (eq + -46)) * T - Z.pos mq * T * Z.pos mh)
      with ((Z.pos mp * 2 ^ (ep - (eq + -46)) - Z.pos mq * Z.pos mh) * T)
      by ring.
    rewrite Z.abs_mul, (Z.abs_eq T) by lia.
    replace (Z.pos mq * T * Z.pos mh) with (Z.pos mq * Z.pos mh * T) by ring.
    rewrite <- Z.mul_assoc, (Z.mul_comm T), Z.mul_assoc.
    apply Z.mul_le_mono_nonneg_r; [lia | exact Hp]. }
  (* the exact quotient *)
  set (N := 100 * c * M).
  assert (Hscale : 2 ^ (- ea) * 2 ^ 99 = M * 2 ^ (- eb)).
  { unfold M, G; rewrite <- !Z.pow_add_r by lia; f_equal; lia. }
  assert (Hexact : Z.pos ma * 2 ^ 53 * Z.pos mh * t = N * Z.pos mb).
  { rewrite Va, Vb, Hmh; unfold N.
    change (2 ^ 99) with (2 ^ 53 * 2 ^ 46) in Hscale.
    transitivity (100 * c * t * (2 ^ (- ea) * (2 ^ 53 * 2 ^ 46))); [ring|].
    rewrite Hscale; ring. }
  pose proof (Z.mul_div_le (Z.pos ma * 2 ^ 53) (Z.pos mb) ltac:(lia)) as Hlo.
  pose proof (Z.mul_succ_div_gt (Z.pos ma * 2 ^ 53) (Z.pos mb) ltac:(lia))
    as Hhi.
  fold q0 in Hlo, Hhi.
  assert (Hmht : 0 < Z.pos mh * t) by lia.
  assert (HN : q0 * (Z.pos mh * t) <= N < (q0 + 1) * (Z.pos mh * t)).
  { split.
    - apply (Z.mul_le_mono_pos_r _ _ (Z.pos mb)); [lia|].
      rewrite <- Hexact.
      replace (q0 * (Z.pos mh * t) * Z.pos mb)
        with (Z.pos mb * q0 * (Z.pos mh * t)) by ring.
      replace (Z.pos ma * 2 ^ 53 * Z.pos mh * t)
        with (Z.pos ma * 2 ^ 53 * (Z.pos mh * t)) by ring.
      apply Z.mul_le_mono_nonneg_r; lia.
    - apply (Z.mul_lt_mono_pos_r (Z.pos mb)); [lia|].
      rewrite <- Hexact.
      replace ((q0 + 1) * (Z.pos mh * t) * Z.pos mb)
        with (Z.pos mb * Z.succ q0 * (Z.pos mh * t)) by ring.
      replace (Z.pos ma * 2 ^ 53 * Z.pos mh * t)
        with (Z.pos ma * 2 ^ 53 * (Z.pos mh * t)) by ring.
      apply Z.mul_lt_mono_pos_r; lia. }
  (* the error *)
  assert (HQ55 : Q < 2 ^ 55) by (change (2 ^ 55) with (2 ^ 54 + 2 ^ 54); lia).
  assert (HWs : Z.abs (W - Q * Z.pos mh) <= 8 * Z.pos mh).
  { assert (Z.abs (W - Q * Z.pos mh) * 2 ^ 52 <= 8 * Z.pos mh * 2 ^ 52).
    { eapply Z.le_trans; [exact HW|].
      replace (8 * Z.pos mh * 2 ^ 52) with (2 ^ 55 * Z.pos mh)
        by (change (2 ^ 55) with (8 * 2 ^ 52); ring).
      apply Z.mul_le_mono_nonneg_r; lia. }
    apply (Z.mul_le_mono_pos_r _ _ (2 ^ 52)); [reflexivity | exact H]. }
  assert (Herr : Z.abs (W * t - N) < 13 * (Z.pos mh * t)).
  { replace (W * t - N)
      with ((W - Q * Z.pos mh) * t + (Q - q0) * (Z.pos mh * t)
            + (q0 * (Z.pos mh * t) - N)) by ring.
    assert (E1 : Z.abs ((W - Q * Z.pos mh) * t) <= 8 * (Z.pos mh * t)).
    { rewrite Z.abs_mul, (Z.abs_eq t) by lia.
      replace (8 * (Z.pos mh * t)) with (8 * Z.pos mh * t) by ring.
      apply Z.mul_le_mono_nonneg_r; lia. }
    assert (E2 : Z.abs ((Q - q0) * (Z.pos mh * t)) <= 3 * (Z.pos mh * t)).
    { rewrite Z.abs_mul, (Z.abs_eq (Z.pos mh * t)) by lia.
      apply Z.mul_le_mono_nonneg_r; lia. }
    lia. }
  assert (Hbound : 13 * (Z.pos mh * t) < 2 ^ 93).
  { rewrite Hmh.
    assert (100 * 2 ^ 46 * t < 100 * 2 ^ 46 * 2 ^ 36)
      by (apply Z.mul_lt_mono_pos_l; [reflexivity | exact Ht]).
    change (2 ^ 93) with (2048 * 2 ^ 46 * 2 ^ 36).
    change (2 ^ 46 * 2 ^ 36) with 5902958103587056517120 in *.
    change (2 ^ 46) with 70368744177664 in *.
    change (2 ^ 36) with 68719476736 in *. lia. }
  destruct (rounds_like_the_fraction W t c M (2 ^ 94)) as [Hexactly Hnear];
    [lia | lia | exact HM0 | reflexivity
    | change (2 * 2 ^ 94) with (2 ^ 95);
      assert (2 ^ 95 <= 2 ^ 99) by (apply Z.pow_le_mono_r; lia); lia
    | fold N; change (2 ^ 94) with (2 * 2 ^ 93); lia |].
  (* the exponent of the product is negative *)
  assert (Hneg : ep < 0).
  { destruct (Z.lt_ge_cases ep 0) as [H|H]; [exact H|].
    assert (HKM : M <= K) by (apply Z.pow_le_mono_r; lia).
    assert (HWM : 2 ^ 52 * M <= W)
      by (unfold W; apply Z.mul_le_mono_nonneg; lia).
    assert (HcM : c * M <= t * M) by (apply Z.mul_le_mono_nonneg_r; lia).
    assert (HtM : 1 * M <= t * M) by (apply Z.mul_le_mono_nonneg_r; lia).
    assert (HWt : 2 ^ 52 * M * t <= W * t)
      by (apply Z.mul_le_mono_nonneg_r; lia).
    assert (2 ^ 93 <= M).
    { eapply Z.le_trans; [|exact HM]. apply Z.pow_le_mono_r; lia. }
    unfold N in Herr.
    change (2 ^ 52) with 4503599627370496 in HWt.
    assert (W * t < 101 * (t * M)) by lia.
    lia. }
  cbn [Number.Math_round].
  destruct (Z.leb_spec 0 ep); [lia|].
  eexists; split; [reflexivity|].
  assert (Hr : (2 * Z.pos mp + 2 ^ (- ep)) / 2 ^ (1 - ep)
               = (2 * W + M) / (2 * M)).
  { assert (E1 : 2 ^ (- ep) * K = M).
    { unfold K, M; rewrite <- Z.pow_add_r
        by (unfold G, e0 in *; lia).
      f_equal; lia. }
    assert (E2 : 2 ^ (1 - ep) * K = 2 * M).
    { replace (1 - ep) with (Z.succ (- ep)) by lia.
      rewrite Z.pow_succ_r, <- Z.mul_assoc, E1 by lia; reflexivity. }
    rewrite <- E2.
    replace (2 * W + M) with ((2 * Z.pos mp + 2 ^ (- ep)) * K)
      by (unfold W; rewrite <- E1; ring).
    rewrite Z.div_mul_cancel_r; [reflexivity | | lia].
    assert (0 < 2 ^ (1 - ep)) by (apply Z.pow_pos_nonneg; lia); lia. }
  rewrite Hr; split; [exact Hexactly | exact Hnear].
Qed.

(** For the 31 counts a copy can have, the double computation
    [Math.round((c / 30) * 100)] gives the exactly rounded percentage. *)
Lemma per_copy_table :
  forallb
    (fun c =>
       match Number.Math_round
               (Number.mul (Number.div (Number.of_Z c) (Number.of_Z 30))
                  (Number.of_Z 100))
       with
       | Some r => r =? round_half_up (100 * c) 30
       | None => false
       end)
    (map Z.of_nat (seq 0 31))
  = true.
Proof. vm_compute; reflexivity. Qed.

Lemma per_copy_percent (c : Z) :
  0 <= c <= 30 ->
  Number.Math_round
    (Number.mul (Number.div (Number.of_Z c) (Number.of_Z 30))
       (Number.of_Z 100))
  = Some (round_half_up (100 * c) 30).
Proof.
  intros Hc.
  pose proof per_copy_table as T; rewrite forallb_forall in T.
  specialize (T c).
  destruct (Number.Math_round _) as [r|].
  - f_equal; apply Z.eqb_eq, T.
    apply in_map_iff; exists (Z.to_nat c); split; [lia|].
    apply in_seq; lia.
  - assert (false = true); [|discriminate].
    apply T, in_map_iff; exists (Z.to_nat c); split; [lia|].
    apply in_seq; lia.
Qed.

Lemma totalSiparas_range (n : Z) :
  1 <= n <= int4_max ->
  1 <= OrganizerDashboard.totalSiparas n < 2 ^ 36.
Proof.
  intros Hn; unfold OrganizerDashboard.totalSiparas, int4_max in *.
  change (2 ^ 36) with 68719476736; lia.
Qed.

Lemma totalSiparas_finite (n : Z) :
  1 <= n <= int4_max ->
  exists m e,
    Number.of_Z (OrganizerDashboard.totalSiparas n) = S754_finite false m e.
Proof.
  intros Hn; pose proof (totalSiparas_range n Hn) as Ht.
  assert (H36 : 2 ^ 36 < 2 ^ 53) by reflexivity.
  destruct (of_Z_value (OrganizerDashboard.totalSiparas n)) as (m & e & H & _);
    [lia | exists m, e; exact H].
Qed.

(** The organizer's figure for [c] claims on [n] copies. *)
Lemma organizer_percent (n : Z) (cs : list Claim.t) :
  1 <= n <= int4_max ->
  OrganizerDashboard.claimedCount cs <= OrganizerDashboard.totalSiparas n ->
  let exact := round_half_up (100 * OrganizerDashboard.claimedCount cs)
                 (OrganizerDashboard.totalSiparas n) in
  exists r,
    OrganizerDashboard.percent n cs = Some r
    /\ ((2 * (100 * OrganizerDashboard.claimedCount cs)
         + OrganizerDashboard.totalSiparas n)
        mod (2 * OrganizerDashboard.totalSiparas n) <> 0 ->
        r = exact)
    /\ (r = exact \/ r = exact - 1).
Proof.
  intros Hn Hle exact.
  pose proof (totalSiparas_range n Hn) as Ht.
  unfold OrganizerDashboard.percent, OrganizerDashboard.progress.
  destruct (Z.ltb_spec 0 (OrganizerDashboard.totalSiparas n)); [|lia].
  set (t := OrganizerDashboard.totalSiparas n) in *.
  set (c := OrganizerDashboard.claimedCount cs) in *.
  assert (Hc : 0 <= c) by (unfold c, OrganizerDashboard.claimedCount; lia).
  destruct (Z.eq_dec c 0) as [E|E].
  - destruct (totalSiparas_finite n Hn) as (m & e & Hfin).
    fold t in Hfin; rewrite E, Hfin.
    exists 0; split; [reflexivity|].
    assert (Hz : exact = 0).
    { unfold exact; rewrite E; unfold round_half_up.
      apply Z.div_small; lia. }
    rewrite Hz; split; [reflexivity | left; reflexivity].
  - exact (percent_of_counts c t ltac:(lia) (proj2 Ht)).
Qed.

(** C7, as the code has it.  The views count, for each copy, the claims
    that carry its number and show the count over 30.  The participant's
    view shows [Math.round((claimedInQuran / 30) * 100)]: for the counts
    0..30 of one copy this is the exactly rounded percentage.  The
    organizer's card shows
    [Math.round((claimedCount / (numQurans * 30)) * 100)], evaluated in
    binary64: for a count of copies between 1 and 2147483647 and at most 30
    claims a copy it is the exactly rounded percentage whenever the
    percentage does not end in .5, and otherwise that or one less.  With no
    claim both show 0.  The divisor is never zero: [numQurans * 30] is
    positive, passes the guard and is a positive finite double.  Two copies
    with claims (1,1), (1,2), (2,1) show 5 overall and 7 for the first
    copy. *)
Theorem progress_projection :
  (forall n cs q,
     OrganizerDashboard.quranClaimed n cs q = claims_of_quran cs q)
  /\ (forall cs q, ParticipantView.claimedInQuran cs q = claims_of_quran cs q)
  /\ (forall n cs,
        1 <= n <= int4_max ->
        Z.of_nat (List.length cs) <= n * 30 ->
        let exact := round_half_up (100 * Z.of_nat (List.length cs)) (n * 30)
        in
        exists r,
          OrganizerDashboard.percent n cs = Some r
          /\ ((2 * (100 * Z.of_nat (List.length cs)) + n * 30)
              mod (2 * (n * 30)) <> 0 ->
              r = exact)
          /\ (r = exact \/ r = exact - 1))
  /\ (forall cs q,
        claims_of_quran cs q <= 30 ->
        ParticipantView.percent cs q
        = Some (round_half_up (100 * claims_of_quran cs q) 30))
  /\ (forall n, 1 <= n <= int4_max -> OrganizerDashboard.percent n [] = Some 0)
  /\ (forall n cs q,
        claims_of_quran cs q = 0 ->
        ParticipantView.percent cs q = Some 0
        /\ OrganizerDashboard.quranClaimed n cs q = 0)
  /\ (forall n,
        1 <= n <= int4_max ->
        0 < OrganizerDashboard.totalSiparas n
        /\ exists m e,
             Number.of_Z (OrganizerDashboard.totalSiparas n)
             = S754_finite false m e)
  /\ OrganizerDashboard.percent 2 Demo.three_claims = Some 5
  /\ ParticipantView.percent Demo.three_claims 1 = Some 7.
Proof.
  assert (Hpart : forall cs q,
            ParticipantView.percent cs q
            = Number.Math_round
                (Number.mul
                   (Number.div (Number.of_Z (claims_of_quran cs q))
                      (Number.of_Z 30))
                   (Number.of_Z 100))).
  { intros cs q; unfold ParticipantView.percent.
    rewrite claimedInQuran_counts; reflexivity. }
  assert (Hnonneg : forall cs q, 0 <= claims_of_quran cs q)
    by (intros; unfold claims_of_quran; lia).
  split; [exact quranClaimed_counts|].
  split; [exact claimedInQuran_counts|].
  split; [exact organizer_percent|].
  split.
  { intros cs q Hle; rewrite Hpart; apply per_copy_percent.
    split; [apply Hnonneg | exact Hle]. }
  split.
  { intros n Hn.
    destruct (totalSiparas_finite n Hn) as [m [e Hfin]].
    unfold OrganizerDashboard.percent, OrganizerDashboard.progress.
    destruct (Z.ltb_spec 0 (OrganizerDashboard.totalSiparas n)).
    - rewrite Hfin; reflexivity.
    - reflexivity. }
  split.
  { intros n cs q Hz; split.
    - rewrite Hpart, Hz; reflexivity.
    - rewrite quranClaimed_counts; exact Hz. }
  split.
  { intros n Hn; split; [|apply totalSiparas_finite; exact Hn].
    unfold OrganizerDashboard.totalSiparas; lia. }
  split; vm_compute; reflexivity.
Qed.

Lemma progress_projection_witness :
  OrganizerDashboard.percent 1 [] = Some 0
  /\ 0 < OrganizerDashboard.totalSiparas 1
  /\ ParticipantView.percent Demo.three_claims 2 = Some 3
  /\ OrganizerDashboard.percent 2 Demo.three_claims
     = Some (round_half_up (100 * 3) (2 * 30)).
Proof.
  destruct progress_projection
    as (_ & _ & Horganizer & Hexact & Hzero & _ & Hsafe & _).
  split; [apply Hzero; unfold int4_max; lia|].
  split; [apply Hsafe; unfold int4_max; lia|].
  split.
  - rewrite Hexact; [reflexivity|].
    unfold claims_of_quran; simpl; lia.
  - destruct (Horganizer 2 Demo.three_claims) as (r & Hr & Hsame & _).
    + unfold int4_max; lia.
    + simpl; lia.
    + rewrite Hr; f_equal; apply Hsame.
      vm_compute; discriminate.
Defined.

(** C7 as stated fails on the organizer's card where the percentage ends in
    .5: 69 claims on 4 copies are 57.5 percent, which rounds to 58; the
    doubles give 57.49999999999999 and the card shows 57. *)
Lemma organizer_percent_tie :
  OrganizerDashboard.percent 4 (repeat (Claim.mk 1 1 1 1 []) 69) = Some 57
  /\ round_half_up (100 * 69) (4 * 30) = 58.
Proof. split; vm_compute; reflexivity. Qed.

(* ===================================================================== *)
(** * generateSlug                                                        *)
(* ===================================================================== *)

Lemma is_hyphen_eq (c : N) : Slug.is_hyphen c = true <-> c = Slug.hyphen.
Proof. unfold Slug.is_hyphen; apply N.eqb_eq. Qed.

Lemma single_hyphens_cons2 (a b : N) (t : Js.str) :
  single_hyphens (a :: b :: t)
  = negb (Slug.is_hyphen a && Slug.is_hyphen b) && single_hyphens (b :: t).
Proof. reflexivity. Qed.

(** [replace(/-+/g, "-")] leaves single hyphens; inside a run it goes on
    with a character that is not a hyphen. *)
Lemma replace_runs_single_hyphens (s : Js.str) (in_run : bool) :
  single_hyphens (Slug.replace_runs Slug.is_hyphen Slug.hyphen in_run s) = true
  /\ (in_run = true ->
      starts_with_hyphen
        (Slug.replace_runs Slug.is_hyphen Slug.hyphen in_run s) = false).
Proof.
  revert in_run; induction s as [|c s IH]; intros in_run.
  - split; [reflexivity | intros _; reflexivity].
  - cbn [Slug.replace_runs].
    destruct (Slug.is_hyphen c) eqn:Ec.
    + destruct in_run.
      * apply IH.
      * split; [|discriminate].
        destruct (IH true) as [H1 H2]; specialize (H2 eq_refl).
        destruct (Slug.replace_runs Slug.is_hyphen Slug.hyphen true s)
          as [|b t]; [reflexivity|].
        rewrite single_hyphens_cons2, H1.
        cbn [starts_with_hyphen] in H2; rewrite H2, andb_false_r.
        reflexivity.
    + split; [|intros _; cbn [starts_with_hyphen]; exact Ec].
      destruct (IH false) as [H1 _].
      destruct (Slug.replace_runs Slug.is_hyphen Slug.hyphen false s)
        as [|b t]; [reflexivity|].
      rewrite single_hyphens_cons2, H1, Ec; reflexivity.
Qed.

Lemma single_hyphens_tail (c : N) (s : Js.str) :
  single_hyphens (c :: s) = true -> single_hyphens s = true.
Proof.
  destruct s as [|b t]; [reflexivity|].
  rewrite single_hyphens_cons2; intros H; apply andb_true_iff in H; tauto.
Qed.

Lemma single_hyphens_snoc (s : Js.str) (a b : N) :
  single_hyphens (s ++ [a]) = true ->
  Slug.is_hyphen a && Slug.is_hyphen b = false ->
  single_hyphens ((s ++ [a]) ++ [b]) = true.
Proof.
  induction s as [|x s IH]; intros H Hab.
  - cbn [app]; rewrite single_hyphens_cons2, Hab; reflexivity.
  - cbn [app] in *.
    destruct (s ++ [a]) as [|y t] eqn:E; [destruct s; discriminate|].
    cbn [app]; rewrite single_hyphens_cons2 in *.
    apply andb_true_iff in H; destruct H as [H1 H2].
    rewrite H1; cbn [andb].
    apply (IH H2 Hab).
Qed.

Lemma single_hyphens_rev (s : Js.str) :
  single_hyphens s = true -> single_hyphens (rev s) = true.
Proof.
  induction s as [|a s IH]; intros H; [reflexivity|].
  pose proof (single_hyphens_tail a s H) as Ht.
  specialize (IH Ht); cbn [rev].
  destruct s as [|b t]; [reflexivity|].
  cbn [rev] in *.
  apply single_hyphens_snoc; [exact IH|].
  rewrite single_hyphens_cons2 in H.
  apply andb_true_iff in H; destruct H as [H _].
  apply negb_true_iff in H; rewrite andb_comm; exact H.
Qed.

(** Where hyphens are single, dropping one at the front drops them all. *)
Lemma drop_leading_hyphen_all (s : Js.str) :
  single_hyphens s = true ->
  Slug.drop_leading_hyphen s = SlugSpec.drop_hyphens s
  /\ single_hyphens (Slug.drop_leading_hyphen s) = true.
Proof.
  destruct s as [|a s]; intros H; [split; reflexivity|].
  cbn [Slug.drop_leading_hyphen SlugSpec.drop_hyphens].
  destruct (Slug.is_hyphen a) eqn:Ea; [|split; [reflexivity | exact H]].
  split; [|exact (single_hyphens_tail a s H)].
  destruct s as [|b t]; [reflexivity|].
  rewrite single_hyphens_cons2, Ea in H; cbn [andb] in H.
  apply andb_true_iff in H; destruct H as [H _]; apply negb_true_iff in H.
  cbn [SlugSpec.drop_hyphens]; rewrite H; reflexivity.
Qed.

Lemma strip_one_hyphen_trims (s : Js.str) :
  single_hyphens s = true ->
  Slug.strip_one_hyphen s = SlugSpec.trim_hyphens s.
Proof.
  intros H; unfold Slug.strip_one_hyphen, SlugSpec.trim_hyphens.
  destruct (drop_leading_hyphen_all s H) as [E1 H1].
  destruct (drop_leading_hyphen_all (rev (Slug.drop_leading_hyphen s))
              (single_hyphens_rev _ H1)) as [E2 _].
  rewrite E2, E1; reflexivity.
Qed.

Lemma forallb_firstn {A} (p : A -> bool) (n : nat) (l : list A) :
  forallb p l = true -> forallb p (firstn n l) = true.
Proof.
  revert l; induction n as [|n IH]; intros [|a l]; simpl; auto.
  intros H; apply andb_true_iff in H; destruct H as [-> H]; simpl; auto.
Qed.

Lemma random_suffix (r : Js.str) :
  Slug.is_random36 r = true ->
  (List.length (Slug.random r) <= 5)%nat
  /\ forallb Slug.is_base36 (Slug.random r) = true.
Proof.
  intros H; unfold Slug.random, Js.substring.
  split; [apply firstn_le_length|].
  apply forallb_firstn.
  destruct r as [|a [|b [|d ds]]]; try reflexivity.
  unfold Slug.is_random36 in H.
  destruct a as [|pa]; [discriminate|].
  repeat (destruct pa as [pa|pa|]; try discriminate).
  destruct b as [|pb]; [discriminate|].
  repeat (destruct pb as [pb|pb|]; try discriminate).
  exact H.
Qed.

Lemma kept_iff (c : N) :
  Slug.kept c = true
  <-> (97 <= c <= 122 \/ 48 <= c <= 57 \/ Js.is_space c = true
       \/ c = Slug.hyphen)%N.
Proof.
  unfold Slug.kept.
  rewrite !orb_true_iff, !andb_true_iff, !N.leb_le, is_hyphen_eq; tauto.
Qed.

Lemma In_replace_runs (p : N -> bool) (by_ : N) (s : Js.str) (in_run : bool)
    (c : N) :
  In c (Slug.replace_runs p by_ in_run s) ->
  c = by_ \/ (In c s /\ p c = false).
Proof.
  revert in_run; induction s as [|x s IH]; intros in_run; [intros []|].
  cbn [Slug.replace_runs].
  destruct (p x) eqn:Ex.
  - destruct in_run.
    + intros H; destruct (IH true H) as [->|[H1 H2]];
        [left; reflexivity | right; split; [right; exact H1 | exact H2]].
    + intros [<-|H]; [left; reflexivity|].
      destruct (IH true H) as [->|[H1 H2]];
        [left; reflexivity | right; split; [right; exact H1 | exact H2]].
  - intros [<-|H]; [right; split; [left; reflexivity | exact Ex]|].
    destruct (IH false H) as [->|[H1 H2]];
      [left; reflexivity | right; split; [right; exact H1 | exact H2]].
Qed.

Lemma In_drop_hyphens (s : Js.str) (c : N) :
  In c (SlugSpec.drop_hyphens s) -> In c s.
Proof.
  induction s as [|x s IH]; [intros []|].
  cbn [SlugSpec.drop_hyphens].
  destruct (Slug.is_hyphen x); [intros H; right; apply IH, H | auto].
Qed.

Lemma In_trim_hyphens (s : Js.str) (c : N) :
  In c (SlugSpec.trim_hyphens s) -> In c s.
Proof.
  unfold SlugSpec.trim_hyphens; intros H.
  apply in_rev, In_drop_hyphens, in_rev, In_drop_hyphens in H; exact H.
Qed.

Lemma drop_hyphens_head (s : Js.str) :
  starts_with_hyphen (SlugSpec.drop_hyphens s) = false.
Proof.
  induction s as [|x s IH]; [reflexivity|].
  cbn [SlugSpec.drop_hyphens].
  destruct (Slug.is_hyphen x) eqn:E; [exact IH | exact E].
Qed.

Lemma In_drop_leading_hyphen (s : Js.str) (c : N) :
  In c (Slug.drop_leading_hyphen s) -> In c s.
Proof.
  destruct s as [|x s]; [intros []|]; cbn [Slug.drop_leading_hyphen].
  destruct (Slug.is_hyphen x); [intros H; right; exact H | auto].
Qed.



(** ** Runs *)

(** The code's replacement of runs is the collapse of the description. *)
Lemma replace_runs_collapse_both (p : N -> bool) (s : Js.str) :
  Slug.replace_runs p Slug.hyphen false s = SlugSpec.collapse p s
  /\ (forall c, p c = true ->
        SlugSpec.collapse p (c :: s)
        = Slug.hyphen :: Slug.replace_runs p Slug.hyphen true s).
Proof.
  induction s as [|c' s IH]; [split; [reflexivity|]|].
  - intros c Hc; cbn [SlugSpec.collapse Slug.replace_runs]; rewrite Hc.
    reflexivity.
  - destruct IH as [IHa IHb]; split.
    + cbn [Slug.replace_runs]; destruct (p c') eqn:Ec'.
      * rewrite (IHb c' Ec'); reflexivity.
      * cbn [SlugSpec.collapse]; rewrite Ec', IHa; reflexivity.
    + intros c Hc.
      change (SlugSpec.collapse p (c :: c' :: s))
        with (if p c
              then if p c' then SlugSpec.collapse p (c' :: s)
                   else Slug.hyphen :: SlugSpec.collapse p (c' :: s)
              else c :: SlugSpec.collapse p (c' :: s)).
      rewrite Hc; cbn [Slug.replace_runs]; destruct (p c') eqn:Ec'.
      * exact (IHb c' Ec').
      * cbn [SlugSpec.collapse]; rewrite Ec', IHa; reflexivity.
Qed.

Lemma replace_runs_collapse (p : N -> bool) (s : Js.str) :
  Slug.replace_runs p Slug.hyphen false s = SlugSpec.collapse p s.
Proof. exact (proj1 (replace_runs_collapse_both p s)). Qed.

(** Inside a run the rest of the run is skipped. *)
Lemma replace_runs_skip (p : N -> bool) (w v : Js.str) :
  Forall (fun c => p c = true) w ->
  Slug.replace_runs p Slug.hyphen true (w ++ v)
  = Slug.replace_runs p Slug.hyphen true v.
Proof.
  induction 1 as [|c w Hc _ IH]; [reflexivity|].
  cbn [app Slug.replace_runs]; rewrite Hc; exact IH.
Qed.

(** After a run, a string that does not go on with the run is treated as
    at the start. *)
Lemma replace_runs_resume (p : N -> bool) (v : Js.str) :
  (forall c v', v = c :: v' -> p c = false) ->
  Slug.replace_runs p Slug.hyphen true v
  = Slug.replace_runs p Slug.hyphen false v.
Proof.
  destruct v as [|c v']; [reflexivity|].
  intros H; cbn [Slug.replace_runs]; rewrite (H c v' eq_refl); reflexivity.
Qed.

Lemma replace_runs_app (p : N -> bool) (u x : Js.str) (in_run : bool) :
  (u = [] -> in_run = false) ->
  (forall u' c, u = u' ++ [c] -> p c = false) ->
  Slug.replace_runs p Slug.hyphen in_run (u ++ x)
  = Slug.replace_runs p Slug.hyphen in_run u
    ++ Slug.replace_runs p Slug.hyphen false x.
Proof.
  revert in_run; induction u as [|c u IH]; intros in_run Hstart Hend.
  - rewrite (Hstart eq_refl); reflexivity.
  - assert (Hnext : u = [] -> p c = false)
      by (intros ->; exact (Hend [] c eq_refl)).
    assert (Hend' : forall u' c0, u = u' ++ [c0] -> p c0 = false)
      by (intros u' c0 ->; exact (Hend (c :: u') c0 eq_refl)).
    cbn [app Slug.replace_runs]; destruct (p c) eqn:Ec.
    + rewrite (IH true) by (assumption || (intros E; rewrite Hnext in Ec;
                                           [discriminate | exact E])).
      destruct in_run; reflexivity.
    + rewrite (IH false) by (assumption || reflexivity); reflexivity.
Qed.

(** A run between two strings that are not part of it leaves exactly one
    hyphen. *)
Lemma replace_runs_run (p : N -> bool) (u w v : Js.str) :
  w <> [] -> Forall (fun c => p c = true) w ->
  (forall u' c, u = u' ++ [c] -> p c = false) ->
  (forall c v', v = c :: v' -> p c = false) ->
  Slug.replace_runs p Slug.hyphen false (u ++ w ++ v)
  = Slug.replace_runs p Slug.hyphen false u
    ++ [Slug.hyphen] ++ Slug.replace_runs p Slug.hyphen false v.
Proof.
  intros Hw Hrun Hu Hv.
  rewrite replace_runs_app by (reflexivity || exact Hu); f_equal.
  destruct w as [|c w]; [congruence|].
  inversion Hrun as [|? ? Hc Hrest]; subst.
  cbn [app Slug.replace_runs]; rewrite Hc.
  rewrite replace_runs_skip by exact Hrest.
  rewrite replace_runs_resume by exact Hv; reflexivity.
Qed.

(** A string without a character of the class stays as it is. *)
Lemma replace_runs_none (p : N -> bool) (s : Js.str) (in_run : bool) :
  Forall (fun c => p c = false) s ->
  Slug.replace_runs p Slug.hyphen in_run s = s.
Proof.
  intros H; revert in_run; induction H as [|c s Hc _ IH]; intros in_run;
    [reflexivity|].
  cbn [Slug.replace_runs]; rewrite Hc, IH; reflexivity.
Qed.

(** C9, as the code has it.  [generateSlug] lower-cases the name, strips
    the characters outside [[a-z0-9\s-]] (any white space is kept, not only
    the space), collapses the white-space runs to single hyphens, then the
    runs of hyphens to single hyphens, removes the hyphens at the two ends,
    and appends a hyphen and the suffix: the first five characters after
    ["0."] of the random number written in base 36, at most five base-36
    digits.  Collapsing is what the code's [replace] does: a run between
    two strings that are not part of it leaves exactly one hyphen, and a
    string without a character of the class stays as it is.  The part
    before the suffix consists of lower-case letters, digits and hyphens,
    has no two hyphens in a row and no hyphen at either end. *)
Theorem generateSlug_shape (toLowerCase : Js.str -> Js.str)
    (random36 name : Js.str) :
  Slug.is_random36 random36 = true ->
  let stripped := filter Slug.kept (toLowerCase name) in
  let base :=
    SlugSpec.trim_hyphens
      (SlugSpec.collapse Slug.is_hyphen
         (SlugSpec.collapse_whitespace stripped)) in
  let suffix := firstn 5 (skipn 2 random36) in
  Slug.generateSlug toLowerCase random36 name
  = base ++ [Slug.hyphen] ++ suffix
  /\ (forall c,
        In c stripped
        <-> In c (toLowerCase name)
            /\ (97 <= c <= 122 \/ 48 <= c <= 57 \/ Js.is_space c = true
                \/ c = Slug.hyphen)%N)
  /\ (forall p u w v,
        w <> [] -> Forall (fun c => p c = true) w ->
        (forall u' c, u = u' ++ [c] -> p c = false) ->
        (forall c v', v = c :: v' -> p c = false) ->
        Slug.replace_runs p Slug.hyphen false (u ++ w ++ v)
        = Slug.replace_runs p Slug.hyphen false u
          ++ [Slug.hyphen] ++ Slug.replace_runs p Slug.hyphen false v)
  /\ (forall p s,
        Forall (fun c => p c = false) s ->
        Slug.replace_runs p Slug.hyphen false s = s)
  /\ (forall c,
        In c base -> (97 <= c <= 122 \/ 48 <= c <= 57 \/ c = Slug.hyphen)%N)
  /\ single_hyphens base = true
  /\ starts_with_hyphen base = false
  /\ starts_with_hyphen (rev base) = false
  /\ (List.length suffix <= 5)%nat
  /\ forallb Slug.is_base36 suffix = true.
Proof.
  intros Hr stripped base suffix.
  destruct (random_suffix random36 Hr) as [Hlen Hdig].
  assert (Hcode : base = Slug.base toLowerCase name).
  { unfold base, Slug.base, SlugSpec.collapse_whitespace; fold stripped.
    rewrite <- !replace_runs_collapse.
    symmetry; apply strip_one_hyphen_trims, replace_runs_single_hyphens. }
  split; [rewrite Hcode; reflexivity|].
  split.
  { intros c; unfold stripped; rewrite filter_In, kept_iff; tauto. }
  split; [exact replace_runs_run|].
  split; [intros p s H; exact (replace_runs_none p s false H)|].
  split.
  { intros c Hc; rewrite Hcode in Hc.
    unfold Slug.base, Slug.strip_one_hyphen in Hc.
    apply in_rev, In_drop_leading_hyphen, in_rev, In_drop_leading_hyphen
      in Hc.
    apply In_replace_runs in Hc.
    destruct Hc as [->|[Hc _]]; [right; right; reflexivity|].
    apply In_replace_runs in Hc.
    destruct Hc as [->|[Hc Hns]]; [right; right; reflexivity|].
    apply filter_In in Hc; destruct Hc as [_ Hk].
    apply kept_iff in Hk; destruct Hk as [H|[H|[H|H]]]; auto; congruence. }
  split.
  { rewrite Hcode; unfold Slug.base, Slug.strip_one_hyphen.
    apply single_hyphens_rev.
    apply drop_leading_hyphen_all, single_hyphens_rev.
    apply drop_leading_hyphen_all, replace_runs_single_hyphens. }
  split.
  { unfold base, SlugSpec.trim_hyphens.
    set (t := SlugSpec.drop_hyphens
                (SlugSpec.collapse Slug.is_hyphen
                   (SlugSpec.collapse_whitespace stripped))).
    assert (Ht : starts_with_hyphen t = false) by apply drop_hyphens_head.
    clearbody t.
    (* what is dropped at the end of [t] leaves its first character *)
    induction t as [|x t IH] using rev_ind; [reflexivity|].
    rewrite rev_app_distr; cbn [rev app SlugSpec.drop_hyphens].
    destruct (Slug.is_hyphen x) eqn:Ex.
    - apply IH; destruct t; [reflexivity | exact Ht].
    - cbn [rev]; rewrite rev_involutive.
      destruct t; [cbn; exact Ex | exact Ht]. }
  split.
  { unfold base, SlugSpec.trim_hyphens; rewrite rev_involutive.
    apply drop_hyphens_head. }
  split; [exact Hlen | exact Hdig].
Qed.

Lemma generateSlug_shape_witness :
  Slug.generateSlug Slug.ascii_toLowerCase (Js.lit "0.4fzyo82mvyr")
    (Js.lit "Haji  Abdul - Rehman!")
  = Js.lit "haji-abdul-rehman-4fzyo".
Proof.
  rewrite (proj1 (generateSlug_shape Slug.ascii_toLowerCase
                    (Js.lit "0.4fzyo82mvyr") (Js.lit "Haji  Abdul - Rehman!")
                    eq_refl)).
  reflexivity.
Defined.

(** C9 as stated fails on three counts.  A run of hyphens in the name
    becomes one hyphen, which the description does not say; a tab is white
    space and becomes a hyphen, where the description strips it; and the
    suffix is shorter than five characters when the random number has fewer
    base-36 digits, as 0.5, written ["0.i"]. *)
Lemma generateSlug_differs_from_description :
  Slug.generateSlug Slug.ascii_toLowerCase (Js.lit "0.4fzyo82mvyr")
    (Js.lit "a--b")
  = Js.lit "a-b-4fzyo"
  /\ SlugSpec.generateSlug Slug.ascii_toLowerCase (Js.lit "4fzyo")
       (Js.lit "a--b")
     = Js.lit "a--b-4fzyo"
  /\ Slug.generateSlug Slug.ascii_toLowerCase (Js.lit "0.4fzyo82mvyr")
       [97; 9; 98]%N
     = Js.lit "a-b-4fzyo"
  /\ SlugSpec.generateSlug Slug.ascii_toLowerCase (Js.lit "4fzyo")
       [97; 9; 98]%N
     = Js.lit "ab-4fzyo"
  /\ Slug.is_random36 (Js.lit "0.i") = true
  /\ Slug.generateSlug Slug.ascii_toLowerCase (Js.lit "0.i") (Js.lit "x")
     = Js.lit "x-i"
  /\ ~ (exists suffix,
          List.length suffix = 5%nat
          /\ Slug.generateSlug Slug.ascii_toLowerCase (Js.lit "0.i")
               (Js.lit "x")
             = SlugSpec.generateSlug Slug.ascii_toLowerCase suffix
                 (Js.lit "x"))
  /\ ~ (exists suffix,
          List.length suffix = 5%nat
          /\ Slug.generateSlug Slug.ascii_toLowerCase
               (Js.lit "0.4fzyo82mvyr") (Js.lit "a--b")
             = SlugSpec.generateSlug Slug.ascii_toLowerCase suffix
                 (Js.lit "a--b")).
Proof.
  repeat split; try reflexivity.
  - intros [suffix [Hlen Heq]].
    apply (f_equal (@List.length N)) in Heq.
    unfold SlugSpec.generateSlug in Heq; rewrite !length_app, Hlen in Heq.
    vm_compute in Heq; discriminate.
  - intros [suffix [Hlen Heq]].
    apply (f_equal (@List.length N)) in Heq.
    unfold SlugSpec.generateSlug in Heq; rewrite !length_app, Hlen in Heq.
    vm_compute in Heq; discriminate.
Qed.

(* ===================================================================== *)
(** * The participant name                                                *)
(* ===================================================================== *)

Lemma trimStart_length (s : Js.str) :
  (List.length (Js.trimStart s) <= List.length s)%nat.
Proof.
  induction s as [|c s IH]; simpl; [lia|].
  destruct (Js.is_space c); simpl; lia.
Qed.

Lemma trim_length (s : Js.str) :
  (List.length (Js.trim s) <= List.length s)%nat.
Proof.
  unfold Js.trim, Js.trimEnd; rewrite length_rev.
  pose proof (trimStart_length (rev (Js.trimStart s))) as H1.
  pose proof (trimStart_length s) as H2.
  rewrite length_rev in H1; lia.
Qed.

(** What the schema lets through is at most 100 code units long. *)
Lemma parsed_name_at_most_100 (body : ClaimBody) (data : ClaimData) :
  claimBodySchema body = inl data ->
  Z.of_nat (List.length (participantName data)) <= 100.
Proof.
  intros H; apply claimBodySchema_inl in H.
  destruct H as (_ & _ & _ & _ & sent & _ & -> & Hlen).
  pose proof (trim_length sent); lia.
Qed.

(** The empty string is refused, and nothing is stored. *)
Lemma empty_name_rejected (d : DB) (slug : Js.str) (q s : Json)
    (k : Khuwani.t) :
  khuwani_by_slug d slug = Some k ->
  exists issue,
    run (route_claim slug
           {| body_quranNumber := q; body_siparaNumber := s;
              body_participantName := JString [] |}) d
    = (Ok {| status := 400; payload := Msg false (ZodMessage issue) |},
       {| db := d; trace := [GetKhuwaniBySlug slug] |}).
Proof.
  intros Hk.
  unfold run, route_claim, try_catch, bind.
  rewrite (getKhuwaniBySlug_found slug k) by exact Hk.
  unfold claimBodySchema; simpl.
  destruct (Zod.number_int_min_max "quranNumber" 1 None q);
    destruct (Zod.number_int_min_max "siparaNumber" 1 (Some 30) s);
    eexists; reflexivity.
Qed.

(** C8 fails on the code: a name made of white space passes [min(1)], is
    then trimmed to the empty string, and the claim is stored with an empty
    participant name. *)
Theorem blank_name_is_stored :
  claimBodySchema (Demo.body 1 5 " ")
  = inl {| quranNumber := 1; siparaNumber := 5; participantName := [] |}
  /\ fst (run (route_claim Demo.slug (Demo.body 1 5 " ")) Demo.fresh)
     = Ok {| status := 200; payload := ClaimCreated (Claim.mk 1 1 1 5 []) |}
  /\ claims (db (snd (run (route_claim Demo.slug (Demo.body 1 5 " "))
                        Demo.fresh)))
     = [Claim.mk 1 1 1 5 []].
Proof. repeat split; reflexivity. Qed.

(* ===================================================================== *)
(** * Login                                                               *)
(* ===================================================================== *)

(** C10.  A login that passes validation and fails is answered in one way:
    whether no organizer has the e-mail address or the password does not
    match the stored hash, the response is 401 "Invalid email or password",
    the session is left as it was and nothing is written. *)
Theorem login_failure_is_uniform
    (bcrypt_compare : Js.str -> Js.str -> bool) (is_email : Js.str -> bool)
    (d1 d2 : DB) (s : Session) (body1 body2 : LoginBody)
    (data1 data2 : LoginData) (organizer : Organizer.t) :
  loginSchema is_email body1 = inl data1 ->
  loginSchema is_email body2 = inl data2 ->
  find (fun o => Js.eqb (Organizer.email o) (email data1)) (organizers d1)
  = None ->
  find (fun o => Js.eqb (Organizer.email o) (email data2)) (organizers d2)
  = Some organizer ->
  bcrypt_compare (password data2) (Organizer.passwordHash organizer) = false ->
  let unknown := run (route_login bcrypt_compare is_email s body1) d1 in
  let wrong := run (route_login bcrypt_compare is_email s body2) d2 in
  fst unknown = Ok (s, fail 401 "Invalid email or password")
  /\ fst wrong = Ok (s, fail 401 "Invalid email or password")
  /\ fst unknown = fst wrong
  /\ db (snd unknown) = d1
  /\ db (snd wrong) = d2.
Proof.
  intros Hp1 Hp2 Hnone Hsome Hbad unknown wrong; subst unknown wrong.
  unfold run, route_login, try_catch, bind, Storage.getOrganizerByEmail, call.
  rewrite Hp1, Hp2; simpl.
  rewrite Hnone, Hsome, Hbad; simpl.
  repeat split; reflexivity.
Qed.

Lemma login_failure_is_uniform_witness :
  fst (run (route_login Demo.bcrypt_compare Demo.is_email
              {| organizerId := None |}
              (Demo.login_body "nobody@example.org" "secret1")) Demo.fresh)
  = fst (run (route_login Demo.bcrypt_compare Demo.is_email
                {| organizerId := None |}
                (Demo.login_body "organizer@example.org" "secret1"))
           Demo.fresh).
Proof.
  refine (proj1 (proj2 (proj2
            (login_failure_is_uniform Demo.bcrypt_compare Demo.is_email
               Demo.fresh Demo.fresh {| organizerId := None |}
               (Demo.login_body "nobody@example.org" "secret1")
               (Demo.login_body "organizer@example.org" "secret1")
               {| email := Js.lit "nobody@example.org";
                  password := Js.lit "secret1" |}
               {| email := Js.lit "organizer@example.org";
                  password := Js.lit "secret1" |}
               (Organizer.mk 1 (Js.lit "organizer@example.org")
                  (Js.lit "$2a$10$abcdefghijklmnopqrstuv"))
               eq_refl eq_refl eq_refl eq_refl eq_refl)))).
Defined.

(* ===================================================================== *)
(** * The server and the reachable databases                              *)
(* ===================================================================== *)

(** ** The server stays within the reachable databases *)

Lemma stable_slugExists slug : stable (Storage.slugExists slug).
Proof.
  apply stable_call; intros d H.
  apply reachable_bound; [exact H | intros a; exact H].
Qed.

Lemma stable_getOrganizerById i : stable (Storage.getOrganizerById i).
Proof.
  apply stable_call; intros d H.
  apply reachable_bound; [exact H | intros a; exact H].
Qed.

Lemma stable_getClaimsForKhuwani i : stable (Storage.getClaimsForKhuwani i).
Proof.
  apply stable_call; intros d H.
  apply reachable_bound; [exact H | intros a; exact H].
Qed.

Lemma stable_createKhuwani data : stable (Storage.createKhuwani data).
Proof.
  apply stable_call; intros d H.
  exact (reachable_exec (InsertKhuwaniStmt data) d H).
Qed.

Lemma stable_createOrganizer data : stable (Storage.createOrganizer data).
Proof.
  apply stable_call; intros d H.
  exact (reachable_exec (InsertOrganizerStmt data) d H).
Qed.

#[local] Hint Resolve stable_slugExists stable_getOrganizerById
  stable_getClaimsForKhuwani stable_createKhuwani stable_createOrganizer
  : stable_db.

Lemma stable_retry_slug toLowerCase random36 remaining attempts name slug :
  stable (retry_slug toLowerCase random36 remaining attempts name slug).
Proof.
  revert attempts slug; induction remaining as [|r IH]; intros attempts slug;
    cbn [retry_slug]; apply stable_bind; auto with stable_db; intros e.
  destruct e; auto with stable_db.
Qed.

#[local] Hint Resolve stable_retry_slug : stable_db.

Ltac stable_more :=
  first
    [ stable_step
    | match goal with
      | |- stable (requireAuth_data _ _) => unfold requireAuth_data
      | |- stable (if ?b then _ else _) => destruct b
      end ].

Lemma stable_route_view slug : stable (route_view slug).
Proof. unfold route_view; repeat stable_more. Qed.

Lemma stable_route_session s : stable (route_session s).
Proof. unfold route_session; repeat stable_more. Qed.

Lemma stable_route_login cmp is_email s body :
  stable (route_login cmp is_email s body).
Proof. unfold route_login; repeat stable_more. Qed.

Lemma stable_route_register hash is_email salt s body :
  stable (route_register hash is_email salt s body).
Proof. unfold route_register; repeat stable_more. Qed.

Lemma stable_route_create toLowerCase random36 s name :
  stable (route_create toLowerCase random36 s name).
Proof. unfold route_create; repeat stable_more. Qed.

Lemma served_reachable toLowerCase hash cmp is_email (d : DB) :
  served toLowerCase hash cmp is_email d -> reachable d.
Proof.
  induction 1 as [|s req d _ IH]; [exact reachable_empty|].
  destruct req; cbn [serve]; try exact IH.
  - exact (stable_route_register _ _ _ _ _ {| db := d; trace := [] |} IH).
  - exact (stable_route_login _ _ _ _ {| db := d; trace := [] |} IH).
  - exact (stable_route_session _ {| db := d; trace := [] |} IH).
  - exact (stable_route_create _ _ _ _ {| db := d; trace := [] |} IH).
  - exact (stable_route_delete _ _ {| db := d; trace := [] |} IH).
  - exact (stable_route_reset _ _ {| db := d; trace := [] |} IH).
  - exact (stable_route_add_quran _ _ {| db := d; trace := [] |} IH).
  - exact (stable_route_view _ {| db := d; trace := [] |} IH).
  - exact (stable_route_claim _ _ {| db := d; trace := [] |} IH).
  - exact (stable_route_unclaim _ _ {| db := d; trace := [] |} IH).
Qed.

(* ===================================================================== *)
(** * Reasoning about handlers                                            *)
(* ===================================================================== *)

Lemma hoare_ret {A} (P : DB -> Prop) (Q : A -> DB -> Prop) (E : DB -> Prop)
    (a : A) :
  (forall d, P d -> Q a d) -> hoare P (ret a) Q E.
Proof. intros H w Hw; apply H; exact Hw. Qed.

Lemma hoare_throw {A} (P : DB -> Prop) (Q : A -> DB -> Prop) (E : DB -> Prop)
    (e : PgError) :
  (forall d, P d -> E d) -> hoare P (@throw A e) Q E.
Proof. intros H w Hw; apply H; exact Hw. Qed.

Lemma hoare_bind {A B} (P : DB -> Prop) (m : M A) (Q : A -> DB -> Prop)
    (f : A -> M B) (R : B -> DB -> Prop) (E : DB -> Prop) :
  hoare P m Q E -> (forall a, hoare (Q a) (f a) R E) ->
  hoare P (bind m f) R E.
Proof.
  intros Hm Hf w Hw; unfold bind.
  specialize (Hm w Hw); destruct (m w) as [[a|e] w']; [|exact Hm].
  exact (Hf a w' Hm).
Qed.

Lemma hoare_try_catch {A} (P : DB -> Prop) (m : M A) (Q : A -> DB -> Prop)
    (h : PgError -> M A) (E E' : DB -> Prop) :
  hoare P m Q E' -> (forall e, hoare E' (h e) Q E) ->
  hoare P (try_catch m h) Q E.
Proof.
  intros Hm Hh w Hw; unfold try_catch.
  specialize (Hm w Hw); destruct (m w) as [[a|e] w']; [exact Hm|].
  exact (Hh e w' Hm).
Qed.

Lemma hoare_call {A} (P : DB -> Prop) (c : StorageCall)
    (stmt : DB -> Result A * DB) (Q : A -> DB -> Prop) (E : DB -> Prop) :
  (forall d, P d ->
     match stmt d with
     | (Ok a, d') => Q a d'
     | (Throw _, d') => E d'
     end) ->
  hoare P (call c stmt) Q E.
Proof.
  intros H w Hw; unfold call.
  specialize (H (db w) Hw); destruct (stmt (db w)) as [[a|e] d']; exact H.
Qed.

Lemma hoare_weaken {A} (P P' : DB -> Prop) (m : M A)
    (Q Q' : A -> DB -> Prop) (E E' : DB -> Prop) :
  hoare P' m Q' E' ->
  (forall d, P d -> P' d) -> (forall a d, Q' a d -> Q a d) ->
  (forall d, E' d -> E d) ->
  hoare P m Q E.
Proof.
  intros H HP HQ HE w Hw; specialize (H w (HP _ Hw)).
  destruct (m w) as [[a|e] w']; [apply HQ | apply HE]; exact H.
Qed.

(** A storage call that only reads. *)
Lemma hoare_read {A} (P : DB -> Prop) (c : StorageCall) (read : DB -> A)
    (E : DB -> Prop) :
  hoare P (call c (fun d => (Ok (read d), d)))
    (fun a d => P d /\ a = read d) E.
Proof. apply hoare_call; intros d Hd; split; [exact Hd | reflexivity]. Qed.

(** What a handler that keeps [P] in both outcomes leaves. *)
Lemma hoare_run {A} (P : DB -> Prop) (m : M A) (d : DB) :
  hoare P m (fun _ => P) P -> P d -> P (db (snd (run m d))).
Proof.
  intros H Hd; unfold run.
  specialize (H {| db := d; trace := [] |} Hd).
  destruct (m _) as [[a|e] w']; exact H.
Qed.

(** ** The statements keep the claims on slots of stored sessions *)

Lemma claim_on_slot_of_incl (ks ks' : list Khuwani.t) (c : Claim.t) :
  (forall k, In k ks ->
     exists k', In k' ks' /\ Khuwani.id k' = Khuwani.id k
                /\ Khuwani.numQurans k <= Khuwani.numQurans k') ->
  claim_on_slot_of ks c -> claim_on_slot_of ks' c.
Proof.
  intros Hks (k & Hk & Hid & Hq & Hrest).
  destruct (Hks k Hk) as (k' & Hk' & Hid' & Hn).
  exists k'; repeat split; try tauto; try lia; congruence.
Qed.

(** ** [trim] *)

Lemma trimStart_head (s : Js.str) : no_space_at_head (Js.trimStart s).
Proof.
  induction s as [|c s IH]; simpl; [exact I|].
  destruct (Js.is_space c) eqn:E; [exact IH | exact E].
Qed.

Lemma trimStart_fixed (s : Js.str) :
  no_space_at_head s -> Js.trimStart s = s.
Proof.
  destruct s as [|c s]; simpl; [reflexivity|].
  intros ->; reflexivity.
Qed.

Lemma trimStart_snoc (s : Js.str) (c : N) :
  Js.is_space c = false ->
  Js.trimStart (s ++ [c]) = Js.trimStart s ++ [c].
Proof.
  intros Hc; induction s as [|x s IH]; simpl; [rewrite Hc; reflexivity|].
  destruct (Js.is_space x); [exact IH | reflexivity].
Qed.

Lemma trimEnd_head (s : Js.str) :
  no_space_at_head s -> no_space_at_head (Js.trimEnd s).
Proof.
  unfold Js.trimEnd; destruct s as [|c s]; [intros _; exact I|].
  cbn [no_space_at_head rev]; intros Hc.
  rewrite trimStart_snoc by exact Hc.
  rewrite rev_app_distr; exact Hc.
Qed.

(** A trimmed string has no white space at either end, and trimming it
    again changes nothing. *)
Lemma trim_ends (s : Js.str) :
  no_space_at_head (Js.trim s) /\ no_space_at_head (rev (Js.trim s)).
Proof.
  unfold Js.trim; split.
  - apply trimEnd_head, trimStart_head.
  - unfold Js.trimEnd; rewrite rev_involutive; apply trimStart_head.
Qed.

Lemma trim_fixed (s : Js.str) :
  no_space_at_head s -> no_space_at_head (rev s) -> Js.trim s = s.
Proof.
  intros H1 H2; unfold Js.trim, Js.trimEnd.
  rewrite (trimStart_fixed s H1), (trimStart_fixed (rev s) H2).
  apply rev_involutive.
Qed.

Lemma trim_idempotent (s : Js.str) : Js.trim (Js.trim s) = Js.trim s.
Proof. destruct (trim_ends s); apply trim_fixed; assumption. Qed.

(** The name the schema returns is trimmed and at most 100 code units
    long. *)
Lemma parsed_name_trimmed (body : ClaimBody) (data : ClaimData) :
  claimBodySchema body = inl data ->
  Js.trim (participantName data) = participantName data
  /\ Z.of_nat (List.length (participantName data)) <= 100.
Proof.
  intros H; split; [|exact (parsed_name_at_most_100 body data H)].
  apply claimBodySchema_inl in H.
  destruct H as (_ & _ & _ & _ & sent & _ & -> & _).
  apply trim_idempotent.
Qed.

(** What the engine stores of a trimmed string is trimmed. *)
Lemma written_head (s t : Js.str) :
  Forall2 written s t -> no_space_at_head s -> no_space_at_head t.
Proof.
  intros [|a b s' t' Hab _]; [auto|]; cbn [no_space_at_head].
  exact (written_space a b Hab).
Qed.

Lemma Forall2_rev_both {A B} (R : A -> B -> Prop) (l : list A)
    (l' : list B) :
  Forall2 R l l' -> Forall2 R (rev l) (rev l').
Proof.
  induction 1 as [|a b l l' Hab _ IH]; cbn [rev]; [constructor|].
  apply Forall2_app; [exact IH | repeat constructor; exact Hab].
Qed.

Lemma toWellFormed_trimmed (s : Js.str) :
  Js.trim s = s -> Js.trim (Js.toWellFormed s) = Js.toWellFormed s.
Proof.
  intros Ht; destruct (trim_ends s) as [H1 H2]; rewrite Ht in H1, H2.
  pose proof (toWellFormed_written s) as W.
  apply trim_fixed.
  - exact (written_head _ _ W H1).
  - exact (written_head _ _ (Forall2_rev_both _ _ _ W) H2).
Qed.

Lemma well_formed_insert_organizer (data : InsertOrganizer) (d : DB) :
  well_formed d -> well_formed (snd (Sql.insert_organizer data d)).
Proof. intros H; by_outcome; exact H. Qed.

Lemma well_formed_insert_khuwani (data : InsertKhuwani) (d : DB) :
  1 <= ik_numQurans data ->
  well_formed d -> well_formed (snd (Sql.insert_khuwani data d)).
Proof.
  intros Hn [Hc Hk]; by_outcome; try (split; assumption).
  split; simpl.
  - eapply Forall_impl; [|exact Hc]; cbn beta; intros c.
    apply claim_on_slot_of_incl; intros k Hin.
    exists k; repeat split; [apply in_or_app; left; exact Hin | lia].
  - apply Forall_app; split; [exact Hk|].
    repeat constructor; simpl; exact Hn.
Qed.

Lemma well_formed_insert_claim (data : InsertClaim) (d : DB) :
  (forall name,
     Pg.text (ic_participantName data) = inl name ->
     claim_on_slot_of (khuwanies d)
       (Claim.mk (claims_id_seq d) (ic_khuwaniId data) (ic_quranNumber data)
          (ic_siparaNumber data) name)) ->
  well_formed d -> well_formed (snd (Sql.insert_claim data d)).
Proof.
  intros Hrow [Hc Hk]; by_outcome; try (split; assumption).
  split; simpl; [|exact Hk].
  apply Forall_app; split; [exact Hc|].
  repeat constructor; apply Hrow; exact Otname.
Qed.

Lemma well_formed_delete_claims (p : Claim.t -> bool) (d : DB) :
  well_formed d -> well_formed (snd (Sql.delete_claims p d)).
Proof.
  intros [Hc Hk]; split; simpl; [|exact Hk].
  apply Forall_filter; exact Hc.
Qed.

Lemma well_formed_delete_khuwani_row (i : Z) (d : DB) :
  well_formed d -> well_formed (Sql.delete_khuwani_row i d).
Proof.
  intros [Hc Hk]; split; simpl; [|apply Forall_filter; exact Hk].
  rewrite Forall_forall in *; intros c Hin.
  apply filter_In in Hin; destruct Hin as [Hin Hne].
  apply negb_true_iff, Z.eqb_neq in Hne.
  destruct (Hc c Hin) as (k & Hkin & Hid & Hrest).
  exists k; split; [|split; [exact Hid | exact Hrest]].
  apply filter_In; split; [exact Hkin|].
  apply negb_true_iff, Z.eqb_neq; congruence.
Qed.

Lemma well_formed_increment (i : Z) (d : DB) :
  well_formed d -> well_formed (snd (Sql.increment_num_qurans i d)).
Proof.
  intros [Hc Hk]; unfold Sql.increment_num_qurans.
  destruct (forallb _ _); [|split; assumption].
  split; simpl.
  - eapply Forall_impl; [|exact Hc]; cbn beta; intros c.
    apply claim_on_slot_of_incl; intros k Hin.
    exists (Sql.bump i k); split; [apply in_map; exact Hin|].
    unfold Sql.bump; destruct (Khuwani.id k =? i); simpl; split; lia.
  - rewrite Forall_forall in *; intros k Hin.
    apply in_map_iff in Hin; destruct Hin as [k0 [<- Hin]].
    specialize (Hk k0 Hin); unfold Sql.bump.
    destruct (Khuwani.id k0 =? i); simpl; lia.
Qed.

(** ** The handlers keep the claims on slots of stored sessions *)

Lemma keep_call {A} (P : DB -> Prop) (c : StorageCall)
    (stmt : DB -> Result A * DB) :
  (forall d, P d -> P (snd (stmt d))) ->
  hoare P (call c stmt) (fun _ => P) P.
Proof.
  intros H; apply hoare_call; intros d Hd.
  specialize (H d Hd); destruct (stmt d) as [[a|e] d']; exact H.
Qed.

Lemma keep_ret {A} (P : DB -> Prop) (a : A) :
  hoare P (ret a) (fun _ => P) P.
Proof. apply hoare_ret; auto. Qed.

Lemma keep_throw {A} (P : DB -> Prop) (e : PgError) :
  hoare P (@throw A e) (fun _ => P) P.
Proof. apply hoare_throw; auto. Qed.

Lemma keep_bind {A B} (P : DB -> Prop) (m : M A) (f : A -> M B) :
  hoare P m (fun _ => P) P -> (forall a, hoare P (f a) (fun _ => P) P) ->
  hoare P (bind m f) (fun _ => P) P.
Proof. intros Hm Hf; eapply hoare_bind; [exact Hm | exact Hf]. Qed.

Lemma keep_try_catch {A} (P : DB -> Prop) (m : M A) (h : PgError -> M A) :
  hoare P m (fun _ => P) P -> (forall e, hoare P (h e) (fun _ => P) P) ->
  hoare P (try_catch m h) (fun _ => P) P.
Proof. intros Hm Hh; eapply hoare_try_catch; [exact Hm | exact Hh]. Qed.

Lemma keep_reads (P : DB -> Prop) :
  (forall e, hoare P (Storage.getOrganizerByEmail e) (fun _ => P) P)
  /\ (forall i, hoare P (Storage.getOrganizerById i) (fun _ => P) P)
  /\ (forall i, hoare P (Storage.getKhuwaniById i) (fun _ => P) P)
  /\ (forall s, hoare P (Storage.getKhuwaniBySlug s) (fun _ => P) P)
  /\ (forall i, hoare P (Storage.getClaimsForKhuwani i) (fun _ => P) P)
  /\ (forall s, hoare P (Storage.slugExists s) (fun _ => P) P).
Proof.
  refine (conj _ (conj _ (conj _ (conj _ (conj _ _))))); intros;
    apply keep_call; intros d Hd;
    repeat (apply bound_keeps; [exact Hd | intros ?]); exact Hd.
Qed.

Lemma keep_well_formed_writes :
  (forall data,
     hoare well_formed (Storage.createOrganizer data)
       (fun _ => well_formed) well_formed)
  /\ (forall i,
        hoare well_formed (Storage.deleteKhuwani i)
          (fun _ => well_formed) well_formed)
  /\ (forall k q s n,
        hoare well_formed (Storage.deleteClaim k q s n)
          (fun _ => well_formed) well_formed)
  /\ (forall i,
        hoare well_formed (Storage.deleteAllClaimsForKhuwani i)
          (fun _ => well_formed) well_formed)
  /\ (forall i,
        hoare well_formed (Storage.incrementQurans i)
          (fun _ => well_formed) well_formed)
  /\ (forall data,
        1 <= ik_numQurans data ->
        hoare well_formed (Storage.createKhuwani data)
          (fun _ => well_formed) well_formed).
Proof.
  refine (conj _ (conj _ (conj _ (conj _ (conj _ _))))); intros;
    apply keep_call; intros d Hd;
    repeat (apply bound_keeps; [exact Hd | intros ?]).
  - apply well_formed_insert_organizer; exact Hd.
  - simpl; apply well_formed_delete_khuwani_row.
    exact (well_formed_delete_claims _ d Hd).
  - match goal with
    | |- context [Sql.delete_claims ?p d] =>
        exact (well_formed_delete_claims p d Hd)
    end.
  - exact (well_formed_delete_claims _ d Hd).
  - apply well_formed_increment; exact Hd.
  - apply well_formed_insert_khuwani; assumption.
Qed.

Ltac keep_step :=
  first
    [ apply keep_try_catch; [|intros]
    | apply keep_bind; [|intros]
    | apply keep_ret
    | apply keep_throw
    | apply (proj1 (keep_reads _))
    | apply (proj1 (proj2 (keep_reads _)))
    | apply (proj1 (proj2 (proj2 (keep_reads _))))
    | apply (proj1 (proj2 (proj2 (proj2 (keep_reads _)))))
    | apply (proj1 (proj2 (proj2 (proj2 (proj2 (keep_reads _))))))
    | apply (proj2 (proj2 (proj2 (proj2 (proj2 (keep_reads _))))))
    | apply (proj1 keep_well_formed_writes)
    | apply (proj1 (proj2 keep_well_formed_writes))
    | apply (proj1 (proj2 (proj2 keep_well_formed_writes)))
    | apply (proj1 (proj2 (proj2 (proj2 keep_well_formed_writes))))
    | apply (proj1 (proj2 (proj2 (proj2 (proj2 keep_well_formed_writes)))))
    | match goal with
      | |- hoare _ (requireAuth _ _) _ _ => unfold requireAuth
      | |- hoare _ (requireAuth_data _ _) _ _ => unfold requireAuth_data
      | |- hoare _ (match ?x with _ => _ end) _ _ => destruct x
      | |- hoare _ (if ?b then _ else _) _ _ => destruct b
      end ].

Lemma keep_retry_slug (P : DB -> Prop) toLowerCase random36 remaining
    attempts name slug :
  hoare P (retry_slug toLowerCase random36 remaining attempts name slug)
    (fun _ => P) P.
Proof.
  revert attempts slug; induction remaining as [|r IH]; intros attempts slug;
    cbn [retry_slug]; apply keep_bind;
    try apply (proj2 (proj2 (proj2 (proj2 (proj2 (keep_reads _))))));
    intros e; [apply keep_ret|].
  destruct e; [apply IH | apply keep_ret].
Qed.

Lemma hoare_getKhuwaniBySlug (P : DB -> Prop) (slug : Js.str) :
  hoare P (Storage.getKhuwaniBySlug slug)
    (fun a d => P d /\ a = khuwani_by_slug d slug) P.
Proof.
  apply hoare_call; intros d Hd; unfold Pg.bound, khuwani_by_slug.
  destruct (Pg.text slug); [split; [exact Hd | reflexivity] | exact Hd].
Qed.

Lemma keep_well_formed_claim slug body :
  hoare well_formed (route_claim slug body) (fun _ => well_formed)
    well_formed.
Proof.
  unfold route_claim.
  apply keep_try_catch; [|intros; apply keep_ret].
  eapply hoare_bind; [apply hoare_getKhuwaniBySlug|].
  intros [k|]; [|apply hoare_ret; tauto].
  destruct (claimBodySchema body) as [data|issue] eqn:Hp;
    [|apply hoare_ret; tauto].
  destruct (Z.ltb_spec (Khuwani.numQurans k) (quranNumber data)) as [|Hle];
    [apply hoare_ret; tauto|].
  eapply hoare_try_catch with (E' := well_formed).
  - eapply hoare_bind; [|intros; apply keep_ret].
    unfold Storage.createClaim; apply hoare_call.
    intros d [Hwf Hk].
    assert (Hin : In k (khuwanies d))
      by (symmetry in Hk; apply khuwani_by_slug_some in Hk; tauto).
    pose proof (well_formed_insert_claim
                  {| ic_khuwaniId := Khuwani.id k;
                     ic_quranNumber := quranNumber data;
                     ic_siparaNumber := siparaNumber data;
                     ic_participantName := participantName data |} d) as W.
    destruct (Sql.insert_claim _ d) as [[a|e] d']; apply W; try exact Hwf;
      (intros name Hname; apply text_inl in Hname;
       destruct Hname as [_ ->]; exists k; cbn;
       destruct (parsed_name_trimmed body data Hp) as [Ht Hl];
       apply claimBodySchema_inl in Hp;
       destruct Hp as (_ & _ & Hq & Hs & _);
       rewrite toWellFormed_length;
       repeat split; auto; try exact (toWellFormed_trimmed _ Ht); lia).
  - intros [code]; destruct (String.eqb code "23505");
      [apply keep_ret | apply keep_throw].
Qed.

Lemma keep_well_formed_create toLowerCase random36 s name :
  hoare well_formed (route_create toLowerCase random36 s name)
    (fun _ => well_formed) well_formed.
Proof.
  unfold route_create, requireAuth_data.
  destruct (organizerId s) as [i|]; [|apply keep_ret].
  destruct (i =? 0); [apply keep_ret|].
  apply keep_try_catch; [|intros; apply keep_ret].
  destruct (createKhuwaniFormSchema name); [|apply keep_ret].
  apply keep_bind; [apply keep_retry_slug|]; intros slug.
  apply keep_bind; [|intros; apply keep_ret].
  apply (proj2 (proj2 (proj2 (proj2 (proj2 keep_well_formed_writes))))).
  simpl; lia.
Qed.

Lemma served_well_formed toLowerCase hash cmp is_email (d : DB) :
  served toLowerCase hash cmp is_email d -> well_formed d.
Proof.
  induction 1 as [|s req d _ IH]; [split; constructor|].
  destruct req; cbn [serve]; try exact IH; apply hoare_run; try exact IH.
  - unfold route_register; repeat keep_step.
  - unfold route_login; repeat keep_step.
  - unfold route_session; repeat keep_step.
  - apply keep_well_formed_create.
  - unfold route_delete; repeat keep_step.
  - unfold route_reset; repeat keep_step.
  - unfold route_add_quran; repeat keep_step.
  - unfold route_view; repeat keep_step.
  - apply keep_well_formed_claim.
  - unfold route_unclaim; repeat keep_step.
Qed.

(* ===================================================================== *)
(** * Further properties of the code                                      *)
(* ===================================================================== *)

Lemma served_sample_claimed : Sample.served_demo Sample.claimed.
Proof.
  unfold Sample.served_demo, Sample.claimed, Sample.created,
    Sample.registered, Sample.serve_demo.
  repeat apply served_request; apply served_start.
Qed.

Lemma sample_claimed_tables :
  khuwanies Sample.claimed = [Sample.session_row]
  /\ claims Sample.claimed = [Sample.ahmed_row].
Proof. split; vm_compute; reflexivity. Qed.

Lemma find_unique {Row Key : Type} (key : Row -> Key)
    (same : Key -> Key -> bool) (rows : list Row) (r : Row) :
  (forall a b, same a b = true <-> a = b) ->
  NoDup (map key rows) -> In r rows ->
  find (fun x => same (key x) (key r)) rows = Some r.
Proof.
  intros Hsame Hnd Hin.
  destruct (find (fun x => same (key x) (key r)) rows) as [x|] eqn:E.
  - apply find_some in E; destruct E as [Hx Hk]; apply Hsame in Hk.
    f_equal; apply (NoDup_map_inj_in key rows); assumption.
  - exfalso; apply (find_none _ _ E) in Hin.
    assert (same (key r) (key r) = true) by (apply Hsame; reflexivity).
    congruence.
Qed.

(** X1.  In every reachable database the keys the schema declares identify
    one row: two stored sessions with the same slug or the same id are the
    same row, two stored organizers with the same e-mail address or id
    likewise, and the look-ups by slug, by id and by e-mail address return
    the row that carries the key. *)
Theorem stored_keys_identify_rows (d : DB) :
  reachable d ->
  (forall k1 k2,
     In k1 (khuwanies d) -> In k2 (khuwanies d) ->
     Khuwani.slug k1 = Khuwani.slug k2 \/ Khuwani.id k1 = Khuwani.id k2 ->
     k1 = k2)
  /\ (forall o1 o2,
        In o1 (organizers d) -> In o2 (organizers d) ->
        Organizer.email o1 = Organizer.email o2
        \/ Organizer.id o1 = Organizer.id o2 ->
        o1 = o2)
  /\ (forall k,
        In k (khuwanies d) ->
        fst (run (Storage.getKhuwaniBySlug (Khuwani.slug k)) d) = Ok (Some k)
        /\ fst (run (Storage.getKhuwaniById (Khuwani.id k)) d) = Ok (Some k)
        /\ fst (run (Storage.slugExists (Khuwani.slug k)) d) = Ok true)
  /\ (forall o,
        In o (organizers d) ->
        fst (run (Storage.getOrganizerByEmail (Organizer.email o)) d)
        = Ok (Some o)
        /\ fst (run (Storage.getOrganizerById (Organizer.id o)) d)
           = Ok (Some o)).
Proof.
  intros Hr.
  pose proof (reachable_slugs_unique d Hr) as Hslug.
  pose proof (reachable_khuwanies_pkey d Hr) as [Hid _].
  pose proof (reachable_emails_unique d Hr) as Hmail.
  pose proof (reachable_organizers_pkey d Hr) as [Hoid _].
  refine (conj _ (conj _ (conj _ _))).
  - intros k1 k2 H1 H2 [E|E].
    + exact (NoDup_map_inj_in Khuwani.slug _ k1 k2 Hslug H1 H2 E).
    + exact (NoDup_map_inj_in Khuwani.id _ k1 k2 Hid H1 H2 E).
  - intros o1 o2 H1 H2 [E|E].
    + exact (NoDup_map_inj_in Organizer.email _ o1 o2 Hmail H1 H2 E).
    + exact (NoDup_map_inj_in Organizer.id _ o1 o2 Hoid H1 H2 E).
  - intros k Hk.
    destruct (stored_session_found d k Hr Hk) as [Hbyid Hbyslug].
    destruct (stored_session_keys d k Hr Hk) as [_ Htext].
    unfold run.
    rewrite (getKhuwaniBySlug_found _ k) by exact Hbyslug.
    rewrite (getKhuwaniById_found _ k) by exact Hbyid.
    repeat split.
    unfold Storage.slugExists, call, Pg.bound; rewrite Htext; cbn [fst db].
    f_equal; apply existsb_exists; exists k; split;
      [exact Hk | apply Js_eqb_refl].
  - intros o Ho.
    assert (Hint : in_int4 (Organizer.id o) = true).
    { destruct (reachable_serial_ids d Hr) as (_ & _ & _ & Hids & _).
      rewrite Forall_forall in Hids; specialize (Hids o Ho).
      apply in_int4_iff; unfold int4_min; lia. }
    unfold run, Storage.getOrganizerByEmail, Storage.getOrganizerById, call,
      Pg.bound.
    rewrite (int4_accepts _ Hint); cbn [fst db].
    rewrite (find_unique Organizer.email Js.eqb _ o Js_eqb_eq Hmail Ho).
    rewrite (find_unique Organizer.id Z.eqb _ o Z.eqb_eq Hoid Ho).
    split; reflexivity.
Qed.

Lemma stored_keys_identify_rows_witness :
  fst (run (Storage.getKhuwaniBySlug Demo.slug) Demo.claimed)
  = Ok (Some (Khuwani.mk 1 1 Demo.slug (Js.lit "Haji Abdul Rehman") 1)).
Proof.
  destruct (stored_keys_identify_rows Demo.claimed reachable_demo_claimed)
    as (_ & _ & H & _).
  apply (H (Khuwani.mk 1 1 Demo.slug (Js.lit "Haji Abdul Rehman") 1)).
  left; reflexivity.
Defined.

(** X2.  In every reachable database each claim belongs to a stored
    session: the foreign key of [claims] holds, through inserts, the two
    statements of [deleteKhuwani] and the cascade. *)
Theorem claims_belong_to_stored_sessions (d : DB) (c : Claim.t) :
  reachable d -> In c (claims d) ->
  exists k,
    In k (khuwanies d) /\ Khuwani.id k = Claim.khuwaniId c
    /\ fst (run (Storage.getKhuwaniById (Claim.khuwaniId c)) d) = Ok (Some k).
Proof.
  intros Hr Hc.
  pose proof (reachable_claims_reference_sessions d Hr) as Hfk.
  unfold claims_reference_sessions in Hfk; rewrite Forall_forall in Hfk.
  specialize (Hfk c Hc); apply in_map_iff in Hfk.
  destruct Hfk as [k [Hid Hk]].
  exists k; split; [exact Hk | split; [exact Hid|]].
  rewrite <- Hid; unfold run.
  rewrite (getKhuwaniById_found _ k); [reflexivity|].
  exact (proj1 (stored_session_found d k Hr Hk)).
Qed.

Lemma claims_belong_to_stored_sessions_witness :
  exists k,
    In k (khuwanies Demo.claimed) /\ Khuwani.id k = 1
    /\ fst (run (Storage.getKhuwaniById 1) Demo.claimed) = Ok (Some k).
Proof.
  apply (claims_belong_to_stored_sessions Demo.claimed
           (Claim.mk 1 1 1 5 (Js.lit "Ahmed")) reachable_demo_claimed).
  left; reflexivity.
Defined.

Lemma filter_twice {Row : Type} (keep : Row -> bool) (rows : list Row) :
  filter keep (filter keep rows) = filter keep rows.
Proof.
  induction rows as [|r rows IH]; cbn [filter]; [reflexivity|].
  destruct (keep r) eqn:E; cbn [filter]; [rewrite E, IH|]; auto.
Qed.

(** X3.  When the caller owns the session, [delete] answers 200 and
    removes the session together with all its claims, leaving every other
    session, claim and organizer as it was.  From then on the id and the
    slug are unknown: claim, release and view on the slug, and reset,
    add-quran and delete on the id by any signed-in caller, are answered
    404. *)
Theorem delete_removes_session_and_claims (d : DB) (s : Session)
    (me id : Z) (k : Khuwani.t) :
  reachable d ->
  organizerId s = Some me -> me <> 0 ->
  khuwani_by_id d id = Some k ->
  Khuwani.organizerId k = me ->
  let out := run (route_delete s id) d in
  let d' := db (snd out) in
  fst out = Ok (ok "Deleted")
  /\ khuwanies d'
     = filter (fun k' => negb (Khuwani.id k' =? id)) (khuwanies d)
  /\ claims d' = filter (fun c => negb (Claim.khuwaniId c =? id)) (claims d)
  /\ organizers d' = organizers d
  /\ (forall body,
        fst (run (route_claim (Khuwani.slug k) body) d')
        = Ok (fail 404 "Khuwani not found")
        /\ fst (run (route_unclaim (Khuwani.slug k) body) d')
           = Ok (fail 404 "Khuwani not found"))
  /\ fst (run (route_view (Khuwani.slug k)) d')
     = Ok (Refused (fail 404 "Khuwani not found"))
  /\ (forall s' you,
        organizerId s' = Some you -> you <> 0 ->
        fst (run (route_reset s' id) d') = Ok (fail 404 "Khuwani not found")
        /\ fst (run (route_add_quran s' id) d')
           = Ok (fail 404 "Khuwani not found")
        /\ fst (run (route_delete s' id) d')
           = Ok (fail 404 "Khuwani not found")).
Proof.
  intros Hr Hs Hme Hk Hown out d'.
  destruct (khuwani_by_id_some d id k Hk) as (Hint & Hin & Hid).
  destruct (stored_session_keys d k Hr Hin) as [_ Htext].
  assert (Hout : out
            = (Ok (ok "Deleted"),
               {| db := Sql.delete_khuwani_row id
                          (snd (Sql.delete_claims
                                  (fun c => Claim.khuwaniId c =? id) d));
                  trace := [GetKhuwaniById id; DeleteKhuwani id] |})).
  { subst out; unfold run, route_delete, requireAuth; rewrite Hs.
    destruct (Z.eqb_spec me 0) as [|_]; [contradiction|].
    unfold try_catch, bind.
    rewrite (getKhuwaniById_found id k) by exact Hk.
    rewrite Hown, Z.eqb_refl; cbn [negb].
    unfold Storage.deleteKhuwani, call, Pg.bound.
    rewrite (int4_accepts id Hint); reflexivity. }
  assert (Hks : khuwanies d'
                = filter (fun k' => negb (Khuwani.id k' =? id)) (khuwanies d))
    by (subst d'; rewrite Hout; reflexivity).
  assert (Hnoid : khuwani_by_id d' id = None).
  { unfold khuwani_by_id; rewrite Hks, Hint.
    destruct (find _ (filter _ (khuwanies d))) as [x|] eqn:E; [|reflexivity].
    apply find_some in E; destruct E as [E1 E2].
    apply filter_In in E1; destruct E1 as [_ E1].
    rewrite E2 in E1; discriminate. }
  assert (Hnoslug : khuwani_by_slug d' (Khuwani.slug k) = None).
  { unfold khuwani_by_slug; rewrite Hks, Htext.
    destruct (find _ (filter _ (khuwanies d))) as [x|] eqn:E; [|reflexivity].
    apply find_some in E; destruct E as [E1 E2].
    apply filter_In in E1; destruct E1 as [Hx E1].
    apply Js_eqb_eq in E2.
    assert (x = k)
      by (apply (NoDup_map_inj_in Khuwani.slug (khuwanies d)); auto;
          exact (reachable_slugs_unique d Hr)).
    subst x; rewrite Hid, Z.eqb_refl in E1; discriminate. }
  pose proof (is_text_no_nul _ Htext) as Hnn.
  split; [rewrite Hout; reflexivity|].
  split; [exact Hks|].
  split; [subst d'; rewrite Hout; simpl; apply filter_twice|].
  split; [subst d'; rewrite Hout; reflexivity|].
  split; [|split].
  - intros body; split.
    + unfold run, route_claim, try_catch, bind.
      rewrite getKhuwaniBySlug_run by exact Hnn; cbn [db].
      rewrite Hnoslug; reflexivity.
    + unfold run, route_unclaim, try_catch, bind.
      rewrite getKhuwaniBySlug_run by exact Hnn; cbn [db].
      rewrite Hnoslug; reflexivity.
  - unfold run, route_view, try_catch, bind.
    rewrite getKhuwaniBySlug_run by exact Hnn; cbn [db].
    rewrite Hnoslug; reflexivity.
  - intros s' you Hs' Hyou.
    assert (Hno : forall k0, khuwani_by_id d' id = Some k0 ->
                             Khuwani.organizerId k0 <> you)
      by (intros k0 E; rewrite Hnoid in E; discriminate).
    unfold route_reset, route_add_quran, route_delete.
    rewrite !(organizer_lookup_404 d' s' you id _ _ Hs' Hyou Hint Hno).
    repeat split.
Qed.

Lemma delete_removes_session_and_claims_witness :
  fst (run (route_delete Demo.owner 1) Demo.claimed) = Ok (ok "Deleted")
  /\ claims (db (snd (run (route_delete Demo.owner 1) Demo.claimed))) = []
  /\ fst (run (route_view Demo.slug)
            (db (snd (run (route_delete Demo.owner 1) Demo.claimed))))
     = Ok (Refused (fail 404 "Khuwani not found")).
Proof.
  pose proof (delete_removes_session_and_claims Demo.claimed Demo.owner 1 1
                (Khuwani.mk 1 1 Demo.slug (Js.lit "Haji Abdul Rehman") 1)
                reachable_demo_claimed eq_refl) as H.
  cbv zeta in H.
  destruct H as (H1 & _ & H2 & _ & _ & H3 & _).
  - lia.
  - reflexivity.
  - reflexivity.
  - split; [exact H1 | split; [rewrite H2; reflexivity | exact H3]].
Defined.

(** X4.  The organizer routes do nothing for a caller who is not the
    owner.  Without a signed-in organizer (no id in the session, or the id
    0) delete, reset, add-quran and create answer 401 before any storage
    call.  For a signed-in caller, delete, reset and add-quran answer 404
    after the look-up alone on a 32-bit id that no session of the caller
    has; on an id that is no 32-bit integer (a larger integer, or the NaN
    [parseInt] makes of a parameter without digits) the look-up fails and
    they answer 500 with their own message.  In all these cases the
    database is unchanged. *)
Theorem organizer_routes_refuse_strangers (d : DB) (s : Session) (id : Z) :
  (organizerId s = None \/ organizerId s = Some 0 ->
   let refused := (Ok (fail 401 "Not authenticated"),
                   {| db := d; trace := [] |}) in
   run (route_delete s id) d = refused
   /\ run (route_reset s id) d = refused
   /\ run (route_add_quran s id) d = refused
   /\ forall toLowerCase random36 name,
        run (route_create toLowerCase random36 s name) d
        = (Ok (Refused (fail 401 "Not authenticated")),
           {| db := d; trace := [] |}))
  /\ (forall me,
        organizerId s = Some me -> me <> 0 ->
        in_int4 id = true ->
        (forall k, khuwani_by_id d id = Some k ->
                   Khuwani.organizerId k <> me) ->
        let not_found := (Ok (fail 404 "Khuwani not found"),
                          {| db := d; trace := [GetKhuwaniById id] |}) in
        run (route_delete s id) d = not_found
        /\ run (route_reset s id) d = not_found
        /\ run (route_add_quran s id) d = not_found)
  /\ (forall me (n : JsNumber),
        organizerId s = Some me -> me <> 0 ->
        n = JNotInt \/ (n = id /\ in_int4 id = false) ->
        let failed (message : string) :=
          (Ok (fail 500 message),
           {| db := d; trace := [GetKhuwaniById n] |}) in
        run (route_delete s n) d = failed "Failed to delete"%string
        /\ run (route_reset s n) d = failed "Failed to reset"%string
        /\ run (route_add_quran s n) d = failed "Failed to add Quran"%string).
Proof.
  split; [|split].
  - intros Hs refused.
    unfold run, route_delete, route_reset, route_add_quran, route_create,
      requireAuth, requireAuth_data.
    destruct Hs as [-> | ->]; cbn; repeat split.
  - intros me Hs Hme Hint Hno not_found.
    unfold route_delete, route_reset, route_add_quran.
    rewrite !(organizer_lookup_404 d s me id _ _ Hs Hme Hint Hno).
    repeat split.
  - intros me n Hs Hme Hn failed.
    assert (He : exists e, Pg.int4 n = inr e).
    { destruct Hn as [->|[-> Hint]];
        [eexists; reflexivity | exact (int4_refuses id Hint)]. }
    destruct He as [e He]; subst failed; cbv beta.
    unfold route_delete, route_reset, route_add_quran.
    split; [|split];
      match goal with
      | |- run (requireAuth s (fun me =>
                  try_catch (k <- Storage.getKhuwaniById n ;; @?found k me)
                    _)) d = _ =>
          exact (lookup_refused_500 d s me n e found _ Hs Hme He)
      end.
Qed.

Lemma organizer_routes_refuse_strangers_witness :
  run (route_delete Sample.nobody 1) Demo.claimed
  = (Ok (fail 401 "Not authenticated"),
     {| db := Demo.claimed; trace := [] |})
  /\ run (route_reset {| organizerId := Some 7 |} 1) Demo.claimed
     = (Ok (fail 404 "Khuwani not found"),
        {| db := Demo.claimed; trace := [GetKhuwaniById 1] |})
  /\ run (route_delete Demo.owner 2147483648) Demo.claimed
     = (Ok (fail 500 "Failed to delete"),
        {| db := Demo.claimed; trace := [GetKhuwaniById 2147483648] |}).
Proof.
  destruct (organizer_routes_refuse_strangers Demo.claimed Sample.nobody 1)
    as [H401 _].
  destruct (organizer_routes_refuse_strangers Demo.claimed
              {| organizerId := Some 7 |} 1) as (_ & H404 & _).
  destruct (organizer_routes_refuse_strangers Demo.claimed Demo.owner
              2147483648) as (_ & _ & H500).
  split; [|split].
  - apply H401; left; reflexivity.
  - apply (H404 7 eq_refl).
    + lia.
    + reflexivity.
    + intros k Hk; vm_compute in Hk; inversion Hk; subst k; simpl; lia.
  - apply (H500 1 2147483648 eq_refl).
    + lia.
    + right; split; reflexivity.
Defined.

(** ** Creating a session *)


Lemma find_snoc_new {Row : Type} (p : Row -> bool) (rows : list Row)
    (r : Row) :
  existsb p rows = false -> p r = true -> find p (rows ++ [r]) = Some r.
Proof.
  induction rows as [|x rows IH]; cbn [existsb find app]; intros Hn Hr.
  - rewrite Hr; reflexivity.
  - apply orb_false_iff in Hn; destruct Hn as [Hx Hn].
    rewrite Hx; apply IH; assumption.
Qed.



(** ** Accounts *)

Lemma existsb_none_iff {Row : Type} (p : Row -> bool) (rows : list Row) :
  existsb p rows = false <-> forall r, In r rows -> p r = false.
Proof.
  split.
  - intros H r Hr; destruct (p r) eqn:E; [|reflexivity].
    assert (existsb p rows = true) by (apply existsb_exists; eauto).
    congruence.
  - intros H; destruct (existsb p rows) eqn:E; [|reflexivity].
    apply existsb_exists in E; destruct E as [r [Hr Hp]].
    rewrite (H r Hr) in Hp; discriminate.
Qed.





(** X7.  On a reachable database, a login with the address of a stored
    organizer and a password [bcrypt.compare] accepts answers 200, writes
    nothing and signs the session in with the organizer's id.  That id is
    at least 1, so [requireAuth] lets the session through and the session
    route returns the organizer.  After logout the session names nobody and
    the organizer routes answer 401. *)
Theorem login_then_logout
    (bcrypt_compare : Js.str -> Js.str -> bool) (is_email : Js.str -> bool)
    (d : DB) (s : Session) (body : LoginBody) (data : LoginData)
    (o : Organizer.t) :
  reachable d ->
  loginSchema is_email body = inl data ->
  In o (organizers d) ->
  Organizer.email o = email data ->
  bcrypt_compare (password data) (Organizer.passwordHash o) = true ->
  let out := run (route_login bcrypt_compare is_email s body) d in
  let signed_in := {| organizerId := Some (Organizer.id o) |} in
  fst out = Ok (signed_in, ok "Logged in")
  /\ db (snd out) = d
  /\ 1 <= Organizer.id o
  /\ (forall next, requireAuth signed_in next = next (Organizer.id o))
  /\ fst (run (route_session signed_in) d)
     = Ok (Data (Organizer.id o, Organizer.email o))
  /\ route_logout signed_in = ({| organizerId := None |}, ok "Logged out")
  /\ (forall id,
        fst (run (route_add_quran (fst (route_logout signed_in)) id) d)
        = Ok (fail 401 "Not authenticated"))
  /\ fst (run (route_session (fst (route_logout signed_in))) d)
     = Ok (Refused (fail 401 "Not authenticated")).
Proof.
  intros Hr Hp Ho He Hok out signed_in.
  pose proof (find_unique Organizer.email Js.eqb _ o Js_eqb_eq
                (reachable_emails_unique d Hr) Ho) as Hf.
  rewrite He in Hf.
  pose proof (reachable_organizers_pkey d Hr) as (Hnd & Hids & _).
  pose proof (find_unique Organizer.id Z.eqb _ o Z.eqb_eq Hnd Ho) as Hfid.
  rewrite Forall_forall in Hids; specialize (Hids o Ho).
  assert (Hout : out = (Ok (signed_in, ok "Logged in"),
                        {| db := d;
                           trace := [GetOrganizerByEmail (email data)] |})).
  { subst out; unfold run, route_login; rewrite Hp.
    unfold try_catch, bind, Storage.getOrganizerByEmail, call; simpl.
    rewrite Hf; simpl; rewrite Hok; reflexivity. }
  rewrite Hout; cbn [fst snd db].
  refine (conj eq_refl (conj eq_refl (conj _ (conj _ (conj _ _)))));
    [lia | | | repeat split].
  - intros next; unfold requireAuth, signed_in; simpl.
    destruct (Z.eqb_spec (Organizer.id o) 0); [lia | reflexivity].
  - assert (Hint : in_int4 (Organizer.id o) = true).
    { destruct (reachable_serial_ids d Hr) as (_ & _ & _ & Hser & _).
      rewrite Forall_forall in Hser; specialize (Hser o Ho).
      apply in_int4_iff; unfold int4_min; lia. }
    unfold run, route_session, signed_in; cbn [organizerId].
    destruct (Z.eqb_spec (Organizer.id o) 0); [lia|].
    unfold bind, Storage.getOrganizerById, call, Pg.bound.
    rewrite (int4_accepts _ Hint); cbn [db trace fst snd].
    rewrite Hfid; reflexivity.
Qed.

Lemma login_then_logout_witness :
  fst (run (route_session Demo.owner) Demo.fresh)
  = Ok (Data (1, Js.lit "organizer@example.org")).
Proof.
  refine (proj1 (proj2 (proj2 (proj2 (proj2
            (login_then_logout Demo.bcrypt_compare Demo.is_email Demo.fresh
               Sample.nobody
               (Demo.login_body "organizer@example.org"
                  "abcdefghijklmnopqrstuv")
               {| email := Js.lit "organizer@example.org";
                  password := Js.lit "abcdefghijklmnopqrstuv" |}
               (Organizer.mk 1 (Js.lit "organizer@example.org")
                  (Js.lit "$2a$10$abcdefghijklmnopqrstuv"))
               reachable_demo_fresh eq_refl _ eq_refl eq_refl)))))).
  left; reflexivity.
Defined.

(** ** Claims stay on the slots of their session *)

(** X8.  However the server got there by serving requests, every stored
    claim is on a slot of a stored session: its copy number is between 1
    and the session's count, its sipara number between 1 and 30, and its
    name is trimmed and at most 100 code units long.  Every stored session
    has at least one copy and a count that fits the column. *)
Theorem served_claims_are_on_slots
    (toLowerCase : Js.str -> Js.str)
    (bcrypt_hash : Js.str -> Js.str -> Js.str)
    (bcrypt_compare : Js.str -> Js.str -> bool) (is_email : Js.str -> bool)
    (d : DB) :
  served toLowerCase bcrypt_hash bcrypt_compare is_email d ->
  (forall c,
     In c (claims d) ->
     exists k,
       In k (khuwanies d) /\ Khuwani.id k = Claim.khuwaniId c
       /\ 1 <= Claim.quranNumber c <= Khuwani.numQurans k
       /\ 1 <= Claim.siparaNumber c <= 30
       /\ Js.trim (Claim.participantName c) = Claim.participantName c
       /\ Z.of_nat (List.length (Claim.participantName c)) <= 100)
  /\ (forall k, In k (khuwanies d) -> 1 <= Khuwani.numQurans k <= int4_max).
Proof.
  intros Hs.
  destruct (served_well_formed _ _ _ _ d Hs) as [Hc Hk].
  pose proof (reachable_numQurans_int4 d (served_reachable _ _ _ _ d Hs))
    as Hint.
  unfold numQurans_int4 in Hint; rewrite Forall_forall in *.
  split; [exact Hc|].
  intros k Hin; specialize (Hk k Hin); specialize (Hint k Hin).
  apply in_int4_iff in Hint; lia.
Qed.

Lemma served_claims_are_on_slots_witness :
  exists k,
    In k (khuwanies Sample.claimed) /\ Khuwani.id k = 1
    /\ 1 <= 1 <= Khuwani.numQurans k.
Proof.
  destruct (served_claims_are_on_slots _ _ _ _ Sample.claimed
              served_sample_claimed) as [H _].
  destruct (H Sample.ahmed_row) as (k & Hk & Hid & Hq & _).
  - rewrite (proj2 sample_claimed_tables); left; reflexivity.
  - exists k; split; [exact Hk | split; [exact Hid | exact Hq]].
Defined.

Lemma In_range1 (n x : Z) : In x (range1 n) <-> 1 <= x <= n.
Proof.
  unfold range1; rewrite in_map_iff; split.
  - intros [i [<- Hi]]; apply in_seq in Hi; lia.
  - intros H; exists (Z.to_nat x); split; [lia | apply in_seq; lia].
Qed.

Lemma length_range1 (n : Z) : List.length (range1 n) = Z.to_nat n.
Proof. unfold range1; rewrite length_map, length_seq; reflexivity. Qed.

(** A second key that is no coarser than a unique one is unique too. *)
Lemma NoDup_map_finer {Row K1 K2 : Type} (key : Row -> K1) (key' : Row -> K2)
    (rows : list Row) :
  (forall a b, In a rows -> In b rows -> key' a = key' b -> key a = key b) ->
  NoDup (map key rows) -> NoDup (map key' rows).
Proof.
  induction rows as [|r rows IH]; cbn [map]; intros Hfine Huniq;
    [constructor|].
  apply NoDup_cons_iff in Huniq; destruct Huniq as [Hfresh Hrest].
  apply NoDup_cons.
  - rewrite in_map_iff; intros [r' [Hk Hr']]; apply Hfresh.
    rewrite <- (Hfine r' r) by (simpl; auto).
    apply in_map; exact Hr'.
  - apply IH; [|exact Hrest].
    intros a b Ha Hb; apply Hfine; right; assumption.
Qed.

Lemma NoDup_range1 (n : Z) : NoDup (range1 n).
Proof.
  unfold range1; apply (NoDup_map_finer (fun i : nat => i)).
  - intros a b _ _; apply Nat2Z.inj.
  - rewrite map_id; apply seq_NoDup.
Qed.

(** The claims of one session in a served database. *)
Lemma session_claims toLowerCase hash cmp is_email (d : DB) (k : Khuwani.t) :
  served toLowerCase hash cmp is_email d -> In k (khuwanies d) ->
  let cs := filter (fun c => Claim.khuwaniId c =? Khuwani.id k) (claims d) in
  NoDup (map (fun c => (Claim.quranNumber c, Claim.siparaNumber c)) cs)
  /\ (forall c, In c cs ->
        1 <= Claim.quranNumber c <= Khuwani.numQurans k
        /\ 1 <= Claim.siparaNumber c <= 30).
Proof.
  intros Hs Hk cs.
  pose proof (served_reachable _ _ _ _ d Hs) as Hr.
  split.
  - apply (NoDup_map_finer slot_of).
    + intros a b Ha Hb Hab; unfold cs in Ha, Hb.
      apply filter_In in Ha, Hb.
      destruct Ha as [_ Ha], Hb as [_ Hb]; apply Z.eqb_eq in Ha, Hb.
      unfold slot_of; inversion Hab; congruence.
    + apply NoDup_map_filter; exact (reachable_unique_claim d Hr).
  - intros c Hc; unfold cs in Hc; apply filter_In in Hc.
    destruct Hc as [Hc Hid]; apply Z.eqb_eq in Hid.
    destruct (served_well_formed _ _ _ _ d Hs) as [Hwf _].
    rewrite Forall_forall in Hwf.
    destruct (Hwf c Hc) as (k' & Hk' & Hid' & Hq & Hsn & _).
    assert (k' = k).
    { apply (NoDup_map_inj_in Khuwani.id (khuwanies d)); auto;
        [exact (proj1 (reachable_khuwanies_pkey d Hr)) | congruence]. }
    subst k'; split; assumption.
Qed.

(** The siparas claimed on one copy are distinct numbers of [1..30]. *)
Lemma copy_claims (cs : list Claim.t) (q : Z) :
  NoDup (map (fun c => (Claim.quranNumber c, Claim.siparaNumber c)) cs) ->
  (forall c, In c cs -> 1 <= Claim.siparaNumber c <= 30) ->
  let on_copy := filter (fun c => Claim.quranNumber c =? q) cs in
  NoDup (map Claim.siparaNumber on_copy)
  /\ incl (map Claim.siparaNumber on_copy) (range1 30)
  /\ ParticipantView.claimedInQuran cs q <= 30.
Proof.
  intros Hnd Hrange on_copy.
  assert (Huniq : NoDup (map Claim.siparaNumber on_copy)).
  { apply (NoDup_map_finer
             (fun c => (Claim.quranNumber c, Claim.siparaNumber c))).
    - intros a b Ha Hb Hab; unfold on_copy in Ha, Hb.
      apply filter_In in Ha, Hb.
      destruct Ha as [_ Ha], Hb as [_ Hb]; apply Z.eqb_eq in Ha, Hb.
      congruence.
    - apply NoDup_map_filter; exact Hnd. }
  assert (Hincl : incl (map Claim.siparaNumber on_copy) (range1 30)).
  { intros x Hx; apply in_map_iff in Hx; destruct Hx as [c [<- Hc]].
    apply In_range1, Hrange.
    unfold on_copy in Hc; apply filter_In in Hc; tauto. }
  split; [exact Huniq | split; [exact Hincl|]].
  pose proof (NoDup_incl_length Huniq Hincl) as Hlen.
  rewrite length_map, length_range1 in Hlen.
  unfold ParticipantView.claimedInQuran; fold on_copy; lia.
Qed.

Lemma round_half_up_percent (c : Z) :
  0 <= c <= 30 -> 0 <= round_half_up (100 * c) 30 <= 100.
Proof.
  intros Hc; unfold round_half_up; split.
  - apply Z.div_pos; lia.
  - apply Z.lt_succ_r, Z.div_lt_upper_bound; lia.
Qed.

Lemma find_some_iff_in {Row : Type} (p : Row -> bool) (rows : list Row) :
  find p rows <> None <-> exists r, In r rows /\ p r = true.
Proof.
  split.
  - destruct (find p rows) as [r|] eqn:E; [|congruence].
    intros _; exists r; apply find_some in E; exact E.
  - intros [r [Hr Hp]] E; apply (find_none _ _ E) in Hr; congruence.
Qed.

(** ** What the two views show *)

Lemma route_view_run (d : DB) (slug : Js.str) :
  reachable d -> ~ has_nul slug ->
  run (route_view slug) d
  = (match khuwani_by_slug d slug with
     | Some k =>
         Ok (Data (KhuwaniData.mk (Khuwani.id k) (Khuwani.marhoomName k)
                     (Khuwani.numQurans k) (Khuwani.slug k)
                     (filter (fun c => Claim.khuwaniId c =? Khuwani.id k)
                        (claims d))))
     | None => Ok (Refused (fail 404 "Khuwani not found"))
     end,
     {| db := d;
        trace := match khuwani_by_slug d slug with
                 | Some k => [GetKhuwaniBySlug slug;
                              GetClaimsForKhuwani (Khuwani.id k)]
                 | None => [GetKhuwaniBySlug slug]
                 end |}).
Proof.
  intros Hr Hn; unfold run, route_view, try_catch, bind.
  rewrite getKhuwaniBySlug_run by exact Hn; cbn [db trace app].
  destruct (khuwani_by_slug d slug) as [k|] eqn:Hk; [|reflexivity].
  apply khuwani_by_slug_some in Hk; destruct Hk as (_ & Hin & _).
  destruct (stored_session_keys d k Hr Hin) as [Hint _].
  unfold Storage.getClaimsForKhuwani, call, Pg.bound.
  rewrite (int4_accepts _ Hint); reflexivity.
Qed.

Lemma route_view_data (d : DB) (slug : Js.str) (v : KhuwaniData.t) :
  reachable d ->
  fst (run (route_view slug) d) = Ok (Data v) ->
  exists k,
    khuwani_by_slug d slug = Some k /\ In k (khuwanies d)
    /\ ~ has_nul slug
    /\ v = KhuwaniData.mk (Khuwani.id k) (Khuwani.marhoomName k)
             (Khuwani.numQurans k) (Khuwani.slug k)
             (filter (fun c => Claim.khuwaniId c =? Khuwani.id k) (claims d))
    /\ db (snd (run (route_view slug) d)) = d.
Proof.
  intros Hr.
  destruct (existsb (N.eqb 0) slug) eqn:En.
  - apply has_nul_iff in En.
    unfold run, route_view, try_catch, bind.
    rewrite (getKhuwaniBySlug_refused slug) by exact En.
    cbn [fst]; discriminate.
  - assert (Hn : ~ has_nul slug).
    { intros H; apply has_nul_iff in H; congruence. }
    rewrite (route_view_run d slug Hr Hn); cbn [fst snd db].
    destruct (khuwani_by_slug d slug) as [k|] eqn:Hk; [|discriminate].
    intros H; inversion H; subst v; exists k.
    pose proof (khuwani_by_slug_some d slug k Hk) as (_ & Hin & _).
    repeat split; assumption.
Qed.

(** X9.  What the participant's page shows of a served database.  The view
    is read without writing; it carries exactly the claims of the session
    and at least one copy.  On every copy the number of claimed siparas is
    between 0 and 30, so the percentage shown is the exactly rounded one
    and lies between 0 and 100; a number that is not one of the session's
    copies has no claim; and the completion banner ([claimedInQuran === 30])
    is up exactly when each of the thirty cards of the copy has a claim. *)
Theorem participant_view_figures
    (toLowerCase : Js.str -> Js.str)
    (bcrypt_hash : Js.str -> Js.str -> Js.str)
    (bcrypt_compare : Js.str -> Js.str -> bool) (is_email : Js.str -> bool)
    (d : DB) (slug : Js.str) (v : KhuwaniData.t) :
  served toLowerCase bcrypt_hash bcrypt_compare is_email d ->
  fst (run (route_view slug) d) = Ok (Data v) ->
  let cs := KhuwaniData.claims v in
  db (snd (run (route_view slug) d)) = d
  /\ (forall c, In c cs
                <-> In c (claims d) /\ Claim.khuwaniId c = KhuwaniData.id v)
  /\ 1 <= KhuwaniData.numQurans v
  /\ (forall q,
        0 <= ParticipantView.claimedInQuran cs q <= 30
        /\ exists p,
             ParticipantView.percent cs q = Some p
             /\ p = round_half_up
                      (100 * ParticipantView.claimedInQuran cs q) 30
             /\ 0 <= p <= 100)
  /\ (forall q,
        ~ 1 <= q <= KhuwaniData.numQurans v ->
        ParticipantView.claimedInQuran cs q = 0)
  /\ (forall q,
        ParticipantActions.allComplete cs q = true
        <-> forall s, 1 <= s <= 30 ->
                      ParticipantActions.getClaimForSipara cs q s <> None).
Proof.
  intros Hs Hv cs.
  destruct (route_view_data d slug v (served_reachable _ _ _ _ d Hs) Hv)
    as (k & Hk & Hin & Hslug & -> & Hdb).
  cbn [KhuwaniData.claims KhuwaniData.id KhuwaniData.numQurans] in *.
  destruct (session_claims _ _ _ _ d k Hs Hin) as [Hnd Hrange].
  fold cs in Hnd, Hrange.
  assert (Hsip : forall c, In c cs -> 1 <= Claim.siparaNumber c <= 30)
    by (intros c Hc; apply Hrange; exact Hc).
  assert (Hcount : forall q,
            0 <= ParticipantView.claimedInQuran cs q <= 30).
  { intros q; split; [unfold ParticipantView.claimedInQuran; lia|].
    apply (copy_claims cs q Hnd Hsip). }
  split; [exact Hdb|].
  split.
  { intros c; unfold cs; rewrite filter_In, Z.eqb_eq; tauto. }
  split.
  { destruct (served_well_formed _ _ _ _ d Hs) as [_ Hn].
    rewrite Forall_forall in Hn; exact (Hn k Hin). }
  split.
  { intros q; split; [apply Hcount|].
    exists (round_half_up (100 * ParticipantView.claimedInQuran cs q) 30).
    split; [|split; [reflexivity | apply round_half_up_percent, Hcount]].
    unfold ParticipantView.percent; apply per_copy_percent, Hcount. }
  split.
  { intros q Hq; unfold ParticipantView.claimedInQuran.
    replace (filter (fun c => Claim.quranNumber c =? q) cs) with (@nil Claim.t);
      [reflexivity|].
    symmetry; destruct (filter _ cs) as [|c l] eqn:E; [reflexivity|].
    assert (Hc : In c (filter (fun c => Claim.quranNumber c =? q) cs))
      by (rewrite E; left; reflexivity).
    apply filter_In in Hc; destruct Hc as [Hc Hcq]; apply Z.eqb_eq in Hcq.
    pose proof (Hrange c Hc); lia. }
  intros q.
  destruct (copy_claims cs q Hnd Hsip) as (Huniq & Hincl & Hle).
  set (on_copy := filter (fun c => Claim.quranNumber c =? q) cs) in *.
  unfold ParticipantActions.allComplete, ParticipantActions.getClaimForSipara.
  fold on_copy; rewrite Z.eqb_eq.
  assert (Hlen : ParticipantView.claimedInQuran cs q
                 = Z.of_nat (List.length (map Claim.siparaNumber on_copy)))
    by (rewrite length_map; reflexivity).
  split.
  - intros Hfull s0 Hs0; apply find_some_iff_in.
    assert (Hback : incl (range1 30) (map Claim.siparaNumber on_copy)).
    { apply NoDup_length_incl; [exact Huniq | | exact Hincl].
      rewrite length_range1; lia. }
    specialize (Hback s0 (proj2 (In_range1 30 s0) Hs0)).
    apply in_map_iff in Hback; destruct Hback as [c [Hc Hin0]].
    exists c; split; [exact Hin0 | apply Z.eqb_eq; exact Hc].
  - intros Hall.
    assert (Hback : incl (range1 30) (map Claim.siparaNumber on_copy)).
    { intros s0 Hs0; apply In_range1 in Hs0.
      specialize (Hall s0 Hs0); apply find_some_iff_in in Hall.
      destruct Hall as [c [Hc Hp]]; apply Z.eqb_eq in Hp.
      apply in_map_iff; exists c; split; assumption. }
    pose proof (NoDup_incl_length (NoDup_range1 30) Hback) as Hge.
    rewrite length_range1 in Hge; lia.
Qed.

Lemma participant_view_figures_witness :
  exists p,
    ParticipantView.percent [Sample.ahmed_row] 1 = Some p
    /\ p = round_half_up (100 * 1) 30.
Proof.
  destruct (participant_view_figures _ _ _ _ Sample.claimed Demo.slug
              (KhuwaniData.mk 1 (Js.lit "Haji Abdul Rehman") 1 Demo.slug
                 [Sample.ahmed_row])
              served_sample_claimed)
    as (_ & _ & _ & H & _).
  - vm_compute; reflexivity.
  - destruct (H 1) as [_ [p [Hp [Hexact _]]]].
    exists p; split; [exact Hp | exact Hexact].
Defined.

(** ** The organizer's card *)

Lemma sumZ_add {X : Type} (f g : X -> Z) (l : list X) :
  sumZ (map (fun x => f x + g x) l) = sumZ (map f l) + sumZ (map g l).
Proof.
  induction l as [|x l IH]; cbn [map sumZ fold_right]; [reflexivity|].
  fold (sumZ (map (fun x => f x + g x) l)); fold (sumZ (map f l));
    fold (sumZ (map g l)); lia.
Qed.

Lemma sumZ_indicator (x : Z) (l : list Z) :
  NoDup l ->
  sumZ (map (fun q => if x =? q then 1 else 0) l)
  = if existsb (Z.eqb x) l then 1 else 0.
Proof.
  induction l as [|y l IH]; intros Hnd; [reflexivity|].
  apply NoDup_cons_iff in Hnd; destruct Hnd as [Hy Hnd].
  cbn [map sumZ fold_right existsb].
  fold (sumZ (map (fun q => if x =? q then 1 else 0) l)).
  rewrite (IH Hnd).
  destruct (Z.eqb_spec x y) as [->|_]; cbn [orb]; [|reflexivity].
  destruct (existsb (Z.eqb y) l) eqn:E; [|reflexivity].
  apply existsb_exists in E; destruct E as [z [Hz Hyz]].
  apply Z.eqb_eq in Hyz; subst z; contradiction.
Qed.

Lemma sumZ_bound {X : Type} (f : X -> Z) (b : Z) (l : list X) :
  (forall x, In x l -> f x <= b) ->
  sumZ (map f l) <= b * Z.of_nat (List.length l).
Proof.
  induction l as [|x l IH]; intros H; cbn [map sumZ fold_right List.length];
    [lia|].
  fold (sumZ (map f l)).
  assert (f x <= b) by (apply H; left; reflexivity).
  assert (sumZ (map f l) <= b * Z.of_nat (List.length l))
    by (apply IH; intros; apply H; right; assumption).
  lia.
Qed.

(** The per-copy counts of claims whose copy numbers are in [1..n] add up
    to the number of claims. *)
Lemma counts_add_up (n : Z) (cs : list Claim.t) :
  (forall c, In c cs -> 1 <= Claim.quranNumber c <= n) ->
  sumZ (map (claims_of_quran cs) (range1 n)) = Z.of_nat (List.length cs).
Proof.
  induction cs as [|c cs IH]; intros Hrange.
  - unfold claims_of_quran; cbn [map count_occ List.length].
    induction (range1 n) as [|q l IHl]; [reflexivity|].
    cbn [map sumZ fold_right] in *; fold (sumZ (map (fun _ => 0) l)) in *.
    unfold sumZ in *; rewrite IHl; reflexivity.
  - rewrite (map_ext _ (fun q => (if Claim.quranNumber c =? q then 1 else 0)
                                 + claims_of_quran cs q))
      by (intros q; apply claims_of_quran_cons).
    rewrite sumZ_add, IH by (intros x Hx; apply Hrange; right; exact Hx).
    rewrite sumZ_indicator by apply NoDup_range1.
    assert (E : existsb (Z.eqb (Claim.quranNumber c)) (range1 n) = true).
    { apply existsb_exists; exists (Claim.quranNumber c).
      split; [|apply Z.eqb_refl].
      apply In_range1, Hrange; left; reflexivity. }
    rewrite E; cbn [List.length]; lia.
Qed.

(** X10.  What the organizer's card shows of a served database, for a
    stored session and the claims [getClaimsForKhuwani] returns for it: each
    per-copy count is between 0 and 30, the counts of the copies [1..n] add
    up to [claimedCount], and [claimedCount] is at most [totalSiparas],
    which is positive. *)
Theorem dashboard_counts_add_up
    (toLowerCase : Js.str -> Js.str)
    (bcrypt_hash : Js.str -> Js.str -> Js.str)
    (bcrypt_compare : Js.str -> Js.str -> bool) (is_email : Js.str -> bool)
    (d : DB) (k : Khuwani.t) (cs : list Claim.t) :
  served toLowerCase bcrypt_hash bcrypt_compare is_email d ->
  In k (khuwanies d) ->
  fst (run (Storage.getClaimsForKhuwani (Khuwani.id k)) d) = Ok cs ->
  let n := Khuwani.numQurans k in
  (forall q, 0 <= OrganizerDashboard.quranClaimed n cs q <= 30)
  /\ sumZ (map (OrganizerDashboard.quranClaimed n cs) (range1 n))
     = OrganizerDashboard.claimedCount cs
  /\ 0 <= OrganizerDashboard.claimedCount cs
       <= OrganizerDashboard.totalSiparas n
  /\ 0 < OrganizerDashboard.totalSiparas n.
Proof.
  intros Hs Hin Hcs n.
  destruct (stored_session_keys d k (served_reachable _ _ _ _ d Hs) Hin)
    as [Hint _].
  unfold run, Storage.getClaimsForKhuwani, call, Pg.bound in Hcs.
  rewrite (int4_accepts _ Hint) in Hcs; cbn [fst db] in Hcs.
  injection Hcs as Hcs'; subst cs.
  set (cs := filter (fun c => Claim.khuwaniId c =? Khuwani.id k) (claims d)).
  destruct (session_claims _ _ _ _ d k Hs Hin) as [Hnd Hrange].
  fold cs in Hnd, Hrange.
  assert (Hbound : forall q, 0 <= OrganizerDashboard.quranClaimed n cs q <= 30).
  { intros q; rewrite quranClaimed_counts, <- claimedInQuran_counts.
    split; [unfold ParticipantView.claimedInQuran; lia|].
    apply (copy_claims cs q Hnd); intros c Hc; apply Hrange; exact Hc. }
  assert (Hsum : sumZ (map (OrganizerDashboard.quranClaimed n cs) (range1 n))
                 = OrganizerDashboard.claimedCount cs).
  { rewrite (map_ext _ (claims_of_quran cs))
      by (intros q; apply quranClaimed_counts).
    apply counts_add_up; intros c Hc; apply Hrange; exact Hc. }
  assert (Hn : 1 <= n).
  { destruct (served_well_formed _ _ _ _ d Hs) as [_ Hk].
    rewrite Forall_forall in Hk; exact (Hk k Hin). }
  split; [exact Hbound|].
  split; [exact Hsum|].
  split; [|unfold OrganizerDashboard.totalSiparas; lia].
  split; [unfold OrganizerDashboard.claimedCount; lia|].
  rewrite <- Hsum.
  pose proof (sumZ_bound (OrganizerDashboard.quranClaimed n cs) 30 (range1 n)
                (fun q _ => proj2 (Hbound q))) as Hle.
  rewrite length_range1 in Hle.
  unfold OrganizerDashboard.totalSiparas; lia.
Qed.

Lemma dashboard_counts_add_up_witness :
  sumZ (map (OrganizerDashboard.quranClaimed 1 [Sample.ahmed_row]) (range1 1))
  = OrganizerDashboard.claimedCount [Sample.ahmed_row].
Proof.
  refine (proj1 (proj2 (dashboard_counts_add_up _ _ _ _ Sample.claimed
                          Sample.session_row [Sample.ahmed_row]
                          served_sample_claimed _ _))).
  - rewrite (proj1 sample_claimed_tables); left; reflexivity.
  - vm_compute; reflexivity.
Defined.

(** ** A tap on a card *)

(** The card of a slot shows a claim exactly when the slot holds one. *)
Lemma card_lookup (d : DB) (kid q s : Z) :
  let cs := filter (fun c => Claim.khuwaniId c =? kid) (claims d) in
  (ParticipantActions.getClaimForSipara cs q s = None
   <-> taken d (kid, q, s) = false)
  /\ (forall c,
        ParticipantActions.getClaimForSipara cs q s = Some c ->
        In c (claims d) /\ slot_of c = (kid, q, s)).
Proof.
  intros cs; unfold ParticipantActions.getClaimForSipara.
  assert (Hsome : forall c,
            find (fun c => Claim.siparaNumber c =? s)
              (filter (fun c => Claim.quranNumber c =? q) cs) = Some c ->
            In c (claims d) /\ slot_of c = (kid, q, s)).
  { intros c Hc; apply find_some in Hc; destruct Hc as [Hin Hs].
    apply filter_In in Hin; destruct Hin as [Hin Hq].
    unfold cs in Hin; apply filter_In in Hin; destruct Hin as [Hin Hk].
    apply Z.eqb_eq in Hs, Hq, Hk; unfold slot_of; split; congruence. }
  split; [|exact Hsome].
  rewrite taken_false_iff; split.
  - intros Hnone c Hin Hslot; unfold slot_of in Hslot.
    injection Hslot as Hk Hq Hs.
    assert (Hc : In c (filter (fun c => Claim.quranNumber c =? q) cs)).
    { apply filter_In; split; [|apply Z.eqb_eq; exact Hq].
      unfold cs; apply filter_In; split; [exact Hin | apply Z.eqb_eq, Hk]. }
    apply (find_none _ _ Hnone) in Hc; rewrite Hs, Z.eqb_refl in Hc.
    discriminate.
  - intros Hfree.
    destruct (find _ (filter _ cs)) as [c|] eqn:E; [|reflexivity].
    destruct (Hsome c eq_refl) as [Hin Hslot].
    exfalso; exact (Hfree c Hin Hslot).
Qed.

(** The body the page sends passes validation when the numbers name a card
    and the name has between 1 and 100 code units. *)
Lemma claim_body_accepted (q s : Z) (name : Js.str) :
  1 <= q -> 1 <= s <= 30 ->
  name <> [] -> Z.of_nat (List.length name) <= 100 ->
  claimBodySchema {| body_quranNumber := JNumber (JInt q);
                     body_siparaNumber := JNumber (JInt s);
                     body_participantName := JString name |}
  = inl {| quranNumber := q; siparaNumber := s;
           participantName := Js.trim name |}.
Proof.
  intros Hq Hs Hname Hlen.
  unfold claimBodySchema, Zod.number_int_min_max, Zod.string_min_max_trim.
  cbn [body_quranNumber body_siparaNumber body_participantName].
  destruct (Z.ltb_spec q 1); [lia|].
  destruct (Z.ltb_spec s 1); [lia|].
  destruct (Z.ltb_spec 30 s); [lia|].
  destruct (Z.ltb_spec (Z.of_nat (List.length name)) 1) as [Hshort|_].
  - destruct name; [congruence | cbn [List.length] in Hshort; lia].
  - destruct (Z.ltb_spec 100 (Z.of_nat (List.length name))); [lia|].
    reflexivity.
Qed.

Lemma filter_snoc {Row : Type} (keep : Row -> bool) (rows : list Row)
    (r : Row) :
  keep r = true -> filter keep (rows ++ [r]) = filter keep rows ++ [r].
Proof.
  intros Hr; rewrite filter_app; cbn [filter]; rewrite Hr; reflexivity.
Qed.

(** X11.  A tap on a free card of the participant's page, end to end.  For
    the view of a served database, a copy [q] of the session and a card [s]
    that shows no claim, [handleCardClick] opens the dialog for that slot.
    [handleClaimSubmit] sends nothing while the typed name is blank; for a
    name of at most 100 code units after trimming it sends a body that
    passes validation.  When the trimmed name holds no U+0000 and the
    sequence of claim ids is not used up, the claim route answers 200,
    storing the claim under the trimmed name as the engine reads it (a lone
    surrogate as U+FFFD); the next view shows the card claimed by that row
    and the copy's count is one higher.  With U+0000 in the name, or the
    sequence used up, the answer is 500 and no claim is stored.  A longer
    name is sent and answered 400, the database staying as it was. *)
Theorem tap_on_free_card_claims_it
    (toLowerCase : Js.str -> Js.str)
    (bcrypt_hash : Js.str -> Js.str -> Js.str)
    (bcrypt_compare : Js.str -> Js.str -> bool) (is_email : Js.str -> bool)
    (d : DB) (slug : Js.str) (v : KhuwaniData.t) (q s : Z)
    (nameInput : Js.str) :
  served toLowerCase bcrypt_hash bcrypt_compare is_email d ->
  fst (run (route_view slug) d) = Ok (Data v) ->
  1 <= q <= KhuwaniData.numQurans v -> 1 <= s <= 30 ->
  ParticipantActions.getClaimForSipara (KhuwaniData.claims v) q s = None ->
  let dialog := {| ParticipantActions.dlg_quranNumber := q;
                   ParticipantActions.dlg_siparaNumber := s |} in
  let body := {| body_quranNumber := JNumber (JInt q);
                 body_siparaNumber := JNumber (JInt s);
                 body_participantName := JString (Js.trim nameInput) |} in
  let out := run (route_claim slug body) d in
  let row := Claim.mk (claims_id_seq d) (KhuwaniData.id v) q s
               (Js.toWellFormed (Js.trim nameInput)) in
  ParticipantActions.handleCardClick (KhuwaniData.claims v) q s
  = ParticipantActions.OpenDialog dialog
  /\ (Js.trim nameInput = [] ->
      ParticipantActions.handleClaimSubmit (Some dialog) nameInput = None)
  /\ (Js.trim nameInput <> [] ->
      ParticipantActions.handleClaimSubmit (Some dialog) nameInput = Some body)
  /\ (Js.trim nameInput <> [] ->
      Z.of_nat (List.length (Js.trim nameInput)) <= 100 ->
      ~ has_nul (Js.trim nameInput) ->
      claims_id_seq d <= int4_max ->
      fst out = Ok {| status := 200; payload := ClaimCreated row |}
      /\ claims (db (snd out)) = claims d ++ [row]
      /\ exists v',
           fst (run (route_view slug) (db (snd out))) = Ok (Data v')
           /\ KhuwaniData.claims v' = KhuwaniData.claims v ++ [row]
           /\ ParticipantActions.getClaimForSipara (KhuwaniData.claims v') q s
              = Some row
           /\ ParticipantView.claimedInQuran (KhuwaniData.claims v') q
              = ParticipantView.claimedInQuran (KhuwaniData.claims v) q + 1)
  /\ (Js.trim nameInput <> [] ->
      Z.of_nat (List.length (Js.trim nameInput)) <= 100 ->
      has_nul (Js.trim nameInput) \/ int4_max < claims_id_seq d ->
      fst out = Ok (fail 500 "Failed to claim sipara")
      /\ claims (db (snd out)) = claims d)
  /\ (100 < Z.of_nat (List.length (Js.trim nameInput)) ->
      fst out
      = Ok {| status := 400;
              payload := Msg false (ZodMessage {| path := "participantName";
                                                  code := too_big |}) |}
      /\ db (snd out) = d).
Proof.
  intros Hs Hv Hq Hcard Hfree dialog body out row.
  pose proof (served_reachable _ _ _ _ d Hs) as Hr.
  destruct (route_view_data d slug v Hr Hv) as (k & Hk & Hin & Hslug & -> & _).
  cbn [KhuwaniData.claims KhuwaniData.id KhuwaniData.numQurans] in *.
  destruct (stored_session_keys d k Hr Hin) as [Hint _].
  assert (Hp : Js.trim nameInput <> [] ->
               Z.of_nat (List.length (Js.trim nameInput)) <= 100 ->
               claimBodySchema body
               = inl {| quranNumber := q; siparaNumber := s;
                        participantName := Js.trim nameInput |}).
  { intros Hname Hlen.
    unfold body; rewrite claim_body_accepted; try lia; try assumption.
    rewrite trim_idempotent; reflexivity. }
  split.
  { unfold ParticipantActions.handleCardClick; rewrite Hfree; reflexivity. }
  split.
  { intros Hblank; unfold ParticipantActions.handleClaimSubmit.
    rewrite Hblank; reflexivity. }
  split.
  { intros Hname; unfold ParticipantActions.handleClaimSubmit.
    destruct (Js.trim nameInput) eqn:E; [congruence | reflexivity]. }
  split; [|split].
  - intros Hname Hlen Hnn Hseq.
    pose proof (proj1 (proj1 (card_lookup d (Khuwani.id k) q s)) Hfree)
      as Htaken.
    pose proof (route_claim_free d slug body k _
                  (reachable_numQurans_int4 d Hr) Hint Hk (Hp Hname Hlen)
                  (proj2 Hq) Hnn Hseq Htaken)
      as Hrun.
    cbv zeta in Hrun.
    cbn [quranNumber siparaNumber participantName] in Hrun.
    fold row in Hrun.
    unfold out; rewrite Hrun; cbn [fst snd db].
    split; [reflexivity|].
    split; [reflexivity|].
    set (d' := set_claims (claims d ++ [row]) (nextval_claims d)).
    assert (Hk' : khuwani_by_slug d' slug = Some k) by exact Hk.
    assert (Hr' : reachable d').
    { pose proof (stable_route_claim slug body {| db := d; trace := [] |} Hr)
        as H.
      change (reachable (db (snd (run (route_claim slug body) d)))) in H.
      rewrite Hrun in H; exact H. }
    eexists; split; [rewrite (route_view_run d' slug Hr' Hslug), Hk';
                     reflexivity|].
    cbn [KhuwaniData.claims].
    assert (Hcs : filter (fun c => Claim.khuwaniId c =? Khuwani.id k)
                    (claims d')
                  = filter (fun c => Claim.khuwaniId c =? Khuwani.id k)
                      (claims d) ++ [row]).
    { unfold d'; cbn [claims set_claims].
      apply filter_snoc; unfold row; cbn [Claim.khuwaniId].
      apply Z.eqb_refl. }
    rewrite Hcs; split; [reflexivity|].
    set (cs := filter (fun c => Claim.khuwaniId c =? Khuwani.id k)
                 (claims d)) in *.
    assert (Hon : filter (fun c => Claim.quranNumber c =? q) (cs ++ [row])
                  = filter (fun c => Claim.quranNumber c =? q) cs ++ [row]).
    { apply filter_snoc; unfold row; cbn [Claim.quranNumber].
      apply Z.eqb_refl. }
    split.
    + unfold ParticipantActions.getClaimForSipara; rewrite Hon.
      apply find_snoc_new.
      * apply existsb_none_iff.
        unfold ParticipantActions.getClaimForSipara in Hfree.
        intros c Hc; exact (find_none _ _ Hfree c Hc).
      * unfold row; cbn [Claim.siparaNumber]; apply Z.eqb_refl.
    + unfold ParticipantView.claimedInQuran; rewrite Hon, length_app.
      cbn [List.length]; lia.
  - intros Hname Hlen Hbad.
    unfold out.
    rewrite (route_claim_fault d slug body k _
               (reachable_numQurans_int4 d Hr) Hint Hk (Hp Hname Hlen)
               (proj2 Hq) Hbad).
    split; reflexivity.
  - intros Hlong.
    unfold out, run, route_claim, try_catch, bind.
    rewrite (getKhuwaniBySlug_found slug k) by exact Hk.
    unfold claimBodySchema, Zod.number_int_min_max, Zod.string_min_max_trim.
    cbn [body body_quranNumber body_siparaNumber body_participantName].
    destruct (Z.ltb_spec q 1); [lia|].
    destruct (Z.ltb_spec s 1); [lia|].
    destruct (Z.ltb_spec 30 s); [lia|].
    destruct (Z.ltb_spec (Z.of_nat (List.length (Js.trim nameInput))) 1);
      [lia|].
    destruct (Z.ltb_spec 100 (Z.of_nat (List.length (Js.trim nameInput))));
      [|lia].
    split; reflexivity.
Qed.

Lemma tap_on_free_card_claims_it_witness :
  fst (run (route_claim Demo.slug
              {| body_quranNumber := JNumber (JInt 1);
                 body_siparaNumber := JNumber (JInt 6);
                 body_participantName :=
                   JString (Js.trim (Js.lit "  Fatima ")) |})
         Sample.claimed)
  = Ok {| status := 200;
          payload := ClaimCreated
                       (Claim.mk (claims_id_seq Sample.claimed) 1 1 6
                          (Js.toWellFormed (Js.trim (Js.lit "  Fatima ")))) |}.
Proof.
  destruct (tap_on_free_card_claims_it _ _ _ _ Sample.claimed Demo.slug
              (KhuwaniData.mk 1 (Js.lit "Haji Abdul Rehman") 1 Demo.slug
                 [Sample.ahmed_row])
              1 6 (Js.lit "  Fatima ") served_sample_claimed)
    as (_ & _ & _ & H & _).
  - vm_compute; reflexivity.
  - cbn [KhuwaniData.numQurans]; lia.
  - lia.
  - vm_compute; reflexivity.
  - destruct H as [H _].
    + vm_compute; discriminate.
    + vm_compute; discriminate.
    + vm_compute; intuition discriminate.
    + vm_compute; discriminate.
    + exact H.
Defined.

(** X12.  A tap on a claimed card, once confirmed, end to end.  For the
    view of a served database and a card that shows the claim [c],
    [handleCardClick] sends a release request with the copy, the card and
    the stored name.  When the stored name is not empty the release route
    answers 200 and deletes that claim and no other, and the next view
    shows the card free.  When the stored name is empty (a claim made under
    a name of white space only) the request fails validation: the answer is
    400, nothing is deleted, and the claim stays. *)
Theorem tap_on_claimed_card_releases_it
    (toLowerCase : Js.str -> Js.str)
    (bcrypt_hash : Js.str -> Js.str -> Js.str)
    (bcrypt_compare : Js.str -> Js.str -> bool) (is_email : Js.str -> bool)
    (d : DB) (slug : Js.str) (v : KhuwaniData.t) (q s : Z) (c : Claim.t) :
  served toLowerCase bcrypt_hash bcrypt_compare is_email d ->
  fst (run (route_view slug) d) = Ok (Data v) ->
  ParticipantActions.getClaimForSipara (KhuwaniData.claims v) q s = Some c ->
  let body := {| body_quranNumber := JNumber (JInt q);
                 body_siparaNumber := JNumber (JInt s);
                 body_participantName := JString (Claim.participantName c) |} in
  let out := run (route_unclaim slug body) d in
  ParticipantActions.handleCardClick (KhuwaniData.claims v) q s
  = ParticipantActions.Release body
  /\ In c (claims d)
  /\ slot_of c = (KhuwaniData.id v, q, s)
  /\ (Claim.participantName c <> [] ->
      fst out = Ok (ok "Sipara released")
      /\ (forall c', In c' (claims (db (snd out)))
                     <-> In c' (claims d) /\ c' <> c)
      /\ exists v',
           fst (run (route_view slug) (db (snd out))) = Ok (Data v')
           /\ ParticipantActions.handleCardClick (KhuwaniData.claims v') q s
              = ParticipantActions.OpenDialog
                  {| ParticipantActions.dlg_quranNumber := q;
                     ParticipantActions.dlg_siparaNumber := s |})
  /\ (Claim.participantName c = [] ->
      fst out
      = Ok {| status := 400;
              payload := Msg false (ZodMessage {| path := "participantName";
                                                  code := too_small |}) |}
      /\ db (snd out) = d).
Proof.
  intros Hs Hv Hcard body out.
  pose proof (served_reachable _ _ _ _ d Hs) as Hr.
  destruct (route_view_data d slug v Hr Hv) as (k & Hk & Hin & Hslug & -> & _).
  cbn [KhuwaniData.claims KhuwaniData.id KhuwaniData.numQurans] in *.
  destruct (stored_session_keys d k Hr Hin) as [Hint _].
  destruct (proj2 (card_lookup d (Khuwani.id k) q s) c Hcard) as [Hc Hslot].
  destruct (served_well_formed _ _ _ _ d Hs) as [Hwf _].
  rewrite Forall_forall in Hwf.
  destruct (Hwf c Hc) as (k' & _ & _ & Hq & Hsn & Htrim & Hlen).
  assert (Hcq : Claim.quranNumber c = q /\ Claim.siparaNumber c = s
                /\ Claim.khuwaniId c = Khuwani.id k)
    by (unfold slot_of in Hslot; inversion Hslot; auto).
  destruct Hcq as (Hcq & Hcs & Hck).
  assert (Htext : is_text (Claim.participantName c)).
  { destruct (reachable_stored_text d Hr) as [_ Ht].
    rewrite Forall_forall in Ht; exact (Ht c Hc). }
  assert (Hqint : in_int4 q = true).
  { destruct (reachable_serial_ids d Hr) as (_ & _ & _ & _ & _ & Hser).
    rewrite Forall_forall in Hser; specialize (Hser c Hc).
    rewrite <- Hcq; tauto. }
  split.
  { unfold ParticipantActions.handleCardClick; rewrite Hcard; reflexivity. }
  split; [exact Hc|].
  split; [exact Hslot|].
  split.
  - intros Hname.
    assert (Hp : claimBodySchema body
                 = inl {| quranNumber := q; siparaNumber := s;
                          participantName := Claim.participantName c |}).
    { unfold body; rewrite claim_body_accepted; try lia; try assumption.
      rewrite Htrim; reflexivity. }
    pose proof (route_unclaim_run d slug body k _ Hk Hp Hint Hqint
                  (is_text_no_nul _ Htext)) as Hrun.
    cbv zeta in Hrun.
    cbn [quranNumber siparaNumber participantName] in Hrun.
    rewrite <- (proj2 (text_inl _ _ Htext)) in Hrun.
    set (p := Storage.deleteClaim_where (Khuwani.id k) q s
                (Claim.participantName c)) in *.
    assert (Hpc : p c = true)
      by (apply deleteClaim_where_iff; repeat split; assumption).
    assert (Honly : forall c', In c' (claims d) -> p c' = true -> c' = c).
    { intros c' Hc' Hp'; apply deleteClaim_where_iff in Hp'.
      destruct Hp' as (H1 & H2 & H3 & _).
      apply (NoDup_map_inj_in slot_of (claims d));
        [exact (reachable_unique_claim d Hr) | exact Hc' | exact Hc |].
      unfold slot_of; congruence. }
    assert (Hex : existsb p (claims d) = true)
      by (apply existsb_exists; exists c; split; assumption).
    rewrite Hex in Hrun.
    unfold out; rewrite Hrun; cbn [fst snd db].
    set (d' := set_claims (filter (fun c => negb (p c)) (claims d)) d).
    assert (Hleft : forall c', In c' (claims d')
                               <-> In c' (claims d) /\ c' <> c).
    { intros c'; unfold d'; cbn [claims set_claims].
      rewrite filter_In, negb_true_iff; split.
      - intros [Hc' Hp']; split; [exact Hc'|].
        intros ->; congruence.
      - intros [Hc' Hne]; split; [exact Hc'|].
        destruct (p c') eqn:E; [|reflexivity].
        exfalso; apply Hne, Honly; assumption. }
    split; [reflexivity|].
    split; [exact Hleft|].
    assert (Hk' : khuwani_by_slug d' slug = Some k) by exact Hk.
    assert (Hr' : reachable d').
    { pose proof (stable_route_unclaim slug body {| db := d; trace := [] |}
                    Hr) as H.
      change (reachable (db (snd (run (route_unclaim slug body) d)))) in H.
      rewrite Hrun in H; exact H. }
    eexists; split; [rewrite (route_view_run d' slug Hr' Hslug), Hk';
                     reflexivity|].
    cbn [KhuwaniData.claims].
    unfold ParticipantActions.handleCardClick.
    rewrite (proj2 (proj1 (card_lookup d' (Khuwani.id k) q s)));
      [reflexivity|].
    apply taken_false_iff; intros c' Hc' Hslot'.
    apply Hleft in Hc'; destruct Hc' as [Hc' Hne]; apply Hne.
    apply (NoDup_map_inj_in slot_of (claims d));
      [exact (reachable_unique_claim d Hr) | exact Hc' | exact Hc |].
    congruence.
  - intros Hblank.
    unfold out, run, route_unclaim, try_catch, bind.
    rewrite (getKhuwaniBySlug_found slug k) by exact Hk.
    unfold claimBodySchema, Zod.number_int_min_max, Zod.string_min_max_trim.
    cbn [body body_quranNumber body_siparaNumber body_participantName].
    destruct (Z.ltb_spec q 1); [lia|].
    destruct (Z.ltb_spec s 1); [lia|].
    destruct (Z.ltb_spec 30 s); [lia|].
    rewrite Hblank; split; reflexivity.
Qed.

Lemma tap_on_claimed_card_releases_it_witness :
  fst (run (route_unclaim Demo.slug (Demo.body 1 5 "Ahmed")) Sample.claimed)
  = Ok (ok "Sipara released").
Proof.
  destruct (tap_on_claimed_card_releases_it _ _ _ _ Sample.claimed Demo.slug
              (KhuwaniData.mk 1 (Js.lit "Haji Abdul Rehman") 1 Demo.slug
                 [Sample.ahmed_row])
              1 5 Sample.ahmed_row served_sample_claimed)
    as (_ & _ & _ & H & _).
  - vm_compute; reflexivity.
  - vm_compute; reflexivity.
  - destruct H as [H _]; [vm_compute; discriminate | exact H].
Defined.

(** ** A copy added by the organizer *)

Lemma find_slug_map_bump (i : Z) (slug : Js.str) (ks : list Khuwani.t) :
  find (fun k => Js.eqb (Khuwani.slug k) slug) (map (Sql.bump i) ks)
  = option_map (Sql.bump i)
      (find (fun k => Js.eqb (Khuwani.slug k) slug) ks).
Proof.
  induction ks as [|x ks IH]; cbn [map find option_map]; [reflexivity|].
  assert (Hslug : Khuwani.slug (Sql.bump i x) = Khuwani.slug x)
    by (unfold Sql.bump; destruct (Khuwani.id x =? i); reflexivity).
  rewrite Hslug.
  destruct (Js.eqb (Khuwani.slug x) slug); [reflexivity | exact IH].
Qed.

(** X13.  The organizer's add-quran opens a copy for the participants.
    For a session of a served database with [n] copies, [n] below
    2147483647, a claim request for copy [n + 1] that passes validation is
    answered 400 "Invalid Quran number" and stores nothing; after the
    owner's add-quran request the same claim request is answered 200 and
    the claim is stored, whatever sipara it names (the new copy starts with
    all thirty siparas free), when the name holds no U+0000 and the
    sequence of claim ids is not used up; the name is stored as the engine
    reads it.  With U+0000 in the name, or the sequence used up, the claim
    is answered 500 and no claim is stored. *)
Theorem added_copy_is_free_to_claim
    (toLowerCase : Js.str -> Js.str)
    (bcrypt_hash : Js.str -> Js.str -> Js.str)
    (bcrypt_compare : Js.str -> Js.str -> bool) (is_email : Js.str -> bool)
    (d : DB) (s : Session) (me : Z) (k : Khuwani.t) (body : ClaimBody)
    (data : ClaimData) :
  served toLowerCase bcrypt_hash bcrypt_compare is_email d ->
  organizerId s = Some me -> me <> 0 ->
  In k (khuwanies d) -> Khuwani.organizerId k = me ->
  Khuwani.numQurans k < int4_max ->
  claimBodySchema body = inl data ->
  quranNumber data = Khuwani.numQurans k + 1 ->
  let before := run (route_claim (Khuwani.slug k) body) d in
  let added := run (route_add_quran s (Khuwani.id k)) d in
  let after := run (route_claim (Khuwani.slug k) body) (db (snd added)) in
  let row := Claim.mk (claims_id_seq d) (Khuwani.id k)
               (Khuwani.numQurans k + 1) (siparaNumber data)
               (Js.toWellFormed (participantName data)) in
  fst before = Ok (fail 400 "Invalid Quran number")
  /\ db (snd before) = d
  /\ fst added = Ok (ok "Quran added")
  /\ (~ has_nul (participantName data) -> claims_id_seq d <= int4_max ->
      fst after = Ok {| status := 200; payload := ClaimCreated row |}
      /\ claims (db (snd after)) = claims d ++ [row])
  /\ (has_nul (participantName data) \/ int4_max < claims_id_seq d ->
      fst after = Ok (fail 500 "Failed to claim sipara")
      /\ claims (db (snd after)) = claims d).
Proof.
  intros Hs Hses Hme Hin Hown Hroom Hp Hq before added after row.
  pose proof (served_reachable _ _ _ _ d Hs) as Hr.
  destruct (stored_session_found d k Hr Hin) as [Hid Hslug].
  destruct (stored_session_keys d k Hr Hin) as [Hkint Htext].
  assert (Hint : int4_min <= Khuwani.numQurans k <= int4_max).
  { apply in_int4_iff.
    pose proof (reachable_numQurans_int4 d Hr) as Hall.
    unfold numQurans_int4 in Hall; rewrite Forall_forall in Hall.
    exact (Hall k Hin). }
  assert (Hbefore : before = (Ok (fail 400 "Invalid Quran number"),
                              {| db := d;
                                 trace := [GetKhuwaniBySlug
                                             (Khuwani.slug k)] |})).
  { unfold before, run, route_claim, try_catch, bind.
    rewrite (getKhuwaniBySlug_found _ k) by exact Hslug.
    rewrite Hp.
    destruct (Z.ltb_spec (Khuwani.numQurans k) (quranNumber data)); [|lia].
    reflexivity. }
  split; [rewrite Hbefore; reflexivity|].
  split; [rewrite Hbefore; reflexivity|].
  pose proof (route_add_quran_owner d s me (Khuwani.id k) k
                (reachable_khuwanies_pkey d Hr) Hses Hme Hid Hown) as Hrun.
  assert (E : in_int4 (Khuwani.numQurans k + 1) = true)
    by (apply in_int4_iff; unfold int4_min, int4_max in *; lia).
  rewrite E in Hrun.
  assert (Hr' : reachable (db (snd added)))
    by exact (stable_route_add_quran s (Khuwani.id k)
                {| db := d; trace := [] |} Hr).
  split; [unfold added; rewrite Hrun; reflexivity|].
  set (d' := db (snd added)) in *.
  assert (Hd' : d' = set_khuwanies
                       (map (Sql.bump (Khuwani.id k)) (khuwanies d)) d)
    by (unfold d', added; rewrite Hrun; reflexivity).
  set (k' := Sql.bump (Khuwani.id k) k).
  assert (Hk' : khuwani_by_slug d' (Khuwani.slug k) = Some k').
  { rewrite Hd'; unfold khuwani_by_slug in *; rewrite Htext in *.
    cbn [khuwanies set_khuwanies].
    rewrite find_slug_map_bump, Hslug; reflexivity. }
  assert (Hfields : Khuwani.id k' = Khuwani.id k
                    /\ Khuwani.numQurans k' = Khuwani.numQurans k + 1)
    by (unfold k', Sql.bump; rewrite Z.eqb_refl; split; reflexivity).
  destruct Hfields as [Hid' Hn'].
  assert (Hfree : taken d' (Khuwani.id k', quranNumber data,
                            siparaNumber data) = false).
  { apply taken_false_iff; intros c Hc Hslot.
    rewrite Hd' in Hc; cbn [claims set_khuwanies] in Hc.
    destruct (served_well_formed _ _ _ _ d Hs) as [Hwf _].
    rewrite Forall_forall in Hwf.
    destruct (Hwf c Hc) as (k0 & Hk0 & Hid0 & Hq0 & _).
    unfold slot_of in Hslot; injection Hslot as Hck Hcq _.
    assert (k0 = k).
    { apply (NoDup_map_inj_in Khuwani.id (khuwanies d)); auto;
        [exact (proj1 (reachable_khuwanies_pkey d Hr)) | congruence]. }
    subst k0; lia. }
  assert (Hseq : claims_id_seq d' = claims_id_seq d)
    by (rewrite Hd'; reflexivity).
  assert (Hcl : claims d' = claims d) by (rewrite Hd'; reflexivity).
  assert (Hkint' : in_int4 (Khuwani.id k') = true)
    by (rewrite Hid'; exact Hkint).
  split.
  - intros Hnn Hroom'.
    pose proof (route_claim_free d' (Khuwani.slug k) body k' data
                  (reachable_numQurans_int4 d' Hr') Hkint' Hk' Hp
                  ltac:(lia) Hnn ltac:(lia) Hfree) as Hclaim.
    cbv zeta in Hclaim; rewrite Hid', Hq in Hclaim.
    rewrite Hseq in Hclaim; fold row in Hclaim.
    unfold after; rewrite Hclaim; cbn [fst snd db].
    split; [reflexivity|].
    cbn [claims set_claims]; rewrite Hcl; reflexivity.
  - intros Hbad.
    pose proof (route_claim_fault d' (Khuwani.slug k) body k' data
                  (reachable_numQurans_int4 d' Hr') Hkint' Hk' Hp
                  ltac:(lia) ltac:(rewrite Hseq; exact Hbad)) as Hclaim.
    unfold after; rewrite Hclaim; cbn [fst snd db].
    split; [reflexivity | exact Hcl].
Qed.

Lemma added_copy_is_free_to_claim_witness :
  fst (run (route_claim Demo.slug (Demo.body 2 7 "Bilal")) Sample.claimed)
  = Ok (fail 400 "Invalid Quran number")
  /\ fst (run (route_claim Demo.slug (Demo.body 2 7 "Bilal"))
            (db (snd (run (route_add_quran Demo.owner 1) Sample.claimed))))
     = Ok {| status := 200;
             payload := ClaimCreated
                          (Claim.mk (claims_id_seq Sample.claimed) 1 2 7
                             (Js.toWellFormed (Js.lit "Bilal"))) |}.
Proof.
  destruct (added_copy_is_free_to_claim _ _ _ _ Sample.claimed Demo.owner 1
              Sample.session_row (Demo.body 2 7 "Bilal")
              {| quranNumber := 2; siparaNumber := 7;
                 participantName := Js.lit "Bilal" |}
              served_sample_claimed)
    as (H1 & _ & _ & H2 & _).
  - reflexivity.
  - lia.
  - rewrite (proj1 sample_claimed_tables); left; reflexivity.
  - reflexivity.
  - vm_compute; reflexivity.
  - vm_compute; reflexivity.
  - reflexivity.
  - destruct H2 as [H2 _].
    + vm_compute; intuition discriminate.
    + vm_compute; discriminate.
    + split; [exact H1 | exact H2].
Defined.
